(** * Casino wallet ledger: debit, credit and rollback callbacks

    A shallow embedding of the casino side of the integration
    ([src/casino/service.ts], [src/casino/routes.ts], [src/casino/types.ts],
    [src/shared/middleware.ts], [src/database/schema.sql]) and the properties
    of its idempotent transaction ledger and rollback engine.

    The database is an explicit value threaded through every call; a thrown
    JavaScript error is the second outcome of a small state-and-exception
    monad.  Requests are handled one at a time: the development is about the
    sequential behaviour of the service.

    Modelling choices:
    - amounts and balances are integers ([Z]): money is counted in minor
      units and the columns are [BIGINT]; overflow of either the column or a
      JavaScript number is outside the model;
    - [wallet.playable_balance] has its declared type [number], so [0] is
      falsy under [||];
    - [uuidv4()] draws from a counter kept in the store;
    - of the constraints of [schema.sql], [CHECK (playable_balance >= 0)] and
      [UNIQUE (external_transaction_id)] are enforced by the statements that
      can violate them; foreign keys are not enforced;
    - identifiers are strings of any length: the widths of the [VARCHAR]
      columns are outside the model, and a key of a [UUID] column is taken to
      be the text of a UUID ([is_uuid]) where a statement depends on it. *)

From Stdlib Require Import ZArith List Bool Lia String.
From stdpp Require Import base option gmap strings list.
Import ListNotations.

Local Open Scope string_scope.
Local Open Scope Z_scope.
Local Open Scope list_scope.

(** ** Data model ([types.ts], [schema.sql]) *)

(** [TransactionType = 'debit' | 'credit' | 'rollback'] *)
Inductive TransactionType : Type :=
| debit
| credit
| rollback.

Definition TransactionType_eqb (a b : TransactionType) : bool :=
  match a, b with
  | debit, debit | credit, credit | rollback, rollback => true
  | _, _ => false
  end.

(** The JSON blobs the service writes into [response_cache]:
    - [{ success, transactionId, balance, currency }] (debit and credit);
    - [{ tombstone: true, reason }];
    - [{ alreadyRolledBack: true }];
    - [{ success, transactionId, originalTransactionId, balance, currency,
         reason }] (a rollback that reversed a debit). *)
Inductive ResponseCache : Type :=
| CacheMoney (success : bool) (transactionId : string) (balance : Z)
    (currency : string)
| CacheTombstone (tombstone : bool) (reason : string)
| CacheAlreadyRolledBack (alreadyRolledBack : bool)
| CacheRollback (success : bool) (transactionId originalTransactionId : string)
    (balance : Z) (currency : string) (reason : option string).

(** A row of [casino_wallets].  The table is a finite map from the primary key
    [id] to the remaining columns, so [wallet.id] is the key of the lookup. *)
Record CasinoWallet : Type := {
  user_id : string;
  currency_code : string;
  playable_balance : Z;
  redeemable_balance : Z
}.

(** A row of [casino_game_sessions]. *)
Record CasinoGameSession : Type := {
  session_key : string;          (* id *)
  token : string;
  session_wallet_id : string;    (* wallet_id *)
  is_active : bool
}.

(** A row of [casino_transactions].  [txn_id] is the primary key [id]. *)
Record CasinoTransaction : Type := {
  txn_id : nat;
  wallet_id : string;
  session_id : option string;
  transaction_type : TransactionType;
  amount : Z;
  external_transaction_id : string;
  related_external_transaction_id : option string;
  balance_after : Z;
  response_cache : option ResponseCache;
  is_rollback : bool
}.

(** The store: wallets by id, sessions and ledger rows in insertion order,
    and the supply of fresh row identifiers standing for [uuidv4()]. *)
Record Db : Type := {
  casino_wallets : gmap string CasinoWallet;
  casino_game_sessions : list CasinoGameSession;
  casino_transactions : list CasinoTransaction;
  next_uuid : nat
}.

(** ** Errors ([types.ts], [middleware.ts]) *)

(** A thrown JavaScript error as [errorHandler] sees it: [message], [code]
    and [statusCode], the last two possibly absent. *)
Record JsError : Type := {
  err_message : string;
  err_code : option string;
  err_statusCode : option nat
}.

(** [new CasinoError(message, code, statusCode)] *)
Definition CasinoError (message code : string) (statusCode : nat) : JsError :=
  {| err_message := message; err_code := Some code;
     err_statusCode := Some statusCode |}.

Module ErrorCodes.
Definition INVALID_SESSION : string := "INVALID_SESSION".
Definition INSUFFICIENT_FUNDS : string := "INSUFFICIENT_FUNDS".
Definition INVALID_AMOUNT : string := "INVALID_AMOUNT".
Definition CANNOT_ROLLBACK_PAYOUT : string := "CANNOT_ROLLBACK_PAYOUT".
End ErrorCodes.

(** What the database driver throws when a statement violates a constraint of
    [schema.sql]: an error carrying the SQLSTATE as [code] and no
    [statusCode]. *)
Definition unique_violation : JsError :=
  {| err_message := "duplicate key value violates unique constraint";
     err_code := Some "23505"; err_statusCode := None |}.

Definition check_violation : JsError :=
  {| err_message := "new row violates check constraint";
     err_code := Some "23514"; err_statusCode := None |}.

(** ** The monad of service code *)

Inductive Outcome (A : Type) : Type :=
| Return (a : A) (db : Db)
| Throw (e : JsError) (db : Db).
Arguments Return {A} a db.
Arguments Throw {A} e db.

Definition M (A : Type) : Type := Db -> Outcome A.

Definition ret {A : Type} (a : A) : M A := fun db => Return a db.

Definition throw {A : Type} (e : JsError) : M A := fun db => Throw e db.

Definition bind {A B : Type} (m : M A) (k : A -> M B) : M B :=
  fun db =>
    match m db with
    | Return a db' => k a db'
    | Throw e db' => Throw e db'
    end.

Notation "'let*' x ':=' m 'in' k" := (bind m (fun x => k))
  (at level 10, x name, m at level 100, k at level 200).
Notation "'await' m 'in' k" := (bind m (fun _ => k))
  (at level 10, m at level 100, k at level 200).

Definition final_db {A : Type} (o : Outcome A) : Db :=
  match o with
  | Return _ db => db
  | Throw _ db => db
  end.

(** Modelled from the spec: [transaction] of [src/database/connection.ts],
    which is not among the sources.  The callback runs inside one database
    transaction that commits when it returns; when it throws, the transaction
    aborts, every write it made is undone and the error is rethrown. *)
Definition transaction {A : Type} (body : M A) : M A :=
  fun db =>
    match body db with
    | Return a db' => Return a db'
    | Throw e _ => Throw e db
    end.

(** ** JavaScript operators used by the service *)

(** [x || y] on a number that may be missing ([wallet?.playable_balance]):
    [undefined] and [0] are falsy. *)
Definition or_num (x : option Z) (y : Z) : Z :=
  match x with
  | Some v => if v =? 0 then y else v
  | None => y
  end.

(** [x || y] on a string that may be missing: [undefined] and the empty string
    are falsy. *)
Definition or_str (x : option string) (y : string) : string :=
  match x with
  | Some v => if String.eqb v "" then y else v
  | None => y
  end.

(** [!s] on a string. *)
Definition falsy_str (s : string) : bool := String.eqb s "".

(** ** Database statements issued by the service *)

Definition with_wallets (db : Db) (ws : gmap string CasinoWallet) : Db :=
  {| casino_wallets := ws;
     casino_game_sessions := casino_game_sessions db;
     casino_transactions := casino_transactions db;
     next_uuid := next_uuid db |}.

Definition with_transactions (db : Db) (ts : list CasinoTransaction) : Db :=
  {| casino_wallets := casino_wallets db;
     casino_game_sessions := casino_game_sessions db;
     casino_transactions := ts;
     next_uuid := next_uuid db |}.

Definition set_playable_balance (w : CasinoWallet) (b : Z) : CasinoWallet :=
  {| user_id := user_id w; currency_code := currency_code w;
     playable_balance := b; redeemable_balance := redeemable_balance w |}.

Definition set_is_rollback (t : CasinoTransaction) : CasinoTransaction :=
  {| txn_id := txn_id t; wallet_id := wallet_id t;
     session_id := session_id t; transaction_type := transaction_type t;
     amount := amount t;
     external_transaction_id := external_transaction_id t;
     related_external_transaction_id := related_external_transaction_id t;
     balance_after := balance_after t;
     response_cache := response_cache t;
     is_rollback := true |}.

(** [uuidv4()]: the next unused row identifier. *)
Definition uuidv4 : M nat :=
  fun db =>
    Return (next_uuid db)
      {| casino_wallets := casino_wallets db;
         casino_game_sessions := casino_game_sessions db;
         casino_transactions := casino_transactions db;
         next_uuid := S (next_uuid db) |}.

(** [SELECT * FROM casino_wallets WHERE id = $1 FOR UPDATE], [rows[0]].  The
    row lock orders concurrent requests and has no effect on a single one. *)
Definition select_wallet_for_update (walletId : string)
  : M (option CasinoWallet) :=
  fun db => Return (casino_wallets db !! walletId) db.

(** [UPDATE casino_wallets SET playable_balance = $1 WHERE id = $2], under
    [CONSTRAINT positive_playable_balance CHECK (playable_balance >= 0)]. *)
Definition update_playable_balance (newBalance : Z) (walletId : string)
  : M unit :=
  fun db =>
    match casino_wallets db !! walletId with
    | None => Return tt db
    | Some w =>
        if newBalance <? 0 then Throw check_violation db
        else Return tt
               (with_wallets db
                  (<[walletId := set_playable_balance w newBalance]>
                     (casino_wallets db)))
    end.

Definition has_external_id (externalId : string) (t : CasinoTransaction)
  : bool :=
  String.eqb (external_transaction_id t) externalId.

(** [INSERT INTO casino_transactions ...], under
    [UNIQUE (external_transaction_id)]. *)
Definition insert_transaction (t : CasinoTransaction) : M unit :=
  fun db =>
    if existsb (has_external_id (external_transaction_id t))
         (casino_transactions db)
    then Throw unique_violation db
    else Return tt (with_transactions db (casino_transactions db ++ [t])).

(** [SELECT * FROM casino_transactions WHERE id = $1], [rows[0]] *)
Definition select_transaction_by_id (id : nat)
  : M (option CasinoTransaction) :=
  fun db =>
    Return (find (fun t => Nat.eqb (txn_id t) id) (casino_transactions db)) db.

(** [UPDATE casino_transactions SET is_rollback = true WHERE id = $1] *)
Definition flag_if (id : nat) (t : CasinoTransaction) : CasinoTransaction :=
  if Nat.eqb (txn_id t) id then set_is_rollback t else t.

Definition mark_rolled_back (id : nat) (ts : list CasinoTransaction)
  : list CasinoTransaction :=
  map (flag_if id) ts.

Definition update_is_rollback (id : nat) : M unit :=
  fun db =>
    Return tt
      (with_transactions db (mark_rolled_back id (casino_transactions db))).

(** [related_external_transaction_id = $1 AND transaction_type = 'rollback'] *)
Definition is_rollback_of (originalTransactionId : string)
    (t : CasinoTransaction) : bool :=
  match related_external_transaction_id t with
  | Some r => String.eqb r originalTransactionId
  | None => false
  end && TransactionType_eqb (transaction_type t) rollback.

(** [SELECT * FROM casino_transactions WHERE
     related_external_transaction_id = $1 AND transaction_type = $2], [rows] *)
Definition select_rollbacks_of (originalTransactionId : string)
  : M (list CasinoTransaction) :=
  fun db =>
    Return (List.filter (is_rollback_of originalTransactionId)
              (casino_transactions db)) db.

(** ** [CasinoService] ([service.ts]) *)

Definition getWalletById (walletId : string) : M (option CasinoWallet) :=
  fun db => Return (casino_wallets db !! walletId) db.

(** [WHERE token = $1 AND is_active = true], [rows[0] || null] *)
Definition getSessionByToken (tok : string) : M (option CasinoGameSession) :=
  fun db =>
    Return (find (fun s => String.eqb (token s) tok && is_active s)
              (casino_game_sessions db)) db.

(** [WHERE external_transaction_id = $1], [rows[0] || null] *)
Definition getTransactionByExternalId (externalId : string)
  : M (option CasinoTransaction) :=
  fun db =>
    Return (find (has_external_id externalId) (casino_transactions db)) db.

(** The value [processDebit] and [processCredit] resolve to. *)
Record MoneyResult : Type := {
  res_transaction : option CasinoTransaction;
  res_balance : Z;
  res_currency : string;
  isDuplicate : bool
}.

(** The value [processRollback] resolves to. *)
Record RollbackResult : Type := {
  rb_transaction : option CasinoTransaction;
  rb_balance : Z;
  rb_currency : string;
  rolledBack : bool;
  rb_message : string
}.

(** The early return shared by [processDebit] and [processCredit] when the
    transaction id is already in the ledger. *)
Definition duplicate_result (existing : CasinoTransaction) : M MoneyResult :=
  let* wallet := getWalletById (wallet_id existing) in
  ret {| res_transaction := Some existing;
         res_balance :=
           or_num (playable_balance <$> wallet) (balance_after existing);
         res_currency := or_str (currency_code <$> wallet) "USD";
         isDuplicate := true |}.

Definition processDebit (sessionToken transactionId roundId : string)
    (amount : Z) : M MoneyResult :=
  let* existing := getTransactionByExternalId transactionId in
  match existing with
  | Some existing => duplicate_result existing
  | None =>
  let* session := getSessionByToken sessionToken in
  match session with
  | None =>
      throw (CasinoError "Invalid or expired session"
               ErrorCodes.INVALID_SESSION 401)
  | Some session =>
  if amount <=? 0
  then throw (CasinoError "Amount must be positive"
                ErrorCodes.INVALID_AMOUNT 400)
  else
  transaction (
    let* wallet := select_wallet_for_update (session_wallet_id session) in
    match wallet with
    | None => throw (CasinoError "Wallet not found" "WALLET_ERROR" 500)
    | Some wallet =>
    if playable_balance wallet <? amount
    then throw (CasinoError "Insufficient funds"
                  ErrorCodes.INSUFFICIENT_FUNDS 400)
    else
    let newBalance := playable_balance wallet - amount in
    await update_playable_balance newBalance (session_wallet_id session) in
    let* txnId := uuidv4 in
    let responseCache :=
      CacheMoney true transactionId newBalance (currency_code wallet) in
    await insert_transaction
      {| txn_id := txnId; wallet_id := session_wallet_id session;
         session_id := Some (session_key session);
         transaction_type := debit; amount := amount;
         external_transaction_id := transactionId;
         related_external_transaction_id := None;
         balance_after := newBalance;
         response_cache := Some responseCache;
         is_rollback := false |} in
    let* txnResult := select_transaction_by_id txnId in
    ret {| res_transaction := txnResult; res_balance := newBalance;
           res_currency := currency_code wallet; isDuplicate := false |}
    end)
  end
  end.

Definition processCredit (sessionToken transactionId roundId : string)
    (amount : Z) (relatedTransactionId : option string) : M MoneyResult :=
  let* existing := getTransactionByExternalId transactionId in
  match existing with
  | Some existing => duplicate_result existing
  | None =>
  let* session := getSessionByToken sessionToken in
  match session with
  | None =>
      throw (CasinoError "Invalid or expired session"
               ErrorCodes.INVALID_SESSION 401)
  | Some session =>
  if amount <? 0
  then throw (CasinoError "Amount cannot be negative"
                ErrorCodes.INVALID_AMOUNT 400)
  else
  transaction (
    let* wallet := select_wallet_for_update (session_wallet_id session) in
    match wallet with
    | None => throw (CasinoError "Wallet not found" "WALLET_ERROR" 500)
    | Some wallet =>
    let newBalance := playable_balance wallet + amount in
    await update_playable_balance newBalance (session_wallet_id session) in
    let* txnId := uuidv4 in
    let responseCache :=
      CacheMoney true transactionId newBalance (currency_code wallet) in
    await insert_transaction
      {| txn_id := txnId; wallet_id := session_wallet_id session;
         session_id := Some (session_key session);
         transaction_type := credit; amount := amount;
         external_transaction_id := transactionId;
         related_external_transaction_id :=
           match relatedTransactionId with
           | Some r => if falsy_str r then None else Some r
           | None => None
           end;
         balance_after := newBalance;
         response_cache := Some responseCache;
         is_rollback := false |} in
    let* txnResult := select_transaction_by_id txnId in
    ret {| res_transaction := txnResult; res_balance := newBalance;
           res_currency := currency_code wallet; isDuplicate := false |}
    end)
  end
  end.

Definition processRollback
    (sessionToken transactionId originalTransactionId : string)
    (reason : option string) : M RollbackResult :=
  (* Check if rollback was already processed *)
  let* existingRollback := getTransactionByExternalId transactionId in
  match existingRollback with
  | Some existingRollback =>
      let* wallet := getWalletById (wallet_id existingRollback) in
      ret {| rb_transaction := Some existingRollback;
             rb_balance :=
               or_num (playable_balance <$> wallet)
                 (balance_after existingRollback);
             rb_currency := or_str (currency_code <$> wallet) "USD";
             rolledBack := true;
             rb_message :=
               "Rollback already processed (idempotent response)" |}
  | None =>
  (* Find original transaction *)
  let* originalTxn := getTransactionByExternalId originalTransactionId in
  match originalTxn with
  | None =>
      (* Tombstone rule *)
      let* session := getSessionByToken sessionToken in
      match session with
      | None =>
          throw (CasinoError "Invalid or expired session"
                   ErrorCodes.INVALID_SESSION 401)
      | Some session =>
      let* wallet := getWalletById (session_wallet_id session) in
      match wallet with
      | None => throw (CasinoError "Wallet not found" "WALLET_ERROR" 500)
      | Some wallet =>
      let* txnId := uuidv4 in
      await insert_transaction
        {| txn_id := txnId; wallet_id := session_wallet_id session;
           session_id := Some (session_key session);
           transaction_type := rollback; amount := 0;
           external_transaction_id := transactionId;
           related_external_transaction_id := Some originalTransactionId;
           balance_after := playable_balance wallet;
           response_cache :=
             Some (CacheTombstone true "Original transaction not found");
           is_rollback := true |} in
      ret {| rb_transaction := None;
             rb_balance := playable_balance wallet;
             rb_currency := currency_code wallet;
             rolledBack := true;
             rb_message :=
               "Tombstone recorded - original transaction not found, no balance change" |}
      end
      end
  | Some originalTxn =>
  (* Check if original was already rolled back *)
  if is_rollback originalTxn
  then
    let* wallet := getWalletById (wallet_id originalTxn) in
    ret {| rb_transaction := None;
           rb_balance := or_num (playable_balance <$> wallet) 0;
           rb_currency := or_str (currency_code <$> wallet) "USD";
           rolledBack := false;
           rb_message := "Cannot rollback a rollback transaction" |}
  else
  (* Check if original transaction was already rolled back by another
     rollback *)
  let* existingRollbackForOriginal :=
    select_rollbacks_of originalTransactionId in
  if (0 <? length existingRollbackForOriginal)%nat
  then
    let* wallet := getWalletById (wallet_id originalTxn) in
    let* txnId := uuidv4 in
    await insert_transaction
      {| txn_id := txnId; wallet_id := wallet_id originalTxn;
         session_id := session_id originalTxn;
         transaction_type := rollback; amount := 0;
         external_transaction_id := transactionId;
         related_external_transaction_id := Some originalTransactionId;
         balance_after := or_num (playable_balance <$> wallet) 0;
         response_cache := Some (CacheAlreadyRolledBack true);
         is_rollback := true |} in
    ret {| rb_transaction := None;
           rb_balance := or_num (playable_balance <$> wallet) 0;
           rb_currency := or_str (currency_code <$> wallet) "USD";
           rolledBack := true;
           rb_message := "Transaction was already rolled back" |}
  else
  (* Only bets (debits) can be rolled back, not payouts (credits) *)
  if TransactionType_eqb (transaction_type originalTxn) credit
  then throw (CasinoError "Payouts/credits cannot be rolled back"
                ErrorCodes.CANNOT_ROLLBACK_PAYOUT 400)
  else
  (* Process rollback atomically *)
  transaction (
    let* wallet := select_wallet_for_update (wallet_id originalTxn) in
    match wallet with
    | None => throw (CasinoError "Wallet not found" "WALLET_ERROR" 500)
    | Some wallet =>
    (* Reverse the debit (add amount back) *)
    let newBalance := playable_balance wallet + amount originalTxn in
    await update_playable_balance newBalance (wallet_id originalTxn) in
    (* Mark original as rolled back *)
    await update_is_rollback (txn_id originalTxn) in
    let* txnId := uuidv4 in
    let responseCache :=
      CacheRollback true transactionId originalTransactionId newBalance
        (currency_code wallet) reason in
    await insert_transaction
      {| txn_id := txnId; wallet_id := wallet_id originalTxn;
         session_id := session_id originalTxn;
         transaction_type := rollback; amount := amount originalTxn;
         external_transaction_id := transactionId;
         related_external_transaction_id := Some originalTransactionId;
         balance_after := newBalance;
         response_cache := Some responseCache;
         is_rollback := true |} in
    let* txnResult := select_transaction_by_id txnId in
    ret {| rb_transaction := txnResult;
           rb_balance := newBalance;
           rb_currency := currency_code wallet;
           rolledBack := true;
           rb_message := "Transaction successfully rolled back" |}
    end)
  end
  end.

(** ** Callback surface ([routes.ts], [middleware.ts]) *)

(** Response bodies: [DebitResponse]/[CreditResponse], [RollbackResponse] and
    the error shape [{ success: false, error, code }] ([code] absent in the
    routes' own validation replies). *)
Inductive Body : Type :=
| MoneyBody (success : bool) (transactionId : string) (balance : Z)
    (currency : string)
| RollbackBody (success : bool) (transactionId : string) (rolledBack : bool)
    (balance : Z) (currency : string) (message : string)
| ErrorBody (error : string) (code : option string).

Record HttpResponse : Type := {
  status : nat;
  body : Body
}.

(** [errorHandler]: [err.statusCode || 500], [err.code || 'INTERNAL_ERROR'],
    [err.message || 'An unexpected error occurred']. *)
Definition errorHandler (err : JsError) : HttpResponse :=
  {| status :=
       match err_statusCode err with
       | Some (S n) => S n
       | _ => 500%nat
       end;
     body :=
       ErrorBody (or_str (Some (err_message err)) "An unexpected error occurred")
         (Some (or_str (err_code err) "INTERNAL_ERROR")) |}.

(** Request bodies, after the signature gate.  A missing string field is the
    empty string (both are falsy); a missing [amount] is [None]. *)
Record DebitRequest : Type := {
  debit_sessionToken : string;
  debit_transactionId : string;
  debit_roundId : string;
  debit_amount : option Z
}.

Record CreditRequest : Type := {
  credit_sessionToken : string;
  credit_transactionId : string;
  credit_roundId : string;
  credit_amount : option Z;
  credit_relatedTransactionId : option string
}.

Record RollbackRequest : Type := {
  rollback_sessionToken : string;
  rollback_transactionId : string;
  rollback_originalTransactionId : string;
  rollback_reason : option string
}.

Definition bad_request (error : string) : HttpResponse :=
  {| status := 400%nat; body := ErrorBody error None |}.

(** [router.post('/debit', ...)] *)
Definition debit_route (req : DebitRequest) (db : Db) : HttpResponse * Db :=
  match debit_amount req with
  | Some amount =>
      if falsy_str (debit_sessionToken req)
         || falsy_str (debit_transactionId req)
         || falsy_str (debit_roundId req)
      then (bad_request
              "sessionToken, transactionId, roundId, and amount are required",
            db)
      else
        match processDebit (debit_sessionToken req) (debit_transactionId req)
                (debit_roundId req) amount db with
        | Return result db' =>
            ({| status := 200%nat;
                body := MoneyBody true (debit_transactionId req)
                          (res_balance result) (res_currency result) |}, db')
        | Throw err db' => (errorHandler err, db')
        end
  | None =>
      (bad_request
         "sessionToken, transactionId, roundId, and amount are required", db)
  end.

(** [router.post('/credit', ...)] *)
Definition credit_route (req : CreditRequest) (db : Db) : HttpResponse * Db :=
  match credit_amount req with
  | Some amount =>
      if falsy_str (credit_sessionToken req)
         || falsy_str (credit_transactionId req)
         || falsy_str (credit_roundId req)
      then (bad_request
              "sessionToken, transactionId, roundId, and amount are required",
            db)
      else
        match processCredit (credit_sessionToken req)
                (credit_transactionId req) (credit_roundId req) amount
                (credit_relatedTransactionId req) db with
        | Return result db' =>
            ({| status := 200%nat;
                body := MoneyBody true (credit_transactionId req)
                          (res_balance result) (res_currency result) |}, db')
        | Throw err db' => (errorHandler err, db')
        end
  | None =>
      (bad_request
         "sessionToken, transactionId, roundId, and amount are required", db)
  end.

(** [router.post('/rollback', ...)] *)
Definition rollback_route (req : RollbackRequest) (db : Db)
  : HttpResponse * Db :=
  if falsy_str (rollback_sessionToken req)
     || falsy_str (rollback_transactionId req)
     || falsy_str (rollback_originalTransactionId req)
  then (bad_request
          "sessionToken, transactionId, and originalTransactionId are required",
        db)
  else
    match processRollback (rollback_sessionToken req)
            (rollback_transactionId req)
            (rollback_originalTransactionId req) (rollback_reason req) db with
    | Return result db' =>
        ({| status := 200%nat;
            body := RollbackBody true (rollback_transactionId req)
                      (rolledBack result) (rb_balance result)
                      (rb_currency result) (rb_message result) |}, db')
    | Throw err db' => (errorHandler err, db')
    end.

(** A money-moving callback and the state it leaves behind. *)
Inductive Request : Type :=
| Debit (req : DebitRequest)
| Credit (req : CreditRequest)
| Rollback (req : RollbackRequest).

Definition handle (r : Request) (db : Db) : HttpResponse * Db :=
  match r with
  | Debit req => debit_route req db
  | Credit req => credit_route req db
  | Rollback req => rollback_route req db
  end.

(** The committed state after a sequence of requests, oldest first. *)
Definition run (rs : list Request) (db : Db) : Db :=
  fold_left (fun d r => snd (handle r d)) rs db.

(** The responses of a sequence of requests, oldest first. *)
Fixpoint responses (rs : list Request) (db : Db) : list HttpResponse :=
  match rs with
  | [] => []
  | r :: rs' => fst (handle r db) :: responses rs' (snd (handle r db))
  end.

(** ** Ledger properties *)

(** The effect of an entry on the balance of its wallet: a debit takes its
    amount, a credit and a rollback give theirs (0 for a tombstone or an
    already-rolled-back marker, the original amount for a reversed debit). *)
Definition signed_amount (t : CasinoTransaction) : Z :=
  match transaction_type t with
  | debit => - amount t
  | credit => amount t
  | rollback => amount t
  end.

(** The entries of one wallet, in insertion order. *)
Definition on_wallet (walletId : string) (ts : list CasinoTransaction)
  : list CasinoTransaction :=
  List.filter (fun t => String.eqb (wallet_id t) walletId) ts.

(** Every entry follows from its predecessor by its own signed amount. *)
Definition chained (ts : list CasinoTransaction) : Prop :=
  forall (i : nat) (t1 t2 : CasinoTransaction),
    ts !! i = Some t1 -> ts !! S i = Some t2 ->
    balance_after t2 = balance_after t1 + signed_amount t2.

Definition balances_nonneg (db : Db) : Prop :=
  forall (walletId : string) (w : CasinoWallet),
    casino_wallets db !! walletId = Some w -> 0 <= playable_balance w.

(** A store before any callback: wallets satisfy the schema's check
    constraint and the ledger is empty. *)
Definition initial (db : Db) : Prop :=
  casino_transactions db = [] /\ balances_nonneg db.

(** The stores the callbacks can produce. *)
Definition reachable (db : Db) : Prop :=
  exists (db0 : Db) (rs : list Request), initial db0 /\ run rs db0 = db.

(** What a rollback entry records: a marker of amount 0 (a tombstone or an
    already-rolled-back marker), or the amount of the debit it reverses. *)
Definition rollback_amount_ok (ts : list CasinoTransaction)
    (t : CasinoTransaction) : Prop :=
  (amount t = 0
   /\ (response_cache t =
       Some (CacheTombstone true "Original transaction not found")
       \/ response_cache t = Some (CacheAlreadyRolledBack true)))
  \/ exists o : CasinoTransaction,
       In o ts
       /\ related_external_transaction_id t = Some (external_transaction_id o)
       /\ transaction_type o = debit
       /\ amount t = amount o.

(** What every reachable store satisfies. *)
Record ledger_inv (db : Db) : Prop := {
  inv_balances : balances_nonneg db;
  inv_ids_lt :
    forall t, In t (casino_transactions db) -> (txn_id t < next_uuid db)%nat;
  inv_ids_key :
    forall t1 t2, In t1 (casino_transactions db) ->
      In t2 (casino_transactions db) -> txn_id t1 = txn_id t2 -> t1 = t2;
  inv_credit :
    forall t, In t (casino_transactions db) ->
      transaction_type t = credit -> is_rollback t = false;
  inv_rollback_flag :
    forall t, In t (casino_transactions db) ->
      transaction_type t = rollback -> is_rollback t = true;
  inv_rollback_amount :
    forall t, In t (casino_transactions db) ->
      transaction_type t = rollback ->
      rollback_amount_ok (casino_transactions db) t;
  inv_wallet :
    forall t, In t (casino_transactions db) ->
      is_Some (casino_wallets db !! wallet_id t);
  inv_amount :
    forall t, In t (casino_transactions db) -> 0 <= amount t;
  inv_last :
    forall walletId w t, casino_wallets db !! walletId = Some w ->
      last (on_wallet walletId (casino_transactions db)) = Some t ->
      balance_after t = playable_balance w;
  inv_chain :
    forall walletId, chained (on_wallet walletId (casino_transactions db))
}.

(** The one way a callback changes the store: it appends entry [t] on a
    wallet [w], moves that wallet's balance to [balance_after t], and, when it
    reverses a debit [orig], flags that debit. *)
Record appended (db db' : Db) (orig : option CasinoTransaction)
    (t : CasinoTransaction) (w : CasinoWallet) : Prop := {
  app_wallet : casino_wallets db !! wallet_id t = Some w;
  app_wallets :
    casino_wallets db' =
    <[wallet_id t := set_playable_balance w (balance_after t)]>
      (casino_wallets db);
  app_sessions : casino_game_sessions db' = casino_game_sessions db;
  app_ledger :
    casino_transactions db' =
    (match orig with
     | Some o => mark_rolled_back (txn_id o) (casino_transactions db)
     | None => casino_transactions db
     end ++ [t])%list;
  app_uuid : next_uuid db' = S (next_uuid db);
  app_id : txn_id t = next_uuid db;
  app_fresh :
    find (has_external_id (external_transaction_id t))
      (casino_transactions db) = None;
  app_nonneg : 0 <= balance_after t;
  app_amount : 0 <= amount t;
  app_balance : balance_after t = playable_balance w + signed_amount t;
  app_credit : transaction_type t = credit -> is_rollback t = false;
  app_rollback :
    transaction_type t = rollback ->
    is_rollback t = true /\ rollback_amount_ok (casino_transactions db) t;
  app_orig :
    match orig with
    | Some o => In o (casino_transactions db) /\ transaction_type o <> credit
    | None => True
    end
}.

Inductive ledger_step (db db' : Db) : Prop :=
| step_unchanged : db' = db -> ledger_step db db'
| step_appended orig t w : appended db db' orig t w -> ledger_step db db'.

(** ** A sample store and sample requests *)

Definition sample_wallet (b : Z) : CasinoWallet :=
  {| user_id := "player1"; currency_code := "USD"; playable_balance := b;
     redeemable_balance := 0 |}.

Definition sample_session : CasinoGameSession :=
  {| session_key := "s1"; token := "tok"; session_wallet_id := "w1";
     is_active := true |}.

(** One player with one active session and a playable balance of [b]. *)
Definition sample_db (b : Z) : Db :=
  {| casino_wallets := {[ "w1" := sample_wallet b ]};
     casino_game_sessions := [sample_session];
     casino_transactions := [];
     next_uuid := 0 |}.

Definition debit_req (transactionId : string) (a : Z) : Request :=
  Debit {| debit_sessionToken := "tok"; debit_transactionId := transactionId;
           debit_roundId := "round1"; debit_amount := Some a |}.

Definition credit_req (transactionId : string) (a : Z)
    (related : option string) : Request :=
  Credit {| credit_sessionToken := "tok";
            credit_transactionId := transactionId;
            credit_roundId := "round1"; credit_amount := Some a;
            credit_relatedTransactionId := related |}.

Definition rollback_req (transactionId originalTransactionId : string)
  : Request :=
  Rollback {| rollback_sessionToken := "tok";
              rollback_transactionId := transactionId;
              rollback_originalTransactionId := originalTransactionId;
              rollback_reason := None |}.

(** ** The stores the callbacks commit *)

(** The store after a marker entry is recorded: the ledger becomes [ts], one
    row identifier is used up and no wallet changes. *)
Definition recorded (db : Db) (ts : list CasinoTransaction) : Db :=
  {| casino_wallets := casino_wallets db;
     casino_game_sessions := casino_game_sessions db;
     casino_transactions := ts;
     next_uuid := S (next_uuid db) |}.

(** The store after a balance-moving transaction commits: wallet [walletId]
    (row [w] before) holds [newBalance] and the ledger becomes [ts]. *)
Definition committed (db : Db) (walletId : string) (w : CasinoWallet)
    (newBalance : Z) (ts : list CasinoTransaction) : Db :=
  {| casino_wallets :=
       <[walletId := set_playable_balance w newBalance]> (casino_wallets db);
     casino_game_sessions := casino_game_sessions db;
     casino_transactions := ts;
     next_uuid := S (next_uuid db) |}.

(** The rows the service inserts. *)
Definition debit_entry (db : Db) (session : CasinoGameSession)
    (w : CasinoWallet) (transactionId : string) (a : Z) : CasinoTransaction :=
  {| txn_id := next_uuid db; wallet_id := session_wallet_id session;
     session_id := Some (session_key session);
     transaction_type := debit; amount := a;
     external_transaction_id := transactionId;
     related_external_transaction_id := None;
     balance_after := playable_balance w - a;
     response_cache :=
       Some (CacheMoney true transactionId (playable_balance w - a)
               (currency_code w));
     is_rollback := false |}.

Definition credit_entry (db : Db) (session : CasinoGameSession)
    (w : CasinoWallet) (transactionId : string) (a : Z)
    (related : option string) : CasinoTransaction :=
  {| txn_id := next_uuid db; wallet_id := session_wallet_id session;
     session_id := Some (session_key session);
     transaction_type := credit; amount := a;
     external_transaction_id := transactionId;
     related_external_transaction_id :=
       match related with
       | Some r => if falsy_str r then None else Some r
       | None => None
       end;
     balance_after := playable_balance w + a;
     response_cache :=
       Some (CacheMoney true transactionId (playable_balance w + a)
               (currency_code w));
     is_rollback := false |}.

Definition tombstone_entry (db : Db) (session : CasinoGameSession)
    (w : CasinoWallet) (transactionId originalTransactionId : string)
  : CasinoTransaction :=
  {| txn_id := next_uuid db; wallet_id := session_wallet_id session;
     session_id := Some (session_key session);
     transaction_type := rollback; amount := 0;
     external_transaction_id := transactionId;
     related_external_transaction_id := Some originalTransactionId;
     balance_after := playable_balance w;
     response_cache :=
       Some (CacheTombstone true "Original transaction not found");
     is_rollback := true |}.

Definition marker_entry (db : Db) (original : CasinoTransaction)
    (transactionId originalTransactionId : string) : CasinoTransaction :=
  {| txn_id := next_uuid db; wallet_id := wallet_id original;
     session_id := session_id original;
     transaction_type := rollback; amount := 0;
     external_transaction_id := transactionId;
     related_external_transaction_id := Some originalTransactionId;
     balance_after :=
       or_num (playable_balance <$> casino_wallets db !! wallet_id original) 0;
     response_cache := Some (CacheAlreadyRolledBack true);
     is_rollback := true |}.

Definition rollback_entry (db : Db) (original : CasinoTransaction)
    (w : CasinoWallet) (transactionId originalTransactionId : string)
    (reason : option string) : CasinoTransaction :=
  {| txn_id := next_uuid db; wallet_id := wallet_id original;
     session_id := session_id original;
     transaction_type := rollback; amount := amount original;
     external_transaction_id := transactionId;
     related_external_transaction_id := Some originalTransactionId;
     balance_after := playable_balance w + amount original;
     response_cache :=
       Some (CacheRollback true transactionId originalTransactionId
               (playable_balance w + amount original) (currency_code w)
               reason);
     is_rollback := true |}.

(** ** The events of the ledger *)

(** The writes a callback can commit, each with the condition under which the
    service makes it: a debit, a credit, a tombstone, an already-rolled-back
    marker, or the reversal of a debit. *)
Inductive ledger_event (db : Db) : Db -> Prop :=
| event_none : ledger_event db db
| event_debit (session : CasinoGameSession) (w : CasinoWallet)
    (transactionId : string) (a : Z) :
    find (has_external_id transactionId) (casino_transactions db) = None ->
    casino_wallets db !! session_wallet_id session = Some w ->
    0 < a -> a <= playable_balance w ->
    ledger_event db
      (committed db (session_wallet_id session) w (playable_balance w - a)
         (casino_transactions db
            ++ [debit_entry db session w transactionId a]))
| event_credit (session : CasinoGameSession) (w : CasinoWallet)
    (transactionId : string) (a : Z) (related : option string) :
    find (has_external_id transactionId) (casino_transactions db) = None ->
    casino_wallets db !! session_wallet_id session = Some w ->
    0 <= a ->
    ledger_event db
      (committed db (session_wallet_id session) w (playable_balance w + a)
         (casino_transactions db
            ++ [credit_entry db session w transactionId a related]))
| event_tombstone (session : CasinoGameSession) (w : CasinoWallet)
    (transactionId originalTransactionId : string) :
    find (has_external_id transactionId) (casino_transactions db) = None ->
    find (has_external_id originalTransactionId) (casino_transactions db)
      = None ->
    casino_wallets db !! session_wallet_id session = Some w ->
    ledger_event db
      (recorded db
         (casino_transactions db
            ++ [tombstone_entry db session w transactionId
                  originalTransactionId]))
| event_marker (original : CasinoTransaction)
    (transactionId originalTransactionId : string) :
    find (has_external_id transactionId) (casino_transactions db) = None ->
    find (has_external_id originalTransactionId) (casino_transactions db)
      = Some original ->
    is_rollback original = false ->
    List.filter (is_rollback_of originalTransactionId)
      (casino_transactions db) <> [] ->
    ledger_event db
      (recorded db
         (casino_transactions db
            ++ [marker_entry db original transactionId
                  originalTransactionId]))
| event_reversal (original : CasinoTransaction) (w : CasinoWallet)
    (transactionId originalTransactionId : string) (reason : option string) :
    find (has_external_id transactionId) (casino_transactions db) = None ->
    find (has_external_id originalTransactionId) (casino_transactions db)
      = Some original ->
    transaction_type original = debit ->
    is_rollback original = false ->
    List.filter (is_rollback_of originalTransactionId)
      (casino_transactions db) = [] ->
    casino_wallets db !! wallet_id original = Some w ->
    ledger_event db
      (committed db (wallet_id original) w
         (playable_balance w + amount original)
         (mark_rolled_back (txn_id original) (casino_transactions db)
            ++ [rollback_entry db original w transactionId
                  originalTransactionId reason])).

(** The money the rollback entries of a ledger give back for the original
    [originalTransactionId]. *)
Definition refunded (originalTransactionId : string)
    (ts : list CasinoTransaction) : Z :=
  fold_right (fun t acc => amount t + acc) 0
    (List.filter (is_rollback_of originalTransactionId) ts).

(** What the ledger says an original should have been given back: its amount
    when it is a debit flagged as rolled back, nothing otherwise. *)
Definition refund_due (originalTransactionId : string)
    (ts : list CasinoTransaction) : Z :=
  match find (has_external_id originalTransactionId) ts with
  | Some o =>
      if TransactionType_eqb (transaction_type o) debit && is_rollback o
      then amount o
      else 0
  | None => 0
  end.

(** The net movement the entries of a ledger record for one wallet. *)
Definition net_amount (walletId : string) (ts : list CasinoTransaction) : Z :=
  fold_right (fun t acc => signed_amount t + acc) 0 (on_wallet walletId ts).

(** The columns of a wallet no callback writes. *)
Definition wallet_identity (w : CasinoWallet) : string * string * Z :=
  (user_id w, currency_code w, redeemable_balance w).

(** ** Balance read and session end ([service.ts], [routes.ts]) *)

(** The value [getBalance] resolves to. *)
Record BalanceResult : Type := {
  bal_balance : Z;
  bal_currency : string;
  bal_session : CasinoGameSession
}.

Definition getBalance (sessionToken : string) : M BalanceResult :=
  let* session := getSessionByToken sessionToken in
  match session with
  | None =>
      throw (CasinoError "Invalid or expired session"
               ErrorCodes.INVALID_SESSION 401)
  | Some session =>
  let* wallet := getWalletById (session_wallet_id session) in
  match wallet with
  | None => throw (CasinoError "Wallet not found" "WALLET_ERROR" 500)
  | Some wallet =>
      ret {| bal_balance := playable_balance wallet;
             bal_currency := currency_code wallet;
             bal_session := session |}
  end
  end.

(** What [POST /casino/getBalance] answers: [GetBalanceResponse] with status
    200, or an error response. *)
Inductive BalanceReply : Type :=
| BalanceOk (success : bool) (balance : Z) (currency : string)
| BalanceRefused (response : HttpResponse).

(** [router.post('/getBalance', ...)] *)
Definition getBalance_route (sessionToken : string) (db : Db)
  : BalanceReply * Db :=
  if falsy_str sessionToken
  then (BalanceRefused (bad_request "sessionToken is required"), db)
  else
    match getBalance sessionToken db with
    | Return result db' =>
        (BalanceOk true (bal_balance result) (bal_currency result), db')
    | Throw err db' => (BalanceRefused (errorHandler err), db')
    end.

(** [UPDATE casino_game_sessions SET is_active = false, ended_at = ...
     WHERE token = $1], on one row. *)
Definition end_row (sessionToken : string) (s : CasinoGameSession)
  : CasinoGameSession :=
  if String.eqb (token s) sessionToken
  then {| session_key := session_key s; token := token s;
          session_wallet_id := session_wallet_id s; is_active := false |}
  else s.

Definition endSession (sessionToken : string) : M unit :=
  fun db =>
    Return tt
      {| casino_wallets := casino_wallets db;
         casino_game_sessions :=
           map (end_row sessionToken) (casino_game_sessions db);
         casino_transactions := casino_transactions db;
         next_uuid := next_uuid db |}.

(** ** Game launch ([service.ts]) *)

(** Rows of [casino_users], [casino_games] and [casino_game_providers], each
    table a finite map from the primary key [id]. *)
Record CasinoUser : Type := {
  username : string;
  email : string
}.

Record CasinoGame : Type := {
  provider_id : string;
  provider_game_id : string;
  game_name : string;
  game_is_active : bool;
  min_bet : Z;
  max_bet : Z
}.

Record CasinoGameProvider : Type := {
  provider_code : string;
  provider_name : string;
  api_endpoint : string;
  secret_key : string;
  is_disabled : bool
}.

(** The tables a launch reads and no function of the service writes. *)
Record Catalog : Type := {
  casino_users : gmap string CasinoUser;
  casino_games : gmap string CasinoGame;
  casino_game_providers : gmap string CasinoGameProvider
}.

Definition owned_by (userId currency : string)
    (row : string * CasinoWallet) : bool :=
  String.eqb (user_id (snd row)) userId
  && String.eqb (currency_code (snd row)) currency.

(** [getWallet]: [WHERE user_id = $1 AND currency_code = $2], [rows[0]], the
    row with its [id]. *)
Definition getWallet (userId currency : string)
  : M (option (string * CasinoWallet)) :=
  fun db =>
    Return (find (owned_by userId currency) (map_to_list (casino_wallets db)))
      db.

(** The row [VALUES ($1, $2, $3, 0, 0)] of a new wallet. *)
Definition new_wallet (userId currency : string) : CasinoWallet :=
  {| user_id := userId; currency_code := currency; playable_balance := 0;
     redeemable_balance := 0 |}.

(** [INSERT INTO casino_wallets (id, user_id, currency_code,
     playable_balance, redeemable_balance) VALUES ($1, $2, $3, 0, 0)], under
    the primary key and [UNIQUE (user_id, currency_code)]. *)
Definition insert_wallet (walletId userId currency : string) : M unit :=
  fun db =>
    match casino_wallets db !! walletId,
          find (owned_by userId currency) (map_to_list (casino_wallets db))
    with
    | None, None =>
        Return tt
          (with_wallets db
             (<[walletId := new_wallet userId currency]> (casino_wallets db)))
    | _, _ => Throw unique_violation db
    end.

(** The row of a new session: [is_active] defaults to true.  The row keeps
    the columns the callbacks read. *)
Definition new_session (sessionId sessionToken walletId : string)
  : CasinoGameSession :=
  {| session_key := sessionId; token := sessionToken;
     session_wallet_id := walletId; is_active := true |}.

Definition with_sessions (db : Db) (ss : list CasinoGameSession) : Db :=
  {| casino_wallets := casino_wallets db;
     casino_game_sessions := ss;
     casino_transactions := casino_transactions db;
     next_uuid := next_uuid db |}.

Definition clashes_with (sessionId sessionToken : string)
    (s : CasinoGameSession) : bool :=
  String.eqb (session_key s) sessionId || String.eqb (token s) sessionToken.

(** [INSERT INTO casino_game_sessions (id, token, user_id, wallet_id,
     game_id)], under the primary key and [UNIQUE (token)]. *)
Definition insert_session (sessionId sessionToken walletId : string)
  : M unit :=
  fun db =>
    if existsb (clashes_with sessionId sessionToken) (casino_game_sessions db)
    then Throw unique_violation db
    else
      Return tt
        (with_sessions db
           (casino_game_sessions db
              ++ [new_session sessionId sessionToken walletId])).

(** [getSessionById]: [WHERE id = $1], [rows[0] || null] *)
Definition getSessionById (sessionId : string)
  : M (option CasinoGameSession) :=
  fun db =>
    Return (find (fun s => String.eqb (session_key s) sessionId)
              (casino_game_sessions db)) db.





(** The value [launchGame] resolves to; the wallet comes with its [id]. *)
Record LaunchResult : Type := {
  launch_session : CasinoGameSession;
  launch_wallet : string * CasinoWallet;
  launch_game : CasinoGame;
  launch_provider : CasinoGameProvider
}.

(** [launchGame].  The three values the function draws at random are
    arguments: [walletId] and [sessionId] stand for the two [uuidv4()] and
    [sessionToken] for [generateSessionToken()].  [userId] and [gameId] are
    looked up as they come; what the driver does with one that is not the
    text of a UUID is not part of this function (see [is_uuid]). *)
Definition launchGame (catalog : Catalog)
    (walletId sessionId sessionToken : string)
    (userId gameId currency : string) : M LaunchResult :=
  (* Validate user exists *)
  match casino_users catalog !! userId with
  | None => throw (CasinoError "User not found" "USER_NOT_FOUND" 404)
  | Some user =>
  (* Validate game exists *)
  match casino_games catalog !! gameId with
  | None =>
      throw (CasinoError "Game not found or inactive" "GAME_NOT_FOUND" 404)
  | Some game =>
  if negb (game_is_active game)
  then throw (CasinoError "Game not found or inactive" "GAME_NOT_FOUND" 404)
  else
  (* Get provider *)
  match casino_game_providers catalog !! provider_id game with
  | None =>
      throw (CasinoError "Game provider not available" "PROVIDER_NOT_FOUND"
               404)
  | Some provider =>
  if is_disabled provider
  then throw (CasinoError "Game provider not available" "PROVIDER_NOT_FOUND"
                404)
  else
  (* Get or create wallet *)
  let* found := getWallet userId currency in
  let* wallet :=
    match found with
    | Some row => ret (Some row)
    | None =>
        await insert_wallet walletId userId currency in
        let* created := getWalletById walletId in
        ret (pair walletId <$> created)
    end in
  match wallet with
  | None => throw (CasinoError "Failed to get wallet" "WALLET_ERROR" 500)
  | Some wallet =>
  (* Create game session *)
  await insert_session sessionId sessionToken (fst wallet) in
  let* session := getSessionById sessionId in
  match session with
  | None => throw (CasinoError "Failed to create session" "SESSION_ERROR" 500)
  | Some session =>
      ret {| launch_session := session; launch_wallet := wallet;
             launch_game := game; launch_provider := provider |}
  end
  end
  end
  end
  end.

Definition sample_catalog : Catalog :=
  {| casino_users :=
       {[ "u1" := {| username := "player1";
                     email := "player1@example.com" |} ]};
     casino_games :=
       {[ "g1" := {| provider_id := "p1";
                     provider_game_id := "slots-mega-fortune";
                     game_name := "Mega Fortune Slots";
                     game_is_active := true;
                     min_bet := 100; max_bet := 100000 |} ]};
     casino_game_providers :=
       {[ "p1" := {| provider_code := "JAQPOT";
                     provider_name := "Jaqpot Games";
                     api_endpoint := "http://localhost:3000/provider";
                     secret_key := "secret";
                     is_disabled := false |} ]} |}.


(** ** Signature gate ([shared/security.ts], [shared/middleware.ts]) *)

(** The primitives the gate takes from the platform, for request bodies of
    type [Payload]: [JSON.stringify], the hex digest of
    [crypto.createHmac('sha256', secret).update(payload)] and
    [Buffer.from(s, 'hex')]. *)
Record Crypto (Payload : Type) : Type := {
  JSON_stringify : Payload -> string;
  hmac_sha256_hex : string -> string -> string;
  Buffer_from_hex : string -> list Ascii.ascii
}.
Arguments JSON_stringify {Payload} c body.
Arguments hmac_sha256_hex {Payload} c secret payload.
Arguments Buffer_from_hex {Payload} c s.

(** [crypto.timingSafeEqual] on two buffers of one length. *)
Fixpoint timingSafeEqual (a b : list Ascii.ascii) : bool :=
  match a, b with
  | [], [] => true
  | x :: a', y :: b' => Ascii.eqb x y && timingSafeEqual a' b'
  | _, _ => false
  end.

(** [signBody] *)
Definition signBody {Payload : Type} (c : Crypto Payload) (body : Payload)
    (secret : string) : string :=
  hmac_sha256_hex c secret (JSON_stringify c body).

(** [verifySignature] *)
Definition verifySignature {Payload : Type} (c : Crypto Payload)
    (providedSig : string) (body : Payload) (secret : string) : bool :=
  if falsy_str providedSig then false
  else
    let expectedSig := signBody c body secret in
    let a := Buffer_from_hex c providedSig in
    let b := Buffer_from_hex c expectedSig in
    if negb (Nat.eqb (length a) (length b)) then false
    else timingSafeEqual a b.

(** What a signature middleware does with a request: lets it through,
    answers [{ error: 'Server configuration error' }] with status 500, or
    answers the invalid-signature response. *)
Inductive GateDecision : Type :=
| GateNext
| GateConfigurationError (status : nat) (error : string)
| GateInvalid (response : HttpResponse).

(** [verifyProviderSignature] and [verifyCasinoSignature]: the two differ in
    the header and the environment variable they read, which arrive here as
    [signature] and [secret], absent when undefined. *)
Definition verifySignatureMiddleware {Payload : Type} (c : Crypto Payload)
    (secret signature : option string) (body : Payload) : GateDecision :=
  match secret with
  | None => GateConfigurationError 500 "Server configuration error"
  | Some secret =>
      if falsy_str secret
      then GateConfigurationError 500 "Server configuration error"
      else if negb (verifySignature c (or_str signature "") body secret)
      then GateInvalid
             {| status := 401;
                body := ErrorBody "Invalid signature"
                          (Some "SIGNATURE_INVALID") |}
      else GateNext
  end.

(** What a gated endpoint answers. *)
Inductive GatedResponse : Type :=
| Answered (response : HttpResponse)
| ConfigurationError (status : nat) (error : string).

(** [router.post(path, verifyProviderSignature, handler)] for the debit,
    credit and rollback callbacks. *)
Definition gated_handle (c : Crypto Request) (secret signature : option string)
    (r : Request) (db : Db) : GatedResponse * Db :=
  match verifySignatureMiddleware c secret signature r with
  | GateNext => (Answered (fst (handle r db)), snd (handle r db))
  | GateConfigurationError st err => (ConfigurationError st err, db)
  | GateInvalid response => (Answered response, db)
  end.

(** A stand-in for the primitives, to run the gate on examples: the body is
    rendered by its transaction id, the digest joins secret and payload, and a
    buffer holds the characters of the string. *)
Definition sample_crypto : Crypto Request :=
  {| JSON_stringify :=
       fun r =>
         match r with
         | Debit q => debit_transactionId q
         | Credit q => credit_transactionId q
         | Rollback q => rollback_transactionId q
         end;
     hmac_sha256_hex := fun secret payload => String.append secret payload;
     Buffer_from_hex := list_ascii_of_string |}.

(** * Properties *)

(** ** Basic facts *)

Lemma Return_inv {A : Type} (a b : A) (d1 d2 : Db) :
  Return a d1 = Return b d2 -> a = b.
Proof. intros H. injection H. auto. Qed.

Lemma find_none_existsb (p : CasinoTransaction -> bool)
    (ts : list CasinoTransaction) :
  find p ts = None -> existsb p ts = false.
Proof.
  induction ts as [|t ts IH]; simpl; [reflexivity|].
  destruct (p t); [discriminate|]. exact IH.
Qed.

Lemma insert_transaction_fresh (t : CasinoTransaction) (db : Db) :
  find (has_external_id (external_transaction_id t)) (casino_transactions db)
    = None ->
  insert_transaction t db =
  Return tt (with_transactions db (casino_transactions db ++ [t])).
Proof.
  intros H. unfold insert_transaction.
  rewrite (find_none_existsb _ _ H). reflexivity.
Qed.

Lemma or_num_zero (b : Z) : or_num (Some b) 0 = b.
Proof. unfold or_num. destruct (Z.eqb_spec b 0); congruence. Qed.

Lemma set_playable_balance_same (w : CasinoWallet) :
  set_playable_balance w (playable_balance w) = w.
Proof. destruct w; reflexivity. Qed.

Lemma find_mark_rolled_back (externalId : string) (id : nat)
    (ts : list CasinoTransaction) :
  find (has_external_id externalId) (mark_rolled_back id ts) =
  flag_if id <$> find (has_external_id externalId) ts.
Proof.
  induction ts as [|t ts IH]; simpl; [reflexivity|].
  replace (has_external_id externalId (flag_if id t))
    with (has_external_id externalId t)
    by (unfold flag_if; destruct (Nat.eqb (txn_id t) id); reflexivity).
  destruct (has_external_id externalId t); [reflexivity|exact IH].
Qed.

Lemma set_playable_balance_same_twice (w : CasinoWallet) (b : Z) :
  set_playable_balance (set_playable_balance w b) (playable_balance w) = w.
Proof. destruct w; reflexivity. Qed.

(** ** Replays: a transaction id that is already in the ledger *)

(** A debit or a credit whose transaction id is in the ledger changes nothing
    in the store and answers with the wallet's balance at the time of the
    replay. *)
Lemma duplicate_result_spec (existing : CasinoTransaction) (db : Db) :
  duplicate_result existing db =
  Return {| res_transaction := Some existing;
            res_balance :=
              or_num (playable_balance <$> casino_wallets db !! wallet_id existing)
                (balance_after existing);
            res_currency :=
              or_str (currency_code <$> casino_wallets db !! wallet_id existing)
                "USD";
            isDuplicate := true |} db.
Proof. reflexivity. Qed.

Lemma processDebit_duplicate
    (sessionToken transactionId roundId : string) (a : Z) (db : Db)
    (existing : CasinoTransaction) :
  getTransactionByExternalId transactionId db = Return (Some existing) db ->
  processDebit sessionToken transactionId roundId a db =
  duplicate_result existing db.
Proof.
  intros H. unfold processDebit, bind. rewrite H. reflexivity.
Qed.

Lemma processCredit_duplicate
    (sessionToken transactionId roundId : string) (a : Z)
    (related : option string) (db : Db) (existing : CasinoTransaction) :
  getTransactionByExternalId transactionId db = Return (Some existing) db ->
  processCredit sessionToken transactionId roundId a related db =
  duplicate_result existing db.
Proof.
  intros H. unfold processCredit, bind. rewrite H. reflexivity.
Qed.

(** C10. A rollback whose own transaction id is the id of any ledger entry,
    whatever the kind of that entry, answers [rolledBack = true] with the
    already-processed message and the matched entry, and leaves the store as
    it was: no entry is created and no balance moves. *)
Theorem rollback_own_id_replay
    (sessionToken transactionId originalTransactionId : string)
    (reason : option string) (db : Db) (existing : CasinoTransaction) :
  getTransactionByExternalId transactionId db = Return (Some existing) db ->
  exists r : RollbackResult,
    processRollback sessionToken transactionId originalTransactionId reason db
      = Return r db
    /\ rb_transaction r = Some existing
    /\ rolledBack r = true
    /\ rb_message r = "Rollback already processed (idempotent response)".
Proof.
  intros H. unfold processRollback, bind. rewrite H.
  eexists. split; [reflexivity|]. simpl. auto.
Qed.

Lemma rollback_own_id_replay_witness :
  let db := run [debit_req "t1" 1000] (sample_db 10000) in
  exists r : RollbackResult,
    processRollback "tok" "t1" "t0" None db = Return r db
    /\ (transaction_type <$> rb_transaction r) = Some debit
    /\ rolledBack r = true.
Proof.
  destruct (rollback_own_id_replay "tok" "t1" "t0" None
              (run [debit_req "t1" 1000] (sample_db 10000))
              (debit_entry (sample_db 10000) sample_session
                 (sample_wallet 10000) "t1" 1000) eq_refl)
    as (r & Hrun & Ht & Hrb & _).
  exists r. split; [exact Hrun|]. split; [|exact Hrb].
  rewrite Ht. reflexivity.
Defined.

(** ** An accepted debit *)

Lemma processDebit_commits
    (sessionToken transactionId roundId : string) (a : Z) (db : Db)
    (session : CasinoGameSession) (w : CasinoWallet) :
  getTransactionByExternalId transactionId db = Return None db ->
  getSessionByToken sessionToken db = Return (Some session) db ->
  casino_wallets db !! session_wallet_id session = Some w ->
  0 < a -> a <= playable_balance w ->
  exists r : MoneyResult,
    processDebit sessionToken transactionId roundId a db =
    Return r
      (committed db (session_wallet_id session) w (playable_balance w - a)
         (casino_transactions db
            ++ [debit_entry db session w transactionId a]))
    /\ res_balance r = playable_balance w - a
    /\ res_currency r = currency_code w
    /\ isDuplicate r = false.
Proof.
  intros Hfresh Hsess Hw Ha Hfunds.
  unfold processDebit, bind. rewrite Hfresh, Hsess.
  destruct (Z.leb_spec a 0) as [|_]; [lia|].
  unfold transaction, bind, select_wallet_for_update. rewrite Hw.
  destruct (Z.ltb_spec (playable_balance w) a) as [|_]; [lia|].
  unfold update_playable_balance. rewrite Hw.
  destruct (Z.ltb_spec (playable_balance w - a) 0) as [|_]; [lia|].
  unfold uuidv4. rewrite insert_transaction_fresh.
  - eexists. split; [reflexivity|]. simpl. auto.
  - simpl. apply Return_inv in Hfresh. exact Hfresh.
Qed.

(** ** Every callback is a ledger step *)

Lemma insert_same_balance (ws : gmap string CasinoWallet) (walletId : string)
    (w : CasinoWallet) :
  ws !! walletId = Some w ->
  ws = <[walletId := set_playable_balance w (playable_balance w)]> ws.
Proof.
  intros H. rewrite set_playable_balance_same. symmetry.
  apply insert_id. exact H.
Qed.

Lemma marker_entry_balance (db : Db) (original : CasinoTransaction)
    (transactionId originalTransactionId : string) (w : CasinoWallet) :
  casino_wallets db !! wallet_id original = Some w ->
  balance_after (marker_entry db original transactionId originalTransactionId)
  = playable_balance w.
Proof.
  intros H. unfold marker_entry. simpl. rewrite H. apply or_num_zero.
Qed.

Lemma processDebit_step
    (sessionToken transactionId roundId : string) (a : Z) (db : Db) :
  ledger_step db
    (final_db (processDebit sessionToken transactionId roundId a db)).
Proof.
  unfold processDebit, bind, getTransactionByExternalId, getSessionByToken.
  destruct (find (has_external_id transactionId) (casino_transactions db))
    as [existing|] eqn:Hfresh.
  { apply step_unchanged. reflexivity. }
  destruct (find _ (casino_game_sessions db)) as [session|] eqn:Hsess;
    [|apply step_unchanged; reflexivity].
  destruct (Z.leb_spec a 0) as [|Ha]; [apply step_unchanged; reflexivity|].
  unfold transaction, bind, select_wallet_for_update.
  destruct (casino_wallets db !! session_wallet_id session) as [w|] eqn:Hw;
    [|apply step_unchanged; reflexivity].
  destruct (Z.ltb_spec (playable_balance w) a) as [|Hfunds];
    [apply step_unchanged; reflexivity|].
  unfold update_playable_balance. rewrite Hw.
  destruct (Z.ltb_spec (playable_balance w - a) 0) as [|Hnn];
    [apply step_unchanged; reflexivity|].
  unfold uuidv4. rewrite insert_transaction_fresh by exact Hfresh.
  simpl.
  apply (step_appended _ _ None (debit_entry db session w transactionId a) w).
  constructor; simpl; try reflexivity; try assumption; try lia;
    try discriminate.
Qed.

Lemma processCredit_step
    (sessionToken transactionId roundId : string) (a : Z)
    (related : option string) (db : Db) :
  ledger_step db
    (final_db (processCredit sessionToken transactionId roundId a related db)).
Proof.
  unfold processCredit, bind, getTransactionByExternalId, getSessionByToken.
  destruct (find (has_external_id transactionId) (casino_transactions db))
    as [existing|] eqn:Hfresh.
  { apply step_unchanged. reflexivity. }
  destruct (find _ (casino_game_sessions db)) as [session|] eqn:Hsess;
    [|apply step_unchanged; reflexivity].
  destruct (Z.ltb_spec a 0) as [|Ha]; [apply step_unchanged; reflexivity|].
  unfold transaction, bind, select_wallet_for_update.
  destruct (casino_wallets db !! session_wallet_id session) as [w|] eqn:Hw;
    [|apply step_unchanged; reflexivity].
  unfold update_playable_balance. rewrite Hw.
  destruct (Z.ltb_spec (playable_balance w + a) 0) as [|Hnn];
    [apply step_unchanged; reflexivity|].
  unfold uuidv4. rewrite insert_transaction_fresh by exact Hfresh.
  simpl.
  apply (step_appended _ _ None
           (credit_entry db session w transactionId a related) w).
  constructor; simpl; try reflexivity; try assumption; try lia;
    try discriminate.
Qed.

Lemma processRollback_step
    (sessionToken transactionId originalTransactionId : string)
    (reason : option string) (db : Db) :
  ledger_inv db ->
  ledger_step db
    (final_db
       (processRollback sessionToken transactionId originalTransactionId
          reason db)).
Proof.
  intros Hinv.
  unfold processRollback, bind, getTransactionByExternalId, getSessionByToken.
  destruct (find (has_external_id transactionId) (casino_transactions db))
    as [existing|] eqn:Hfresh.
  { apply step_unchanged. reflexivity. }
  destruct (find (has_external_id originalTransactionId)
              (casino_transactions db)) as [original|] eqn:Horig.
  - (* the original is in the ledger *)
    apply find_some in Horig as [Hin Hid].
    apply String.eqb_eq in Hid.
    destruct (inv_wallet db Hinv original Hin) as [w Hw].
    destruct (is_rollback original) eqn:Hflag;
      [apply step_unchanged; reflexivity|].
    unfold select_rollbacks_of.
    destruct (0 <? length _)%nat.
    + (* already-rolled-back marker *)
      unfold getWalletById, uuidv4.
      rewrite insert_transaction_fresh by exact Hfresh.
      simpl.
      apply (step_appended _ _ None
               (marker_entry db original transactionId originalTransactionId)
               w).
      pose proof (marker_entry_balance db original transactionId
                    originalTransactionId w Hw) as Hb.
      constructor; rewrite ?Hb; simpl; try reflexivity; try assumption;
        try lia; try discriminate.
      * apply insert_same_balance. exact Hw.
      * apply (inv_balances db Hinv _ _ Hw).
      * unfold signed_amount. simpl. lia.
      * intros _. split; [reflexivity|]. left. simpl. auto.
    + destruct (TransactionType_eqb (transaction_type original) credit)
        eqn:Hty; [apply step_unchanged; reflexivity|].
      unfold transaction, bind, select_wallet_for_update. rewrite Hw.
      unfold update_playable_balance. rewrite Hw.
      destruct (Z.ltb_spec (playable_balance w + amount original) 0)
        as [|Hnn]; [apply step_unchanged; reflexivity|].
      unfold update_is_rollback, uuidv4.
      rewrite insert_transaction_fresh
        by (simpl; rewrite find_mark_rolled_back, Hfresh; reflexivity).
      simpl.
      apply (step_appended _ _ (Some original)
               (rollback_entry db original w transactionId
                  originalTransactionId reason) w).
      assert (Hdebit : transaction_type original = debit).
      { pose proof (inv_rollback_flag db Hinv original Hin) as Hrb.
        destruct (transaction_type original); [reflexivity|discriminate|].
        rewrite Hrb in Hflag by reflexivity. discriminate. }
      constructor; simpl; try reflexivity; try assumption; try lia;
        try discriminate.
      * apply (inv_amount db Hinv _ Hin).
      * intros _. split; [reflexivity|]. right. exists original.
        simpl. rewrite <- Hid. auto.
      * split; [exact Hin|]. rewrite Hdebit. discriminate.
  - (* tombstone *)
    destruct (find _ (casino_game_sessions db)) as [session|] eqn:Hsess;
      [|apply step_unchanged; reflexivity].
    unfold getWalletById.
    destruct (casino_wallets db !! session_wallet_id session) as [w|] eqn:Hw;
      [|apply step_unchanged; reflexivity].
    unfold uuidv4. rewrite insert_transaction_fresh by exact Hfresh.
    simpl.
    apply (step_appended _ _ None
             (tombstone_entry db session w transactionId
                originalTransactionId) w).
    constructor; simpl; try reflexivity; try assumption; try lia;
      try discriminate.
    + apply insert_same_balance. exact Hw.
    + apply (inv_balances db Hinv _ _ Hw).
    + unfold signed_amount. simpl. lia.
    + intros _. split; [reflexivity|]. left. simpl. auto.
Qed.

Lemma debit_route_db (req : DebitRequest) (db : Db) :
  snd (debit_route req db) = db
  \/ exists a,
       snd (debit_route req db) =
       final_db (processDebit (debit_sessionToken req)
                   (debit_transactionId req) (debit_roundId req) a db).
Proof.
  unfold debit_route.
  destruct (debit_amount req) as [a|]; [|left; reflexivity].
  destruct (_ || _); [left; reflexivity|].
  right. exists a. destruct (processDebit _ _ _ _ _); reflexivity.
Qed.

Lemma credit_route_db (req : CreditRequest) (db : Db) :
  snd (credit_route req db) = db
  \/ exists a,
       snd (credit_route req db) =
       final_db (processCredit (credit_sessionToken req)
                   (credit_transactionId req) (credit_roundId req) a
                   (credit_relatedTransactionId req) db).
Proof.
  unfold credit_route.
  destruct (credit_amount req) as [a|]; [|left; reflexivity].
  destruct (_ || _); [left; reflexivity|].
  right. exists a. destruct (processCredit _ _ _ _ _ _); reflexivity.
Qed.

Lemma rollback_route_db (req : RollbackRequest) (db : Db) :
  snd (rollback_route req db) = db
  \/ snd (rollback_route req db) =
     final_db (processRollback (rollback_sessionToken req)
                 (rollback_transactionId req)
                 (rollback_originalTransactionId req)
                 (rollback_reason req) db).
Proof.
  unfold rollback_route.
  destruct (_ || _); [left; reflexivity|].
  right. destruct (processRollback _ _ _ _ _); reflexivity.
Qed.

Lemma handle_step (r : Request) (db : Db) :
  ledger_inv db -> ledger_step db (snd (handle r db)).
Proof.
  intros Hinv. destruct r as [req|req|req]; simpl.
  - destruct (debit_route_db req db) as [E|[a E]]; rewrite E.
    + apply step_unchanged. reflexivity.
    + apply processDebit_step.
  - destruct (credit_route_db req db) as [E|[a E]]; rewrite E.
    + apply step_unchanged. reflexivity.
    + apply processCredit_step.
  - destruct (rollback_route_db req db) as [E|E]; rewrite E.
    + apply step_unchanged. reflexivity.
    + apply processRollback_step. exact Hinv.
Qed.

(** ** Ledger steps keep the invariant *)

Lemma mark_rolled_back_flag (id : nat) (ts : list CasinoTransaction) :
  mark_rolled_back id ts = flag_if id <$> ts.
Proof. reflexivity. Qed.

Lemma flag_if_fields (id : nat) (t : CasinoTransaction) :
  txn_id (flag_if id t) = txn_id t
  /\ wallet_id (flag_if id t) = wallet_id t
  /\ transaction_type (flag_if id t) = transaction_type t
  /\ amount (flag_if id t) = amount t
  /\ balance_after (flag_if id t) = balance_after t.
Proof. unfold flag_if. destruct (Nat.eqb _ _); simpl; auto. Qed.

Lemma flag_if_record (id : nat) (t : CasinoTransaction) :
  external_transaction_id (flag_if id t) = external_transaction_id t
  /\ related_external_transaction_id (flag_if id t)
     = related_external_transaction_id t
  /\ response_cache (flag_if id t) = response_cache t.
Proof. unfold flag_if. destruct (Nat.eqb _ _); simpl; auto. Qed.

Lemma flag_if_is_rollback (id : nat) (t : CasinoTransaction) :
  is_rollback t = true -> is_rollback (flag_if id t) = true.
Proof. unfold flag_if. destruct (Nat.eqb _ _); simpl; auto. Qed.

Lemma flag_if_signed (id : nat) (t : CasinoTransaction) :
  signed_amount (flag_if id t) = signed_amount t.
Proof. unfold flag_if. destruct (Nat.eqb _ _); reflexivity. Qed.

Lemma in_mark_rolled_back (id : nat) (ts : list CasinoTransaction)
    (t' : CasinoTransaction) :
  In t' (mark_rolled_back id ts) ->
  exists t, In t ts /\ t' = flag_if id t.
Proof.
  unfold mark_rolled_back. intros H. apply in_map_iff in H as [t [E Hin]].
  exists t. split; [exact Hin|]. symmetry. exact E.
Qed.

Lemma on_wallet_mark (walletId : string) (id : nat)
    (ts : list CasinoTransaction) :
  on_wallet walletId (mark_rolled_back id ts) =
  mark_rolled_back id (on_wallet walletId ts).
Proof.
  induction ts as [|t ts IH]; simpl; [reflexivity|].
  fold (flag_if id t).
  destruct (flag_if_fields id t) as (_ & Hw & _). rewrite Hw.
  destruct (String.eqb (wallet_id t) walletId); simpl; rewrite IH;
    reflexivity.
Qed.

Lemma chained_mark (id : nat) (ts : list CasinoTransaction) :
  chained ts -> chained (mark_rolled_back id ts).
Proof.
  intros H i t1 t2. rewrite mark_rolled_back_flag, !list_lookup_fmap.
  destruct (ts !! i) as [a|] eqn:Ha; [|discriminate].
  destruct (ts !! S i) as [b|] eqn:Hb; [|discriminate].
  simpl. intros E1 E2. injection E1 as <-. injection E2 as <-.
  rewrite flag_if_signed.
  destruct (flag_if_fields id a) as (_ & _ & _ & _ & ->).
  destruct (flag_if_fields id b) as (_ & _ & _ & _ & ->).
  exact (H i a b Ha Hb).
Qed.

Lemma chained_snoc (ts : list CasinoTransaction) (t : CasinoTransaction) :
  chained ts ->
  (forall t1, last ts = Some t1 ->
     balance_after t = balance_after t1 + signed_amount t) ->
  chained (ts ++ [t]).
Proof.
  intros Hc Hlast i t1 t2 H1 H2.
  destruct (Nat.lt_ge_cases (S i) (length ts)) as [Hlt|Hge].
  - rewrite lookup_app_l in H1 by lia. rewrite lookup_app_l in H2 by lia.
    exact (Hc i t1 t2 H1 H2).
  - assert (Hi : (i < length ts)%nat).
    { apply lookup_lt_Some in H2. rewrite length_app in H2. simpl in H2.
      lia. }
    assert (Hlen : S i = length ts) by lia.
    rewrite lookup_app_l in H1 by lia.
    rewrite lookup_app_r in H2 by lia.
    rewrite Hlen, Nat.sub_diag in H2. simpl in H2. injection H2 as <-.
    apply Hlast. rewrite last_lookup.
    replace (Nat.pred (length ts)) with i by lia. exact H1.
Qed.

Lemma on_wallet_snoc (walletId : string) (ts : list CasinoTransaction)
    (t : CasinoTransaction) :
  on_wallet walletId (ts ++ [t]) =
  (on_wallet walletId ts
     ++ (if String.eqb (wallet_id t) walletId then [t] else []))%list.
Proof.
  unfold on_wallet. rewrite List.filter_app. simpl.
  destruct (String.eqb (wallet_id t) walletId); reflexivity.
Qed.

Lemma in_mark_rolled_back_flag (id : nat) (ts : list CasinoTransaction)
    (t : CasinoTransaction) :
  In t ts -> In (flag_if id t) (mark_rolled_back id ts).
Proof. intros H. unfold mark_rolled_back. apply in_map. exact H. Qed.

Lemma rollback_amount_ok_mark (id : nat) (ts : list CasinoTransaction)
    (t : CasinoTransaction) :
  rollback_amount_ok ts t ->
  rollback_amount_ok (mark_rolled_back id ts) t.
Proof.
  intros [H|(o & Hin & Hrel & Hty & Ham)]; [left; exact H|].
  right. exists (flag_if id o).
  destruct (flag_if_fields id o) as (_ & _ & -> & -> & _).
  destruct (flag_if_record id o) as (-> & _).
  split; [apply in_mark_rolled_back_flag; exact Hin|]. auto.
Qed.

Lemma rollback_amount_ok_flag (id : nat) (ts : list CasinoTransaction)
    (t : CasinoTransaction) :
  rollback_amount_ok ts t -> rollback_amount_ok ts (flag_if id t).
Proof.
  unfold rollback_amount_ok.
  destruct (flag_if_fields id t) as (_ & _ & _ & -> & _).
  destruct (flag_if_record id t) as (_ & -> & ->). auto.
Qed.

Lemma rollback_amount_ok_snoc (ts : list CasinoTransaction)
    (t t' : CasinoTransaction) :
  rollback_amount_ok ts t -> rollback_amount_ok (ts ++ [t']) t.
Proof.
  intros [H|(o & Hin & H)]; [left; exact H|].
  right. exists o. split; [|exact H]. apply in_app_iff. left. exact Hin.
Qed.

Lemma mark_preserves_inv (db : Db) (o : CasinoTransaction) :
  ledger_inv db ->
  In o (casino_transactions db) ->
  transaction_type o <> credit ->
  ledger_inv
    (with_transactions db
       (mark_rolled_back (txn_id o) (casino_transactions db))).
Proof.
  intros Hinv Ho Hty. constructor; simpl.
  - exact (inv_balances db Hinv).
  - intros t' Hin. apply in_mark_rolled_back in Hin as [t [Hin ->]].
    destruct (flag_if_fields (txn_id o) t) as (-> & _).
    exact (inv_ids_lt db Hinv t Hin).
  - intros t1' t2' H1 H2 E.
    apply in_mark_rolled_back in H1 as [t1 [H1 ->]].
    apply in_mark_rolled_back in H2 as [t2 [H2 ->]].
    destruct (flag_if_fields (txn_id o) t1) as (E1 & _).
    destruct (flag_if_fields (txn_id o) t2) as (E2 & _).
    rewrite E1, E2 in E.
    rewrite (inv_ids_key db Hinv t1 t2 H1 H2 E). reflexivity.
  - intros t' Hin Hc. apply in_mark_rolled_back in Hin as [t [Hin ->]].
    unfold flag_if in *.
    destruct (Nat.eqb_spec (txn_id t) (txn_id o)) as [E|_].
    + rewrite (inv_ids_key db Hinv t o Hin Ho E) in Hc. simpl in Hc.
      contradiction.
    + exact (inv_credit db Hinv t Hin Hc).
  - intros t' Hin Hr. apply in_mark_rolled_back in Hin as [t [Hin ->]].
    destruct (flag_if_fields (txn_id o) t) as (_ & _ & Et & _).
    rewrite Et in Hr. apply flag_if_is_rollback.
    exact (inv_rollback_flag db Hinv t Hin Hr).
  - intros t' Hin Hr. apply in_mark_rolled_back in Hin as [t [Hin ->]].
    destruct (flag_if_fields (txn_id o) t) as (_ & _ & Et & _).
    rewrite Et in Hr. apply rollback_amount_ok_mark, rollback_amount_ok_flag.
    exact (inv_rollback_amount db Hinv t Hin Hr).
  - intros t' Hin. apply in_mark_rolled_back in Hin as [t [Hin ->]].
    destruct (flag_if_fields (txn_id o) t) as (_ & -> & _).
    exact (inv_wallet db Hinv t Hin).
  - intros t' Hin. apply in_mark_rolled_back in Hin as [t [Hin ->]].
    destruct (flag_if_fields (txn_id o) t) as (_ & _ & _ & -> & _).
    exact (inv_amount db Hinv t Hin).
  - intros walletId w t' Hw Hlast.
    rewrite on_wallet_mark, mark_rolled_back_flag, fmap_last in Hlast.
    destruct (last (on_wallet walletId (casino_transactions db)))
      as [t|] eqn:Hl; [|discriminate].
    simpl in Hlast. injection Hlast as <-.
    destruct (flag_if_fields (txn_id o) t) as (_ & _ & _ & _ & ->).
    exact (inv_last db Hinv walletId w t Hw Hl).
  - intros walletId. rewrite on_wallet_mark. apply chained_mark.
    exact (inv_chain db Hinv walletId).
Qed.

Lemma append_preserves_inv (db db' : Db) (t : CasinoTransaction)
    (w : CasinoWallet) :
  ledger_inv db -> appended db db' None t w -> ledger_inv db'.
Proof.
  intros Hinv
    [Hw Hws Hss Hts Hnext Hid Hfresh Hnn Ham Hbal Hcr Hrb _].
  constructor.
  - intros walletId w' Hl. rewrite Hws in Hl.
    apply lookup_insert_Some in Hl as [[_ <-]|[_ Hl]].
    + simpl. exact Hnn.
    + exact (inv_balances db Hinv _ _ Hl).
  - intros t' Hin. rewrite Hts in Hin. rewrite Hnext.
    apply in_app_iff in Hin as [Hin|[<-|[]]].
    + pose proof (inv_ids_lt db Hinv t' Hin). lia.
    + lia.
  - intros t1 t2 H1 H2 E. rewrite Hts in H1, H2.
    apply in_app_iff in H1 as [H1|[<-|[]]];
      apply in_app_iff in H2 as [H2|[<-|[]]].
    + exact (inv_ids_key db Hinv t1 t2 H1 H2 E).
    + pose proof (inv_ids_lt db Hinv t1 H1). lia.
    + pose proof (inv_ids_lt db Hinv t2 H2). lia.
    + reflexivity.
  - intros t' Hin Hc. rewrite Hts in Hin.
    apply in_app_iff in Hin as [Hin|[<-|[]]].
    + exact (inv_credit db Hinv t' Hin Hc).
    + exact (Hcr Hc).
  - intros t' Hin Hr. rewrite Hts in Hin.
    apply in_app_iff in Hin as [Hin|[<-|[]]].
    + exact (inv_rollback_flag db Hinv t' Hin Hr).
    + exact (proj1 (Hrb Hr)).
  - intros t' Hin Hr. rewrite Hts in Hin |- *.
    apply rollback_amount_ok_snoc.
    apply in_app_iff in Hin as [Hin|[<-|[]]].
    + exact (inv_rollback_amount db Hinv t' Hin Hr).
    + exact (proj2 (Hrb Hr)).
  - intros t' Hin. rewrite Hts in Hin. rewrite Hws.
    apply lookup_insert_is_Some'.
    apply in_app_iff in Hin as [Hin|[<-|[]]].
    + right. exact (inv_wallet db Hinv t' Hin).
    + left. reflexivity.
  - intros t' Hin. rewrite Hts in Hin.
    apply in_app_iff in Hin as [Hin|[<-|[]]].
    + exact (inv_amount db Hinv t' Hin).
    + exact Ham.
  - intros walletId w' t' Hl Hlast. rewrite Hts, on_wallet_snoc in Hlast.
    rewrite Hws in Hl.
    destruct (String.eqb_spec (wallet_id t) walletId) as [E|NE].
    + rewrite last_snoc in Hlast. injection Hlast as <-.
      rewrite E, lookup_insert_eq in Hl. injection Hl as <-. reflexivity.
    + rewrite app_nil_r in Hlast.
      rewrite lookup_insert_ne in Hl by exact NE.
      exact (inv_last db Hinv walletId w' t' Hl Hlast).
  - intros walletId. rewrite Hts, on_wallet_snoc.
    destruct (String.eqb_spec (wallet_id t) walletId) as [E|NE].
    + apply chained_snoc; [exact (inv_chain db Hinv walletId)|].
      intros t1 Hl. rewrite <- E in Hl.
      rewrite (inv_last db Hinv (wallet_id t) w t1 Hw Hl). exact Hbal.
    + rewrite app_nil_r. exact (inv_chain db Hinv walletId).
Qed.

Lemma appended_after_mark (db db' : Db) (o t : CasinoTransaction)
    (w : CasinoWallet) :
  appended db db' (Some o) t w ->
  appended
    (with_transactions db
       (mark_rolled_back (txn_id o) (casino_transactions db)))
    db' None t w.
Proof.
  intros [Hw Hws Hss Hts Hnext Hid Hfresh Hnn Ham Hbal Hcr Hrb Ho].
  constructor; simpl; try assumption.
  - rewrite find_mark_rolled_back, Hfresh. reflexivity.
  - intros Hr. destruct (Hrb Hr) as [Hf Hok].
    split; [exact Hf|]. apply rollback_amount_ok_mark. exact Hok.
  - exact I.
Qed.

Lemma step_preserves_inv (db db' : Db) :
  ledger_inv db -> ledger_step db db' -> ledger_inv db'.
Proof.
  intros Hinv [->|orig t w Happ]; [exact Hinv|].
  destruct orig as [o|].
  - destruct (app_orig _ _ _ _ _ Happ) as [Ho Hty].
    apply (append_preserves_inv _ db' t w
             (mark_preserves_inv db o Hinv Ho Hty)).
    apply appended_after_mark. exact Happ.
  - exact (append_preserves_inv db db' t w Hinv Happ).
Qed.

Lemma initial_inv (db : Db) : initial db -> ledger_inv db.
Proof.
  intros [Hl Hb]. constructor; try exact Hb; rewrite Hl; simpl;
    try contradiction.
  - intros walletId w t _ H. discriminate H.
  - intros walletId i t1 t2 H. discriminate H.
Qed.

Lemma run_snoc (rs : list Request) (r : Request) (db : Db) :
  run (rs ++ [r]) db = snd (handle r (run rs db)).
Proof. unfold run. rewrite fold_left_app. reflexivity. Qed.

Lemma run_preserves_inv (rs : list Request) (db : Db) :
  ledger_inv db -> ledger_inv (run rs db).
Proof.
  revert db. induction rs as [|r rs IH]; intros db Hinv; [exact Hinv|].
  simpl. apply IH. apply (step_preserves_inv db); [exact Hinv|].
  apply handle_step. exact Hinv.
Qed.

Lemma reachable_inv (db : Db) : reachable db -> ledger_inv db.
Proof.
  intros (db0 & rs & Hinit & <-).
  apply run_preserves_inv, initial_inv. exact Hinit.
Qed.

(** ** Debit *)

(** C5. A debit with a fresh transaction id, an active session and an amount
    above the wallet's playable balance is refused with [INSUFFICIENT_FUNDS],
    which the error handler answers with HTTP status 400; the store is left as
    it was, so the balance is unchanged and no entry exists for the
    transaction id. *)
Theorem debit_insufficient_funds
    (sessionToken transactionId roundId : string) (a : Z) (db : Db)
    (session : CasinoGameSession) (w : CasinoWallet) :
  getTransactionByExternalId transactionId db = Return None db ->
  getSessionByToken sessionToken db = Return (Some session) db ->
  casino_wallets db !! session_wallet_id session = Some w ->
  0 <= playable_balance w ->
  playable_balance w < a ->
  processDebit sessionToken transactionId roundId a db =
    Throw (CasinoError "Insufficient funds" ErrorCodes.INSUFFICIENT_FUNDS 400)
      db
  /\ errorHandler
       (CasinoError "Insufficient funds" ErrorCodes.INSUFFICIENT_FUNDS 400) =
     {| status := 400;
        body := ErrorBody "Insufficient funds" (Some "INSUFFICIENT_FUNDS") |}.
Proof.
  intros Hfresh Hsess Hw Hnn Hlt. split; [|reflexivity].
  unfold processDebit, bind. rewrite Hfresh, Hsess.
  destruct (Z.leb_spec a 0) as [|_]; [lia|].
  unfold transaction, bind, select_wallet_for_update. rewrite Hw.
  destruct (Z.ltb_spec (playable_balance w) a) as [_|]; [reflexivity|lia].
Qed.

Lemma debit_insufficient_funds_witness :
  playable_balance (sample_wallet 500) < 1000
  /\ processDebit "tok" "t1" "round1" 1000 (sample_db 500) =
     Throw (CasinoError "Insufficient funds" ErrorCodes.INSUFFICIENT_FUNDS 400)
       (sample_db 500).
Proof.
  split; [reflexivity|].
  apply (debit_insufficient_funds "tok" "t1" "round1" 1000 (sample_db 500)
           sample_session (sample_wallet 500));
    [reflexivity | reflexivity | reflexivity | discriminate | reflexivity].
Defined.

(** The same refusal as the provider sees it on [POST /casino/debit]. *)
Lemma debit_route_insufficient_funds (req : DebitRequest) (a : Z) (db : Db)
    (session : CasinoGameSession) (w : CasinoWallet) :
  debit_amount req = Some a ->
  falsy_str (debit_sessionToken req) = false ->
  falsy_str (debit_transactionId req) = false ->
  falsy_str (debit_roundId req) = false ->
  getTransactionByExternalId (debit_transactionId req) db = Return None db ->
  getSessionByToken (debit_sessionToken req) db = Return (Some session) db ->
  casino_wallets db !! session_wallet_id session = Some w ->
  0 <= playable_balance w ->
  playable_balance w < a ->
  debit_route req db =
  ({| status := 400;
      body := ErrorBody "Insufficient funds" (Some "INSUFFICIENT_FUNDS") |},
   db).
Proof.
  intros Ha H1 H2 H3 Hfresh Hsess Hw Hnn Hlt.
  unfold debit_route. rewrite Ha, H1, H2, H3. simpl.
  unfold processDebit, bind. rewrite Hfresh, Hsess.
  destruct (Z.leb_spec a 0) as [|_]; [lia|].
  unfold transaction, bind, select_wallet_for_update. rewrite Hw.
  destruct (Z.ltb_spec (playable_balance w) a) as [_|]; [reflexivity|lia].
Qed.

Lemma filter_find_none (p : CasinoTransaction -> bool)
    (ts : list CasinoTransaction) :
  find p ts = None -> List.filter p ts = [].
Proof.
  induction ts as [|t ts IH]; simpl; [reflexivity|].
  destruct (p t); [discriminate|exact IH].
Qed.


Lemma find_snoc_fresh (externalId : string) (ts : list CasinoTransaction)
    (t : CasinoTransaction) :
  find (has_external_id externalId) ts = None ->
  external_transaction_id t = externalId ->
  find (has_external_id externalId) (ts ++ [t]) = Some t.
Proof.
  intros Hnone E. induction ts as [|t0 ts IH]; simpl in *.
  - unfold has_external_id. rewrite E, String.eqb_refl. reflexivity.
  - destruct (has_external_id externalId t0); [discriminate|].
    apply IH. exact Hnone.
Qed.

(** C9. Two debits in a row with the same transaction id, the first of which
    is accepted (fresh id, active session, positive amount within the
    balance): the first returns as a new transaction, moves the balance down
    by its amount and appends one entry; the second, whatever its other
    fields, returns as a duplicate carrying that entry and the same balance,
    and leaves the store exactly as the first left it, so the ledger holds
    exactly one entry for the id. *)
Theorem debit_twice_moves_balance_once
    (sessionToken transactionId roundId : string) (a : Z)
    (sessionToken2 roundId2 : string) (a2 : Z) (db : Db)
    (session : CasinoGameSession) (w : CasinoWallet) :
  getTransactionByExternalId transactionId db = Return None db ->
  getSessionByToken sessionToken db = Return (Some session) db ->
  casino_wallets db !! session_wallet_id session = Some w ->
  0 < a -> a <= playable_balance w ->
  let db1 :=
    final_db (processDebit sessionToken transactionId roundId a db) in
  let db2 :=
    final_db (processDebit sessionToken2 transactionId roundId2 a2 db1) in
  db1 =
    committed db (session_wallet_id session) w (playable_balance w - a)
      (casino_transactions db ++ [debit_entry db session w transactionId a])
  /\ db2 = db1
  /\ casino_wallets db2 !! session_wallet_id session =
     Some (set_playable_balance w (playable_balance w - a))
  /\ List.filter (has_external_id transactionId) (casino_transactions db2) =
     [debit_entry db session w transactionId a]
  /\ (exists r1 : MoneyResult,
        processDebit sessionToken transactionId roundId a db = Return r1 db1
        /\ isDuplicate r1 = false
        /\ res_balance r1 = playable_balance w - a)
  /\ (exists r2 : MoneyResult,
        processDebit sessionToken2 transactionId roundId2 a2 db1
        = Return r2 db1
        /\ isDuplicate r2 = true
        /\ res_transaction r2 =
           Some (debit_entry db session w transactionId a)
        /\ res_balance r2 = playable_balance w - a).
Proof.
  intros Hfresh Hsess Hw Ha Hfunds db1 db2.
  destruct (processDebit_commits sessionToken transactionId roundId a db
              session w Hfresh Hsess Hw Ha Hfunds)
    as (r & Hrun & Hbal & _ & Hnew).
  assert (E1 : db1 =
    committed db (session_wallet_id session) w (playable_balance w - a)
      (casino_transactions db ++ [debit_entry db session w transactionId a])).
  { unfold db1. rewrite Hrun. reflexivity. }
  apply Return_inv in Hfresh.
  assert (Hfound :
    getTransactionByExternalId transactionId db1 =
    Return (Some (debit_entry db session w transactionId a)) db1).
  { unfold getTransactionByExternalId. rewrite E1. simpl.
    rewrite (find_snoc_fresh transactionId _
               (debit_entry db session w transactionId a) Hfresh eq_refl).
    reflexivity. }
  pose proof (processDebit_duplicate sessionToken2 transactionId roundId2 a2
                db1 _ Hfound) as Hdup.
  rewrite duplicate_result_spec in Hdup.
  assert (E2 : db2 = db1) by (unfold db2; rewrite Hdup; reflexivity).
  assert (Hw1 : casino_wallets db1 !! session_wallet_id session =
                Some (set_playable_balance w (playable_balance w - a))).
  { rewrite E1. simpl. apply lookup_insert_eq. }
  split; [exact E1|]. split; [exact E2|]. rewrite E2.
  split; [exact Hw1|]. split; [|split].
  - rewrite E1. simpl.
    rewrite List.filter_app, (filter_find_none _ _ Hfresh). simpl.
    unfold has_external_id. simpl. rewrite String.eqb_refl. reflexivity.
  - exists r. split; [rewrite E1; exact Hrun|]. split; assumption.
  - eexists. split; [exact Hdup|]. simpl.
    split; [reflexivity|]. split; [reflexivity|].
    change (wallet_id (debit_entry db session w transactionId a))
      with (session_wallet_id session).
    rewrite Hw1. simpl.
    destruct (playable_balance w - a =? 0); reflexivity.
Qed.

Lemma debit_twice_moves_balance_once_witness :
  let db1 := final_db (processDebit "tok" "tid" "round1" 500 (sample_db 10000))
  in
  let db2 := final_db (processDebit "tok" "tid" "round1" 500 db1) in
  db2 = db1
  /\ casino_wallets db2 !! "w1" = Some (sample_wallet 9500)
  /\ length (casino_transactions db2) = 1%nat
  /\ exists r2 : MoneyResult,
       processDebit "tok" "tid" "round1" 500 db1 = Return r2 db1
       /\ isDuplicate r2 = true
       /\ res_balance r2 = 9500.
Proof.
  destruct (debit_twice_moves_balance_once "tok" "tid" "round1" 500
              "tok" "round1" 500 (sample_db 10000) sample_session
              (sample_wallet 10000))
    as (_ & E & Hw & _ & _ & (r2 & Hrun2 & Hdup & _ & Hbal));
    [reflexivity | reflexivity | reflexivity | reflexivity | discriminate |].
  split; [exact E|]. split; [exact Hw|]. split; [reflexivity|].
  exists r2. split; [exact Hrun2|]. split; [exact Hdup|exact Hbal].
Defined.

(** ** Rollback *)

(** C6. A rollback with a fresh own transaction id, an active session and an
    original id that matches no ledger entry records a tombstone: one
    rollback entry of amount 0 with [is_rollback = true], the wallet's
    current balance as [balance_after] and [tombstone: true] in its response
    cache.  No wallet changes and the answer is [rolledBack = true]. *)
Theorem rollback_unknown_original_tombstone
    (sessionToken transactionId originalTransactionId : string)
    (reason : option string) (db : Db) (session : CasinoGameSession)
    (w : CasinoWallet) :
  getTransactionByExternalId transactionId db = Return None db ->
  getTransactionByExternalId originalTransactionId db = Return None db ->
  getSessionByToken sessionToken db = Return (Some session) db ->
  casino_wallets db !! session_wallet_id session = Some w ->
  let t :=
    tombstone_entry db session w transactionId originalTransactionId in
  processRollback sessionToken transactionId originalTransactionId reason db =
    Return
      {| rb_transaction := None;
         rb_balance := playable_balance w;
         rb_currency := currency_code w;
         rolledBack := true;
         rb_message :=
           "Tombstone recorded - original transaction not found, no balance change" |}
      (recorded db (casino_transactions db ++ [t]))
  /\ casino_wallets (recorded db (casino_transactions db ++ [t])) =
     casino_wallets db
  /\ transaction_type t = rollback
  /\ amount t = 0
  /\ is_rollback t = true
  /\ balance_after t = playable_balance w
  /\ response_cache t =
     Some (CacheTombstone true "Original transaction not found").
Proof.
  intros Hfresh Horig Hsess Hw t.
  split; [|simpl; auto 10].
  unfold processRollback, bind. rewrite Hfresh, Horig, Hsess.
  unfold getWalletById. rewrite Hw.
  unfold uuidv4. apply Return_inv in Hfresh.
  rewrite insert_transaction_fresh by exact Hfresh.
  reflexivity.
Qed.

Lemma rollback_unknown_original_tombstone_witness :
  processRollback "tok" "r9" "ghost" None (sample_db 10000) =
  Return
    {| rb_transaction := None;
       rb_balance := 10000;
       rb_currency := "USD";
       rolledBack := true;
       rb_message :=
         "Tombstone recorded - original transaction not found, no balance change" |}
    (recorded (sample_db 10000)
       [tombstone_entry (sample_db 10000) sample_session
          (sample_wallet 10000) "r9" "ghost"]).
Proof.
  apply (rollback_unknown_original_tombstone "tok" "r9" "ghost" None
           (sample_db 10000) sample_session (sample_wallet 10000));
    reflexivity.
Defined.

(** The path of [processRollback] that reverses a debit. *)
Lemma processRollback_reverses
    (sessionToken transactionId originalTransactionId : string)
    (reason : option string) (db : Db) (original : CasinoTransaction)
    (w : CasinoWallet) :
  getTransactionByExternalId transactionId db = Return None db ->
  getTransactionByExternalId originalTransactionId db =
    Return (Some original) db ->
  transaction_type original = debit ->
  is_rollback original = false ->
  select_rollbacks_of originalTransactionId db = Return [] db ->
  casino_wallets db !! wallet_id original = Some w ->
  0 <= playable_balance w + amount original ->
  exists r : RollbackResult,
    processRollback sessionToken transactionId originalTransactionId reason db
    = Return r
        (committed db (wallet_id original) w
           (playable_balance w + amount original)
           (mark_rolled_back (txn_id original) (casino_transactions db)
              ++ [rollback_entry db original w transactionId
                    originalTransactionId reason]))
    /\ rolledBack r = true
    /\ rb_balance r = playable_balance w + amount original
    /\ rb_message r = "Transaction successfully rolled back".
Proof.
  intros Hfresh Horig Hty Hflag Hnone Hw Hnn.
  unfold processRollback, bind. rewrite Hfresh, Horig, Hflag, Hnone, Hty.
  simpl. unfold transaction, bind, select_wallet_for_update. rewrite Hw.
  unfold update_playable_balance. rewrite Hw.
  destruct (Z.ltb_spec (playable_balance w + amount original) 0) as [|_];
    [lia|].
  unfold update_is_rollback, uuidv4. apply Return_inv in Hfresh.
  rewrite insert_transaction_fresh
    by (simpl; rewrite find_mark_rolled_back, Hfresh; reflexivity).
  eexists. split; [reflexivity|]. simpl. auto.
Qed.




(** A debit followed at once by its rollback: the wallets are back to what
    they were before the debit. *)
Lemma debit_then_rollback_restores
    (sessionToken transactionId roundId : string) (a : Z)
    (sessionToken' rollbackId : string) (reason : option string) (db : Db)
    (session : CasinoGameSession) (w : CasinoWallet) :
  getTransactionByExternalId transactionId db = Return None db ->
  getTransactionByExternalId rollbackId db = Return None db ->
  rollbackId <> transactionId ->
  select_rollbacks_of transactionId db = Return [] db ->
  getSessionByToken sessionToken db = Return (Some session) db ->
  casino_wallets db !! session_wallet_id session = Some w ->
  0 < a -> a <= playable_balance w ->
  let db1 :=
    final_db (processDebit sessionToken transactionId roundId a db) in
  let db2 :=
    final_db (processRollback sessionToken' rollbackId transactionId reason
                db1) in
  casino_wallets db1 !! session_wallet_id session =
    Some (set_playable_balance w (playable_balance w - a))
  /\ casino_wallets db2 = casino_wallets db.
Proof.
  intros Hfresh Hrfresh Hne Hnone Hsess Hw Ha Hfunds db1 db2.
  destruct (processDebit_commits sessionToken transactionId roundId a db
              session w Hfresh Hsess Hw Ha Hfunds) as (r & Hrun & _).
  set (t := debit_entry db session w transactionId a) in *.
  assert (E1 : db1 =
    committed db (session_wallet_id session) w (playable_balance w - a)
      (casino_transactions db ++ [t])).
  { unfold db1. rewrite Hrun. reflexivity. }
  apply Return_inv in Hfresh. apply Return_inv in Hrfresh.
  apply Return_inv in Hnone.
  assert (Hw1 : casino_wallets db1 !! wallet_id t =
                Some (set_playable_balance w (playable_balance w - a))).
  { rewrite E1. simpl. apply lookup_insert_eq. }
  split; [exact Hw1|].
  destruct (processRollback_reverses sessionToken' rollbackId transactionId
              reason db1 t
              (set_playable_balance w (playable_balance w - a)))
    as (r2 & Hrun2 & _); try reflexivity; try exact Hw1.
  - unfold getTransactionByExternalId. f_equal. rewrite E1. simpl.
    clear -Hrfresh Hne. induction (casino_transactions db) as [|x l IH];
      simpl in *.
    + unfold has_external_id. simpl.
      destruct (String.eqb_spec transactionId rollbackId);
        [congruence|reflexivity].
    + destruct (has_external_id rollbackId x); [discriminate|auto].
  - unfold getTransactionByExternalId. f_equal. rewrite E1. simpl.
    apply (find_snoc_fresh transactionId _ t Hfresh eq_refl).
  - unfold select_rollbacks_of. f_equal. rewrite E1. simpl.
    rewrite List.filter_app, Hnone. reflexivity.
  - simpl. lia.
  - unfold db2. rewrite Hrun2. simpl. rewrite E1. simpl.
    rewrite insert_insert_eq.
    replace (playable_balance w - a + a) with (playable_balance w) by lia.
    rewrite set_playable_balance_same_twice. apply insert_id. exact Hw.
Qed.

Lemma sample_db_initial (b : Z) : 0 <= b -> initial (sample_db b).
Proof.
  intros Hb. split; [reflexivity|].
  intros walletId w H. unfold sample_db in H. simpl in H.
  apply lookup_singleton_Some in H as [_ <-]. exact Hb.
Qed.

(** C7. In a store the callbacks have produced, a rollback with a fresh own
    transaction id whose original is a credit that no rollback entry refers
    to is refused with [CANNOT_ROLLBACK_PAYOUT], which the error handler
    answers with HTTP status 400; the store is left as it was: no entry is
    created and no balance moves. *)
Theorem rollback_of_credit_rejected
    (sessionToken transactionId originalTransactionId : string)
    (reason : option string) (db : Db) (original : CasinoTransaction) :
  reachable db ->
  getTransactionByExternalId transactionId db = Return None db ->
  getTransactionByExternalId originalTransactionId db =
    Return (Some original) db ->
  transaction_type original = credit ->
  select_rollbacks_of originalTransactionId db = Return [] db ->
  processRollback sessionToken transactionId originalTransactionId reason db =
    Throw (CasinoError "Payouts/credits cannot be rolled back"
             ErrorCodes.CANNOT_ROLLBACK_PAYOUT 400) db
  /\ errorHandler
       (CasinoError "Payouts/credits cannot be rolled back"
          ErrorCodes.CANNOT_ROLLBACK_PAYOUT 400) =
     {| status := 400;
        body := ErrorBody "Payouts/credits cannot be rolled back"
                  (Some "CANNOT_ROLLBACK_PAYOUT") |}.
Proof.
  intros Hreach Hfresh Horig Hty Hnone. split; [|reflexivity].
  pose proof (reachable_inv db Hreach) as Hinv.
  assert (Hflag : is_rollback original = false).
  { apply (inv_credit db Hinv); [|exact Hty].
    apply Return_inv in Horig. apply find_some in Horig as [Hin _].
    exact Hin. }
  unfold processRollback, bind.
  rewrite Hfresh, Horig, Hflag, Hnone, Hty. reflexivity.
Qed.

Lemma rollback_of_credit_rejected_witness :
  let db :=
    run [debit_req "t1" 1000; credit_req "t2" 2500 (Some "t1")]
      (sample_db 10000) in
  processRollback "tok" "r1" "t2" None db =
  Throw (CasinoError "Payouts/credits cannot be rolled back"
           ErrorCodes.CANNOT_ROLLBACK_PAYOUT 400) db.
Proof.
  apply (rollback_of_credit_rejected "tok" "r1" "t2" None
           (run [debit_req "t1" 1000; credit_req "t2" 2500 (Some "t1")]
              (sample_db 10000))
           (credit_entry
              (run [debit_req "t1" 1000] (sample_db 10000))
              sample_session (sample_wallet 9000) "t2" 2500 (Some "t1")));
    [|reflexivity|reflexivity|reflexivity|reflexivity].
  exists (sample_db 10000),
    [debit_req "t1" 1000; credit_req "t2" 2500 (Some "t1")].
  split; [apply sample_db_initial; discriminate|reflexivity].
Defined.

(** ** Invariants of the ledger *)

(** C3. From a store with an empty ledger and non-negative balances, after
    any sequence of debit, credit and rollback requests every wallet has a
    non-negative playable balance. *)
Theorem playable_balance_never_negative
    (db0 : Db) (rs : list Request) (walletId : string) (w : CasinoWallet) :
  initial db0 ->
  casino_wallets (run rs db0) !! walletId = Some w ->
  0 <= playable_balance w.
Proof.
  intros Hinit Hw.
  apply (inv_balances _ (run_preserves_inv rs db0 (initial_inv db0 Hinit))
           walletId w Hw).
Qed.

Lemma playable_balance_never_negative_witness :
  casino_wallets
    (run [debit_req "t1" 6000; debit_req "t2" 6000; rollback_req "r1" "t1";
          credit_req "c1" 50 None] (sample_db 10000)) !! "w1"
  = Some (sample_wallet 10050)
  /\ 0 <= playable_balance (sample_wallet 10050).
Proof.
  split; [reflexivity|].
  apply (playable_balance_never_negative (sample_db 10000)
           [debit_req "t1" 6000; debit_req "t2" 6000; rollback_req "r1" "t1";
            credit_req "c1" 50 None] "w1" (sample_wallet 10050));
    [apply sample_db_initial; discriminate|reflexivity].
Defined.



(** ** Where the service departs from its documented behaviour *)

(** A replayed debit or credit answers with the wallet's balance at the time
    of the replay, whatever [response_cache] holds. *)
Lemma replay_balance_is_live (existing : CasinoTransaction) (db : Db)
    (w : CasinoWallet) :
  casino_wallets db !! wallet_id existing = Some w ->
  playable_balance w <> 0 ->
  exists r : MoneyResult,
    duplicate_result existing db = Return r db
    /\ res_balance r = playable_balance w.
Proof.
  intros Hw Hnz. rewrite duplicate_result_spec. eexists.
  split; [reflexivity|]. simpl. rewrite Hw. simpl.
  destruct (Z.eqb_spec (playable_balance w) 0); [contradiction|reflexivity].
Qed.

(** C1. Debit [t1] of 500 on a balance of 10000, then debit [t2] of 1000,
    then [t1] again: the entry of [t1] caches the response with balance 9500,
    but the replay answers 8500, the balance of the wallet at replay time.
    The same holds for a credit replayed after another movement.  Neither
    replay changes the store. *)
Theorem replay_answers_live_balance_not_cache :
  let db := sample_db 10000 in
  let debits := [debit_req "t1" 500; debit_req "t2" 1000; debit_req "t1" 500] in
  let credits :=
    [credit_req "c1" 200 None; debit_req "t2" 1000; credit_req "c1" 200 None]
  in
  responses debits db =
    [ {| status := 200; body := MoneyBody true "t1" 9500 "USD" |};
      {| status := 200; body := MoneyBody true "t2" 8500 "USD" |};
      {| status := 200; body := MoneyBody true "t1" 8500 "USD" |} ]
  /\ (response_cache
        <$> find (has_external_id "t1") (casino_transactions (run debits db)))
     = Some (Some (CacheMoney true "t1" 9500 "USD"))
  /\ run debits db = run [debit_req "t1" 500; debit_req "t2" 1000] db
  /\ responses credits db =
    [ {| status := 200; body := MoneyBody true "c1" 10200 "USD" |};
      {| status := 200; body := MoneyBody true "t2" 9200 "USD" |};
      {| status := 200; body := MoneyBody true "c1" 9200 "USD" |} ]
  /\ (response_cache
        <$> find (has_external_id "c1") (casino_transactions (run credits db)))
     = Some (Some (CacheMoney true "c1" 10200 "USD"))
  /\ run credits db = run [credit_req "c1" 200 None; debit_req "t2" 1000] db.
Proof. repeat split; reflexivity. Qed.

(** A rollback (fresh own id) of an entry whose [is_rollback] flag is set is
    answered [rolledBack = false] and records nothing.  The flag is set on
    rollback entries and on every debit a rollback has reversed. *)
Lemma processRollback_flagged_original
    (sessionToken transactionId originalTransactionId : string)
    (reason : option string) (db : Db) (original : CasinoTransaction) :
  getTransactionByExternalId transactionId db = Return None db ->
  getTransactionByExternalId originalTransactionId db =
    Return (Some original) db ->
  is_rollback original = true ->
  exists r : RollbackResult,
    processRollback sessionToken transactionId originalTransactionId reason db
    = Return r db
    /\ rolledBack r = false
    /\ rb_message r = "Cannot rollback a rollback transaction".
Proof.
  intros Hfresh Horig Hflag. unfold processRollback, bind.
  rewrite Hfresh, Horig, Hflag. eexists. split; [reflexivity|]. simpl. auto.
Qed.

(** C2. Debit [t1] of 2000 on a balance of 10000, rollback [r1] of [t1], then
    rollback [r2] of [t1]: the second rollback is answered
    [rolledBack = false] with the message for rolling back a rollback, and no
    marker entry is recorded for [r2]; the store, balance included, is what
    the first rollback left. *)
Theorem second_rollback_records_no_marker :
  let db := sample_db 10000 in
  let rs :=
    [debit_req "t1" 2000; rollback_req "r1" "t1"; rollback_req "r2" "t1"] in
  responses rs db =
    [ {| status := 200; body := MoneyBody true "t1" 8000 "USD" |};
      {| status := 200;
         body := RollbackBody true "r1" true 10000 "USD"
                   "Transaction successfully rolled back" |};
      {| status := 200;
         body := RollbackBody true "r2" false 10000 "USD"
                   "Cannot rollback a rollback transaction" |} ]
  /\ run rs db = run [debit_req "t1" 2000; rollback_req "r1" "t1"] db
  /\ find (has_external_id "r2") (casino_transactions (run rs db)) = None
  /\ external_transaction_id <$> casino_transactions (run rs db)
     = ["t1"; "r1"].
Proof. repeat split; reflexivity. Qed.

(** The already-rolled-back marker is recorded when a rollback entry refers
    to an original whose flag is off: a debit that arrived after its
    tombstone. *)
Example marker_after_tombstone :
  let db := sample_db 10000 in
  let rs :=
    [rollback_req "r9" "t1"; debit_req "t1" 2000; rollback_req "r1" "t1"] in
  responses rs db =
    [ {| status := 200;
         body := RollbackBody true "r9" true 10000 "USD"
                   "Tombstone recorded - original transaction not found, no balance change" |};
      {| status := 200; body := MoneyBody true "t1" 8000 "USD" |};
      {| status := 200;
         body := RollbackBody true "r1" true 8000 "USD"
                   "Transaction was already rolled back" |} ]
  /\ (response_cache
        <$> find (has_external_id "r1") (casino_transactions (run rs db)))
     = Some (Some (CacheAlreadyRolledBack true))
  /\ casino_wallets (run rs db) !! "w1" = Some (sample_wallet 8000).
Proof. repeat split; reflexivity. Qed.

(** ** The constraints of the schema never fire *)

(** In a store the callbacks have produced, whatever a callback throws is a
    [CasinoError] raised by the service itself: the guards of the service
    keep every statement within [CHECK (playable_balance >= 0)] and
    [UNIQUE (external_transaction_id)]. *)

Ltac casino_error H :=
  first
    [ discriminate H
    | injection H as <- _; do 3 eexists; reflexivity ].

Lemma processDebit_throws
    (sessionToken transactionId roundId : string) (a : Z) (db db' : Db)
    (e : JsError) :
  processDebit sessionToken transactionId roundId a db = Throw e db' ->
  exists message code statusCode, e = CasinoError message code statusCode.
Proof.
  unfold processDebit, bind, getTransactionByExternalId, getSessionByToken.
  destruct (find (has_external_id transactionId) (casino_transactions db))
    as [existing|] eqn:Hfresh; [intros Hrun; casino_error Hrun|].
  destruct (find _ (casino_game_sessions db)) as [session|];
    [|intros Hrun; casino_error Hrun].
  destruct (Z.leb_spec a 0) as [|Ha]; [intros Hrun; casino_error Hrun|].
  unfold transaction, bind, select_wallet_for_update.
  destruct (casino_wallets db !! session_wallet_id session) as [w|] eqn:Hw;
    [|intros Hrun; casino_error Hrun].
  destruct (Z.ltb_spec (playable_balance w) a) as [|Hfunds];
    [intros Hrun; casino_error Hrun|].
  unfold update_playable_balance. rewrite Hw.
  destruct (Z.ltb_spec (playable_balance w - a) 0) as [|_]; [lia|].
  unfold uuidv4. rewrite insert_transaction_fresh by exact Hfresh.
  intros Hrun. discriminate Hrun.
Qed.

Lemma processCredit_throws
    (sessionToken transactionId roundId : string) (a : Z)
    (related : option string) (db db' : Db) (e : JsError) :
  balances_nonneg db ->
  processCredit sessionToken transactionId roundId a related db
    = Throw e db' ->
  exists message code statusCode, e = CasinoError message code statusCode.
Proof.
  intros Hnn.
  unfold processCredit, bind, getTransactionByExternalId, getSessionByToken.
  destruct (find (has_external_id transactionId) (casino_transactions db))
    as [existing|] eqn:Hfresh; [intros Hrun; casino_error Hrun|].
  destruct (find _ (casino_game_sessions db)) as [session|];
    [|intros Hrun; casino_error Hrun].
  destruct (Z.ltb_spec a 0) as [|Ha]; [intros Hrun; casino_error Hrun|].
  unfold transaction, bind, select_wallet_for_update.
  destruct (casino_wallets db !! session_wallet_id session) as [w|] eqn:Hw;
    [|intros Hrun; casino_error Hrun].
  unfold update_playable_balance. rewrite Hw.
  pose proof (Hnn _ _ Hw).
  destruct (Z.ltb_spec (playable_balance w + a) 0) as [|_]; [lia|].
  unfold uuidv4. rewrite insert_transaction_fresh by exact Hfresh.
  intros Hrun. discriminate Hrun.
Qed.

Lemma processRollback_throws
    (sessionToken transactionId originalTransactionId : string)
    (reason : option string) (db db' : Db) (e : JsError) :
  ledger_inv db ->
  processRollback sessionToken transactionId originalTransactionId reason db
    = Throw e db' ->
  exists message code statusCode, e = CasinoError message code statusCode.
Proof.
  intros Hinv.
  unfold processRollback, bind, getTransactionByExternalId, getSessionByToken.
  destruct (find (has_external_id transactionId) (casino_transactions db))
    as [existing|] eqn:Hfresh; [intros Hrun; casino_error Hrun|].
  destruct (find (has_external_id originalTransactionId)
              (casino_transactions db)) as [original|] eqn:Horig.
  - apply find_some in Horig as [Hin _].
    destruct (inv_wallet db Hinv original Hin) as [w Hw].
    destruct (is_rollback original); [intros Hrun; casino_error Hrun|].
    unfold select_rollbacks_of.
    destruct (0 <? length _)%nat.
    + unfold getWalletById, uuidv4.
      rewrite insert_transaction_fresh by exact Hfresh.
      intros Hrun. discriminate Hrun.
    + destruct (TransactionType_eqb (transaction_type original) credit);
        [intros Hrun; casino_error Hrun|].
      unfold transaction, bind, select_wallet_for_update. rewrite Hw.
      unfold update_playable_balance. rewrite Hw.
      pose proof (inv_balances db Hinv _ _ Hw).
      pose proof (inv_amount db Hinv _ Hin).
      destruct (Z.ltb_spec (playable_balance w + amount original) 0)
        as [|_]; [lia|].
      unfold update_is_rollback, uuidv4.
      rewrite insert_transaction_fresh
        by (simpl; rewrite find_mark_rolled_back, Hfresh; reflexivity).
      intros Hrun. discriminate Hrun.
  - destruct (find _ (casino_game_sessions db)) as [session|];
      [|intros Hrun; casino_error Hrun].
    unfold getWalletById.
    destruct (casino_wallets db !! session_wallet_id session) as [w|];
      [|intros Hrun; casino_error Hrun].
    unfold uuidv4. rewrite insert_transaction_fresh by exact Hfresh.
    intros Hrun. discriminate Hrun.
Qed.

(** * Further properties of the ledger *)

(** ** Every callback commits one ledger event *)

Lemma processDebit_outcome
    (sessionToken transactionId roundId : string) (a : Z) (db : Db) :
  final_db (processDebit sessionToken transactionId roundId a db) = db
  \/ exists session w,
       find (has_external_id transactionId) (casino_transactions db) = None
       /\ casino_wallets db !! session_wallet_id session = Some w
       /\ 0 < a /\ a <= playable_balance w
       /\ final_db (processDebit sessionToken transactionId roundId a db) =
          committed db (session_wallet_id session) w (playable_balance w - a)
            (casino_transactions db
               ++ [debit_entry db session w transactionId a]).
Proof.
  unfold processDebit, bind, getTransactionByExternalId, getSessionByToken.
  destruct (find (has_external_id transactionId) (casino_transactions db))
    as [existing|] eqn:Hfresh; [left; reflexivity|].
  destruct (find _ (casino_game_sessions db)) as [session|];
    [|left; reflexivity].
  destruct (Z.leb_spec a 0) as [Hle|Ha]; [left; reflexivity|].
  unfold transaction, bind, select_wallet_for_update.
  destruct (casino_wallets db !! session_wallet_id session) as [w|] eqn:Hw;
    [|left; reflexivity].
  destruct (Z.ltb_spec (playable_balance w) a) as [Hlt|Hfunds];
    [left; reflexivity|].
  unfold update_playable_balance. rewrite Hw.
  destruct (Z.ltb_spec (playable_balance w - a) 0) as [Hneg|_]; [lia|].
  unfold uuidv4. rewrite insert_transaction_fresh by exact Hfresh.
  right. exists session, w. repeat split; assumption.
Qed.

Lemma processCredit_outcome
    (sessionToken transactionId roundId : string) (a : Z)
    (related : option string) (db : Db) :
  balances_nonneg db ->
  final_db (processCredit sessionToken transactionId roundId a related db)
    = db
  \/ exists session w,
       find (has_external_id transactionId) (casino_transactions db) = None
       /\ casino_wallets db !! session_wallet_id session = Some w
       /\ 0 <= a
       /\ final_db
            (processCredit sessionToken transactionId roundId a related db) =
          committed db (session_wallet_id session) w (playable_balance w + a)
            (casino_transactions db
               ++ [credit_entry db session w transactionId a related]).
Proof.
  intros Hnn.
  unfold processCredit, bind, getTransactionByExternalId, getSessionByToken.
  destruct (find (has_external_id transactionId) (casino_transactions db))
    as [existing|] eqn:Hfresh; [left; reflexivity|].
  destruct (find _ (casino_game_sessions db)) as [session|];
    [|left; reflexivity].
  destruct (Z.ltb_spec a 0) as [Hlt|Ha]; [left; reflexivity|].
  unfold transaction, bind, select_wallet_for_update.
  destruct (casino_wallets db !! session_wallet_id session) as [w|] eqn:Hw;
    [|left; reflexivity].
  unfold update_playable_balance. rewrite Hw.
  pose proof (Hnn _ _ Hw) as Hb.
  destruct (Z.ltb_spec (playable_balance w + a) 0) as [Hneg|_]; [lia|].
  unfold uuidv4. rewrite insert_transaction_fresh by exact Hfresh.
  right. exists session, w. repeat split; assumption.
Qed.

Lemma processRollback_outcome
    (sessionToken transactionId originalTransactionId : string)
    (reason : option string) (db : Db) :
  ledger_inv db ->
  let db' :=
    final_db
      (processRollback sessionToken transactionId originalTransactionId
         reason db) in
  casino_wallets db' = casino_wallets db /\ ledger_event db db'
  \/ exists original w,
       find (has_external_id transactionId) (casino_transactions db) = None
       /\ find (has_external_id originalTransactionId)
            (casino_transactions db) = Some original
       /\ transaction_type original = debit
       /\ is_rollback original = false
       /\ List.filter (is_rollback_of originalTransactionId)
            (casino_transactions db) = []
       /\ casino_wallets db !! wallet_id original = Some w
       /\ db' =
          committed db (wallet_id original) w
            (playable_balance w + amount original)
            (mark_rolled_back (txn_id original) (casino_transactions db)
               ++ [rollback_entry db original w transactionId
                     originalTransactionId reason]).
Proof.
  intros Hinv.
  unfold processRollback, bind, getTransactionByExternalId, getSessionByToken.
  destruct (find (has_external_id transactionId) (casino_transactions db))
    as [existing|] eqn:Hfresh; [left; split; [reflexivity|apply event_none]|].
  destruct (find (has_external_id originalTransactionId)
              (casino_transactions db)) as [original|] eqn:Horig.
  - pose proof (find_some _ _ Horig) as [Hin _].
    destruct (inv_wallet db Hinv original Hin) as [w Hw].
    destruct (is_rollback original) eqn:Hflag;
      [left; split; [reflexivity|apply event_none]|].
    unfold select_rollbacks_of.
    destruct (List.filter (is_rollback_of originalTransactionId)
                (casino_transactions db)) as [|x xs] eqn:Hrefs; simpl.
    + pose proof (inv_rollback_flag db Hinv original Hin) as Hrb.
      destruct (transaction_type original) eqn:Hdebit; simpl;
        [|left; split; [reflexivity|apply event_none]
         |rewrite Hrb in Hflag by reflexivity; discriminate].
      unfold transaction, bind, select_wallet_for_update. rewrite Hw.
      unfold update_playable_balance. rewrite Hw.
      pose proof (inv_balances db Hinv _ _ Hw).
      pose proof (inv_amount db Hinv _ Hin).
      destruct (Z.ltb_spec (playable_balance w + amount original) 0)
        as [Hneg|_]; [lia|].
      unfold update_is_rollback, uuidv4.
      rewrite insert_transaction_fresh
        by (simpl; rewrite find_mark_rolled_back, Hfresh; reflexivity).
      right. exists original, w. repeat split; try assumption.
    + unfold getWalletById, uuidv4.
      rewrite insert_transaction_fresh by exact Hfresh.
      left. split; [reflexivity|].
      apply (event_marker db original transactionId originalTransactionId);
        try assumption.
      rewrite Hrefs. discriminate.
  - destruct (find _ (casino_game_sessions db)) as [session|];
      [|left; split; [reflexivity|apply event_none]].
    unfold getWalletById.
    destruct (casino_wallets db !! session_wallet_id session) as [w|] eqn:Hw;
      [|left; split; [reflexivity|apply event_none]].
    unfold uuidv4. rewrite insert_transaction_fresh by exact Hfresh.
    left. split; [reflexivity|].
    apply (event_tombstone db session w transactionId originalTransactionId);
      assumption.
Qed.

Lemma processDebit_event
    (sessionToken transactionId roundId : string) (a : Z) (db : Db) :
  ledger_event db
    (final_db (processDebit sessionToken transactionId roundId a db)).
Proof.
  destruct (processDebit_outcome sessionToken transactionId roundId a db)
    as [->|(session & w & Hfresh & Hw & Ha & Hfunds & ->)].
  - apply event_none.
  - apply event_debit; assumption.
Qed.

Lemma processCredit_event
    (sessionToken transactionId roundId : string) (a : Z)
    (related : option string) (db : Db) :
  balances_nonneg db ->
  ledger_event db
    (final_db (processCredit sessionToken transactionId roundId a related db)).
Proof.
  intros Hnn.
  destruct (processCredit_outcome sessionToken transactionId roundId a
              related db Hnn)
    as [->|(session & w & Hfresh & Hw & Ha & ->)].
  - apply event_none.
  - apply event_credit; assumption.
Qed.

Lemma processRollback_event
    (sessionToken transactionId originalTransactionId : string)
    (reason : option string) (db : Db) :
  ledger_inv db ->
  ledger_event db
    (final_db
       (processRollback sessionToken transactionId originalTransactionId
          reason db)).
Proof.
  intros Hinv.
  destruct (processRollback_outcome sessionToken transactionId
              originalTransactionId reason db Hinv)
    as [[_ Hev]|(original & w & H1 & H2 & H3 & H4 & H5 & H6 & E)].
  - exact Hev.
  - rewrite E. apply event_reversal; assumption.
Qed.

Lemma handle_event (r : Request) (db : Db) :
  ledger_inv db -> ledger_event db (snd (handle r db)).
Proof.
  intros Hinv. destruct r as [req|req|req]; simpl.
  - destruct (debit_route_db req db) as [E|[a E]]; rewrite E.
    + apply event_none.
    + apply processDebit_event.
  - destruct (credit_route_db req db) as [E|[a E]]; rewrite E.
    + apply event_none.
    + apply processCredit_event. exact (inv_balances db Hinv).
  - destruct (rollback_route_db req db) as [E|E]; rewrite E.
    + apply event_none.
    + apply processRollback_event. exact Hinv.
Qed.

(** An invariant of the ledger events holds after every sequence of
    requests. *)
Lemma run_event_invariant (P : Db -> Prop) :
  (forall db db', ledger_inv db -> P db -> ledger_event db db' -> P db') ->
  forall (rs : list Request) (db : Db),
    ledger_inv db -> P db -> P (run rs db).
Proof.
  intros Hstep rs. induction rs as [|r rs IH]; intros db Hinv HP;
    [exact HP|].
  simpl. apply IH.
  - apply (step_preserves_inv db); [exact Hinv|].
    apply handle_step. exact Hinv.
  - apply (Hstep db); [exact Hinv|exact HP|].
    apply handle_event. exact Hinv.
Qed.

(** ** External transaction ids are unique *)

Lemma find_none_not_elem (externalId : string) (ts : list CasinoTransaction) :
  find (has_external_id externalId) ts = None ->
  externalId ∉ external_transaction_id <$> ts.
Proof.
  intros Hnone Hin. apply list_elem_of_fmap in Hin as (t & -> & Hin).
  apply list_elem_of_In in Hin.
  pose proof (find_none _ _ Hnone t Hin) as Hp.
  unfold has_external_id in Hp. rewrite String.eqb_refl in Hp.
  discriminate.
Qed.

Lemma external_ids_mark (id : nat) (ts : list CasinoTransaction) :
  external_transaction_id <$> mark_rolled_back id ts =
  external_transaction_id <$> ts.
Proof.
  rewrite mark_rolled_back_flag, <- list_fmap_compose.
  apply list_fmap_ext. intros i t _. simpl.
  destruct (flag_if_record id t) as (-> & _). reflexivity.
Qed.

Lemma external_ids_snoc_unique (ts : list CasinoTransaction)
    (t : CasinoTransaction) :
  NoDup (external_transaction_id <$> ts) ->
  find (has_external_id (external_transaction_id t)) ts = None ->
  NoDup (external_transaction_id <$> (ts ++ [t])).
Proof.
  intros Hnd Hfresh. rewrite fmap_app. apply NoDup_app.
  split; [exact Hnd|]. split.
  - intros x Hx Hx'. simpl in Hx'. apply list_elem_of_singleton in Hx'.
    subst x. exact (find_none_not_elem _ _ Hfresh Hx).
  - simpl. apply NoDup_singleton.
Qed.

Lemma event_keeps_external_ids_unique (db db' : Db) :
  NoDup (external_transaction_id <$> casino_transactions db) ->
  ledger_event db db' ->
  NoDup (external_transaction_id <$> casino_transactions db').
Proof.
  intros Hnd Hev.
  destruct Hev as
    [ | session w tid a Hfresh _ _ _
      | session w tid a related Hfresh _ _
      | session w tid oid Hfresh _ _
      | original tid oid Hfresh _ _ _
      | original w tid oid reason Hfresh _ _ _ _ _ ];
    simpl; try exact Hnd;
    try (apply external_ids_snoc_unique; [exact Hnd|exact Hfresh]).
  rewrite fmap_app, external_ids_mark, <- fmap_app.
  apply external_ids_snoc_unique; [exact Hnd|exact Hfresh].
Qed.

(** X1. No two entries of a ledger produced by the callbacks carry the same
    external transaction id. *)
Theorem external_ids_unique (db0 : Db) (rs : list Request) :
  initial db0 ->
  NoDup (external_transaction_id <$> casino_transactions (run rs db0)).
Proof.
  intros Hinit.
  apply (run_event_invariant
           (fun db => NoDup (external_transaction_id <$> casino_transactions db))).
  - intros db db' _ Hnd Hev.
    exact (event_keeps_external_ids_unique db db' Hnd Hev).
  - exact (initial_inv db0 Hinit).
  - destruct Hinit as [-> _]. apply NoDup_nil_2.
Qed.

Lemma external_ids_unique_witness :
  NoDup
    (external_transaction_id <$>
       casino_transactions
         (run [debit_req "t1" 500; debit_req "t1" 700; rollback_req "t1" "t1";
               rollback_req "r1" "t1"; credit_req "r1" 5 None]
            (sample_db 10000))).
Proof.
  apply (external_ids_unique (sample_db 10000)).
  apply sample_db_initial. discriminate.
Defined.

(** ** A debit is given back at most once *)

Lemma find_snoc (p : CasinoTransaction -> bool) (ts : list CasinoTransaction)
    (t : CasinoTransaction) :
  find p (ts ++ [t]) =
  match find p ts with
  | Some o => Some o
  | None => if p t then Some t else None
  end.
Proof.
  induction ts as [|x ts IH]; simpl; [reflexivity|].
  destruct (p x); [reflexivity|exact IH].
Qed.

Lemma refunded_snoc (originalTransactionId : string)
    (ts : list CasinoTransaction) (t : CasinoTransaction) :
  refunded originalTransactionId (ts ++ [t]) =
  refunded originalTransactionId ts
  + (if is_rollback_of originalTransactionId t then amount t else 0).
Proof.
  unfold refunded. rewrite List.filter_app. simpl.
  generalize (List.filter (is_rollback_of originalTransactionId) ts).
  intros l. induction l as [|x l IH]; simpl.
  - destruct (is_rollback_of originalTransactionId t); simpl; lia.
  - rewrite IH. lia.
Qed.

Lemma is_rollback_of_flag (originalTransactionId : string) (id : nat)
    (t : CasinoTransaction) :
  is_rollback_of originalTransactionId (flag_if id t) =
  is_rollback_of originalTransactionId t.
Proof.
  unfold is_rollback_of.
  destruct (flag_if_record id t) as (_ & -> & _).
  destruct (flag_if_fields id t) as (_ & _ & -> & _). reflexivity.
Qed.

Lemma refunded_mark (originalTransactionId : string) (id : nat)
    (ts : list CasinoTransaction) :
  refunded originalTransactionId (mark_rolled_back id ts) =
  refunded originalTransactionId ts.
Proof.
  unfold refunded, mark_rolled_back.
  induction ts as [|t ts IH]; simpl; [reflexivity|].
  rewrite is_rollback_of_flag.
  destruct (is_rollback_of originalTransactionId t); simpl; [|exact IH].
  destruct (flag_if_fields id t) as (_ & _ & _ & -> & _). rewrite IH.
  reflexivity.
Qed.

Lemma refunded_none (originalTransactionId : string)
    (ts : list CasinoTransaction) :
  List.filter (is_rollback_of originalTransactionId) ts = [] ->
  refunded originalTransactionId ts = 0.
Proof. unfold refunded. intros ->. reflexivity. Qed.

(** Appending an entry that gives nothing back and is not a flagged debit
    leaves both sides of the refund equation as they were. *)
Lemma refund_snoc_neutral (oid : string) (ts : list CasinoTransaction)
    (t : CasinoTransaction) :
  refunded oid ts = refund_due oid ts ->
  (is_rollback_of oid t = true -> amount t = 0) ->
  TransactionType_eqb (transaction_type t) debit && is_rollback t = false ->
  refunded oid (ts ++ [t]) = refund_due oid (ts ++ [t]).
Proof.
  intros IH Hzero Hnot. rewrite refunded_snoc. unfold refund_due in *.
  rewrite find_snoc.
  assert (Hadd : (if is_rollback_of oid t then amount t else 0) = 0).
  { destruct (is_rollback_of oid t); [apply Hzero; reflexivity|reflexivity]. }
  rewrite Hadd, Z.add_0_r.
  destruct (find (has_external_id oid) ts) as [o|]; [exact IH|].
  destruct (has_external_id oid t); [|exact IH].
  rewrite Hnot. exact IH.
Qed.

Lemma event_keeps_refunds (db db' : Db) (oid : string) :
  ledger_inv db ->
  refunded oid (casino_transactions db)
    = refund_due oid (casino_transactions db) ->
  ledger_event db db' ->
  refunded oid (casino_transactions db')
    = refund_due oid (casino_transactions db').
Proof.
  intros Hinv IH Hev.
  destruct Hev as
    [ | session w tid a Hfresh _ _ _
      | session w tid a related Hfresh _ _
      | session w tid oid' Hfresh _ _
      | original tid oid' Hfresh _ _ _
      | original w tid oid' reason Hfresh Horig Hty Hflag Hrefs Hw ];
    simpl; try exact IH;
    try (apply refund_snoc_neutral;
         [ exact IH
         | unfold is_rollback_of; simpl; rewrite ?andb_false_r;
           first [discriminate | reflexivity]
         | reflexivity ]).
  (* the reversal of a debit *)
  pose proof (find_some _ _ Horig) as [Hin Hid].
  apply String.eqb_eq in Hid.
  rewrite refunded_snoc, refunded_mark. unfold refund_due in *.
  rewrite find_snoc, find_mark_rolled_back.
  unfold is_rollback_of at 1. simpl.
  rewrite andb_true_r.
  destruct (String.eqb_spec oid' oid) as [E|NE].
  - clear Hid. subst oid'. rewrite Horig in IH |- *. simpl.
    unfold flag_if. rewrite Nat.eqb_refl. simpl.
    rewrite Hty, Hflag in IH. simpl in IH. rewrite Hty. simpl.
    rewrite IH. lia.
  - rewrite Z.add_0_r.
    destruct (find (has_external_id oid) (casino_transactions db))
      as [e|] eqn:He; simpl.
    + pose proof (find_some _ _ He) as [Hine Hide].
      apply String.eqb_eq in Hide.
      assert (Hsame : flag_if (txn_id original) e = e).
      { unfold flag_if.
        destruct (Nat.eqb_spec (txn_id e) (txn_id original)) as [Eid|_];
          [|reflexivity].
        pose proof (inv_ids_key db Hinv e original Hine Hin Eid).
        subst e. congruence. }
      rewrite Hsame. exact IH.
    + destruct (has_external_id oid _); exact IH.
Qed.

(** X2. In a ledger produced by the callbacks, the amounts of the rollback
    entries that refer to an original add up to the original's amount when it
    is a debit flagged as rolled back, and to 0 otherwise: a debit is given
    back at most once, and only in full. *)
Theorem refunds_match_flags (db0 : Db) (rs : list Request)
    (originalTransactionId : string) :
  initial db0 ->
  refunded originalTransactionId (casino_transactions (run rs db0)) =
  refund_due originalTransactionId (casino_transactions (run rs db0)).
Proof.
  intros Hinit.
  apply (run_event_invariant
           (fun db =>
              refunded originalTransactionId (casino_transactions db) =
              refund_due originalTransactionId (casino_transactions db))).
  - intros db db' Hinv IH Hev.
    exact (event_keeps_refunds db db' originalTransactionId Hinv IH Hev).
  - exact (initial_inv db0 Hinit).
  - destruct Hinit as [-> _]. reflexivity.
Qed.

Lemma refunds_match_flags_witness :
  let ledger :=
    casino_transactions
      (run [rollback_req "r0" "t1"; debit_req "t2" 700; rollback_req "r1" "t2";
            rollback_req "r2" "t2"; rollback_req "r3" "t2"]
         (sample_db 10000)) in
  refunded "t2" ledger = 700 /\ refund_due "t2" ledger = 700.
Proof.
  intros ledger. split; [|reflexivity].
  unfold ledger.
  rewrite (refunds_match_flags (sample_db 10000) _ "t2"
             (sample_db_initial 10000 ltac:(discriminate))).
  reflexivity.
Defined.

(** ** The balance is the opening balance plus the ledger *)

Lemma net_amount_snoc (walletId : string) (ts : list CasinoTransaction)
    (t : CasinoTransaction) :
  net_amount walletId (ts ++ [t]) =
  net_amount walletId ts
  + (if String.eqb (wallet_id t) walletId then signed_amount t else 0).
Proof.
  unfold net_amount. rewrite on_wallet_snoc.
  generalize (on_wallet walletId ts). intros l.
  induction l as [|x l IH]; simpl.
  - destruct (String.eqb (wallet_id t) walletId); simpl; lia.
  - rewrite IH. lia.
Qed.

Lemma net_amount_mark (walletId : string) (id : nat)
    (ts : list CasinoTransaction) :
  net_amount walletId (mark_rolled_back id ts) = net_amount walletId ts.
Proof.
  unfold net_amount. rewrite on_wallet_mark.
  generalize (on_wallet walletId ts). intros l. unfold mark_rolled_back.
  induction l as [|x l IH]; simpl; [reflexivity|].
  rewrite flag_if_signed, IH. reflexivity.
Qed.

Lemma step_moves_balance_by_ledger (db db' : Db) (walletId : string) :
  ledger_step db db' ->
  playable_balance <$> casino_wallets db' !! walletId =
  (fun w =>
     playable_balance w
     + (net_amount walletId (casino_transactions db')
        - net_amount walletId (casino_transactions db)))
    <$> casino_wallets db !! walletId.
Proof.
  intros [->|orig t w Happ].
  - destruct (casino_wallets db !! walletId); simpl; [|reflexivity].
    f_equal. lia.
  - destruct Happ as [Hw Hws _ Hts _ _ _ _ _ Hbal _ _ _].
    rewrite Hws, Hts, net_amount_snoc.
    assert (Hnet :
      net_amount walletId
        match orig with
        | Some o => mark_rolled_back (txn_id o) (casino_transactions db)
        | None => casino_transactions db
        end = net_amount walletId (casino_transactions db)).
    { destruct orig; [apply net_amount_mark|reflexivity]. }
    rewrite Hnet.
    destruct (String.eqb_spec (wallet_id t) walletId) as [E|NE].
    + subst walletId. rewrite lookup_insert_eq, Hw. simpl. f_equal. lia.
    + rewrite lookup_insert_ne by exact NE.
      destruct (casino_wallets db !! walletId); simpl; [|reflexivity].
      f_equal. lia.
Qed.

Lemma run_moves_balance_by_ledger (rs : list Request) (db : Db)
    (walletId : string) :
  ledger_inv db ->
  playable_balance <$> casino_wallets (run rs db) !! walletId =
  (fun w =>
     playable_balance w
     + (net_amount walletId (casino_transactions (run rs db))
        - net_amount walletId (casino_transactions db)))
    <$> casino_wallets db !! walletId.
Proof.
  revert db. induction rs as [|r rs IH]; intros db Hinv.
  - simpl. destruct (casino_wallets db !! walletId); simpl; [|reflexivity].
    f_equal. lia.
  - change (run (r :: rs) db) with (run rs (snd (handle r db))).
    pose proof (handle_step r db Hinv) as Hstep.
    rewrite (IH _ (step_preserves_inv _ _ Hinv Hstep)).
    pose proof (step_moves_balance_by_ledger db _ walletId Hstep) as H1.
    destruct (casino_wallets (snd (handle r db)) !! walletId) as [w1|];
      destruct (casino_wallets db !! walletId) as [w|]; simpl in *;
      try discriminate; [|reflexivity].
    injection H1 as H1. f_equal. lia.
Qed.

(** X3. After any sequence of requests on a store that started with an empty
    ledger, every wallet holds its opening balance plus the signed amounts of
    its ledger entries; no wallet appears or disappears. *)
Theorem balance_is_opening_plus_ledger (db0 : Db) (rs : list Request)
    (walletId : string) :
  initial db0 ->
  playable_balance <$> casino_wallets (run rs db0) !! walletId =
  (fun w =>
     playable_balance w
     + net_amount walletId (casino_transactions (run rs db0)))
    <$> casino_wallets db0 !! walletId.
Proof.
  intros Hinit.
  rewrite (run_moves_balance_by_ledger rs db0 walletId
             (initial_inv db0 Hinit)).
  destruct Hinit as [Hl _]. rewrite Hl.
  destruct (casino_wallets db0 !! walletId); simpl; [|reflexivity].
  f_equal. unfold net_amount at 2. simpl. lia.
Qed.

Lemma balance_is_opening_plus_ledger_witness :
  let db :=
    run [debit_req "t1" 2000; credit_req "c1" 300 (Some "t1");
         rollback_req "r1" "t1"; rollback_req "r2" "t1";
         debit_req "t2" 50000] (sample_db 10000) in
  net_amount "w1" (casino_transactions db) = 300
  /\ playable_balance <$> casino_wallets db !! "w1" = Some 10300.
Proof.
  intros db. split; [reflexivity|]. unfold db.
  rewrite (balance_is_opening_plus_ledger (sample_db 10000) _ "w1"
             (sample_db_initial 10000 ltac:(discriminate))).
  reflexivity.
Defined.

(** ** What the callbacks never write *)

Lemma step_keeps_identity (db db' : Db) :
  ledger_step db db' ->
  casino_game_sessions db' = casino_game_sessions db
  /\ forall walletId,
       wallet_identity <$> casino_wallets db' !! walletId =
       wallet_identity <$> casino_wallets db !! walletId.
Proof.
  intros [->|orig t w Happ]; [split; reflexivity|].
  destruct Happ as [Hw Hws Hss _ _ _ _ _ _ _ _ _ _].
  split; [exact Hss|]. intros walletId. rewrite Hws.
  destruct (String.eqb_spec (wallet_id t) walletId) as [E|NE].
  - subst walletId. rewrite lookup_insert_eq, Hw. reflexivity.
  - rewrite lookup_insert_ne by exact NE. reflexivity.
Qed.

Lemma run_keeps_identity (rs : list Request) (db : Db) :
  ledger_inv db ->
  casino_game_sessions (run rs db) = casino_game_sessions db
  /\ forall walletId,
       wallet_identity <$> casino_wallets (run rs db) !! walletId =
       wallet_identity <$> casino_wallets db !! walletId.
Proof.
  revert db. induction rs as [|r rs IH]; intros db Hinv;
    [split; reflexivity|].
  change (run (r :: rs) db) with (run rs (snd (handle r db))).
  pose proof (handle_step r db Hinv) as Hstep.
  destruct (IH _ (step_preserves_inv _ _ Hinv Hstep)) as [Hs Hw].
  destruct (step_keeps_identity db _ Hstep) as [Hs1 Hw1].
  split; [congruence|]. intros walletId. rewrite Hw. apply Hw1.
Qed.

(** X4. No sequence of debit, credit and rollback requests changes the
    sessions, or the owner, the currency or the redeemable balance of any
    wallet. *)
Theorem callbacks_keep_sessions_and_wallet_identity
    (db0 : Db) (rs : list Request) :
  initial db0 ->
  casino_game_sessions (run rs db0) = casino_game_sessions db0
  /\ forall walletId,
       wallet_identity <$> casino_wallets (run rs db0) !! walletId =
       wallet_identity <$> casino_wallets db0 !! walletId.
Proof.
  intros Hinit. apply run_keeps_identity, initial_inv. exact Hinit.
Qed.

Lemma callbacks_keep_sessions_and_wallet_identity_witness :
  let db :=
    run [debit_req "t1" 2000; credit_req "c1" 300 None;
         rollback_req "r1" "t1"] (sample_db 10000) in
  casino_game_sessions db = [sample_session]
  /\ wallet_identity <$> casino_wallets db !! "w1"
     = Some ("player1", "USD", 0).
Proof.
  intros db.
  destruct (callbacks_keep_sessions_and_wallet_identity (sample_db 10000)
              [debit_req "t1" 2000; credit_req "c1" 300 None;
               rollback_req "r1" "t1"]
              (sample_db_initial 10000 ltac:(discriminate))) as [Hs Hw].
  split; [exact Hs|]. unfold db. rewrite Hw. reflexivity.
Defined.

(** ** Refused requests leave no trace *)

Ltac split_outcome H :=
  repeat
    match type of H with
    | context [match ?x with _ => _ end] => destruct x eqn:?
    | context [if ?x then _ else _] => destruct x eqn:?
    end;
  try discriminate H.

Lemma transaction_throw_keeps_store {A : Type} (body : M A) (db db' : Db)
    (e : JsError) :
  transaction body db = Throw e db' -> db' = db.
Proof.
  unfold transaction. destruct (body db); [discriminate|].
  intros H. injection H as _ <-. reflexivity.
Qed.

Lemma processDebit_throw_keeps_store
    (sessionToken transactionId roundId : string) (a : Z) (db db' : Db)
    (e : JsError) :
  processDebit sessionToken transactionId roundId a db = Throw e db' ->
  db' = db.
Proof.
  unfold processDebit, duplicate_result, bind, ret, throw, transaction,
    getTransactionByExternalId, getSessionByToken, getWalletById,
    select_wallet_for_update, update_playable_balance, uuidv4,
    insert_transaction, select_transaction_by_id.
  intros H. split_outcome H; injection H as _ <-; reflexivity.
Qed.

Lemma processCredit_throw_keeps_store
    (sessionToken transactionId roundId : string) (a : Z)
    (related : option string) (db db' : Db) (e : JsError) :
  processCredit sessionToken transactionId roundId a related db = Throw e db' ->
  db' = db.
Proof.
  unfold processCredit, duplicate_result, bind, ret, throw, transaction,
    getTransactionByExternalId, getSessionByToken, getWalletById,
    select_wallet_for_update, update_playable_balance, uuidv4,
    insert_transaction, select_transaction_by_id.
  intros H. split_outcome H; injection H as _ <-; reflexivity.
Qed.

Lemma processRollback_throw_keeps_store
    (sessionToken transactionId originalTransactionId : string)
    (reason : option string) (db db' : Db) (e : JsError) :
  processRollback sessionToken transactionId originalTransactionId reason db
    = Throw e db' ->
  db' = db.
Proof.
  unfold processRollback, bind, getTransactionByExternalId, getSessionByToken.
  destruct (find (has_external_id transactionId) (casino_transactions db))
    as [existing|] eqn:Hfresh; [discriminate|].
  destruct (find (has_external_id originalTransactionId)
              (casino_transactions db)) as [original|].
  - destruct (is_rollback original); [discriminate|].
    unfold select_rollbacks_of.
    destruct (0 <? length _)%nat.
    + unfold getWalletById, uuidv4.
      rewrite insert_transaction_fresh by exact Hfresh. discriminate.
    + destruct (TransactionType_eqb (transaction_type original) credit).
      * intros H. injection H as _ <-. reflexivity.
      * apply transaction_throw_keeps_store.
  - destruct (find _ (casino_game_sessions db)) as [session|].
    + unfold getWalletById.
      destruct (casino_wallets db !! session_wallet_id session) as [w|].
      * unfold uuidv4.
        rewrite insert_transaction_fresh by exact Hfresh. discriminate.
      * intros H. injection H as _ <-. reflexivity.
    + intros H. injection H as _ <-. reflexivity.
Qed.

(** X5. Whatever the store, a request that is not answered with status 200
    changes nothing: every refusal, be it a validation error, a policy error
    or a violated constraint, leaves the wallets, the sessions and the ledger
    as they were. *)
Theorem refused_request_changes_nothing (r : Request) (db : Db) :
  status (fst (handle r db)) <> 200%nat ->
  snd (handle r db) = db.
Proof.
  destruct r as [req|req|req]; simpl.
  - unfold debit_route.
    destruct (debit_amount req) as [a|]; [|reflexivity].
    destruct (_ || _); [reflexivity|].
    destruct (processDebit _ _ _ _ _) as [res db'|e db'] eqn:Hrun; simpl.
    + intros H. contradiction H. reflexivity.
    + intros _. exact (processDebit_throw_keeps_store _ _ _ _ _ _ _ Hrun).
  - unfold credit_route.
    destruct (credit_amount req) as [a|]; [|reflexivity].
    destruct (_ || _); [reflexivity|].
    destruct (processCredit _ _ _ _ _ _) as [res db'|e db'] eqn:Hrun; simpl.
    + intros H. contradiction H. reflexivity.
    + intros _. exact (processCredit_throw_keeps_store _ _ _ _ _ _ _ _ Hrun).
  - unfold rollback_route.
    destruct (_ || _); [reflexivity|].
    destruct (processRollback _ _ _ _ _) as [res db'|e db'] eqn:Hrun; simpl.
    + intros H. contradiction H. reflexivity.
    + intros _.
      exact (processRollback_throw_keeps_store _ _ _ _ _ _ _ Hrun).
Qed.

Lemma refused_request_changes_nothing_witness :
  let db := run [debit_req "t1" 1000] (sample_db 10000) in
  status (fst (handle (debit_req "t2" 9001) db)) = 400%nat
  /\ snd (handle (debit_req "t2" 9001) db) = db.
Proof.
  intros db. split; [reflexivity|].
  apply (refused_request_changes_nothing (debit_req "t2" 9001) db).
  discriminate.
Defined.

(** ** Credits *)

(** X6. A credit with a fresh transaction id, an active session and an amount
    that is not negative is accepted, zero included: the wallet of the session
    gains the amount, one credit entry is appended whose [balance_after] is
    the new balance, and the answer carries the new balance.  A credit of 0
    leaves the balance as it is and still records its entry. *)
Theorem credit_accepted
    (sessionToken transactionId roundId : string) (a : Z)
    (related : option string) (db : Db) (session : CasinoGameSession)
    (w : CasinoWallet) :
  getTransactionByExternalId transactionId db = Return None db ->
  getSessionByToken sessionToken db = Return (Some session) db ->
  casino_wallets db !! session_wallet_id session = Some w ->
  0 <= playable_balance w ->
  0 <= a ->
  exists r : MoneyResult,
    processCredit sessionToken transactionId roundId a related db =
    Return r
      (committed db (session_wallet_id session) w (playable_balance w + a)
         (casino_transactions db
            ++ [credit_entry db session w transactionId a related]))
    /\ res_balance r = playable_balance w + a
    /\ res_currency r = currency_code w
    /\ isDuplicate r = false
    /\ (a = 0 ->
        casino_wallets
          (committed db (session_wallet_id session) w (playable_balance w + a)
             (casino_transactions db
                ++ [credit_entry db session w transactionId a related]))
        = casino_wallets db).
Proof.
  intros Hfresh Hsess Hw Hnn Ha.
  unfold processCredit, bind. rewrite Hfresh, Hsess.
  destruct (Z.ltb_spec a 0) as [Hlt|_]; [lia|].
  unfold transaction, bind, select_wallet_for_update. rewrite Hw.
  unfold update_playable_balance. rewrite Hw.
  destruct (Z.ltb_spec (playable_balance w + a) 0) as [Hneg|_]; [lia|].
  unfold uuidv4. apply Return_inv in Hfresh.
  rewrite insert_transaction_fresh by exact Hfresh.
  eexists. split; [reflexivity|]. simpl. repeat split.
  intros ->. rewrite Z.add_0_r, set_playable_balance_same.
  apply insert_id. exact Hw.
Qed.

Lemma credit_accepted_witness :
  exists r : MoneyResult,
    processCredit "tok" "c2" "round1" 0 (Some "") (sample_db 9500) =
    Return r
      (committed (sample_db 9500) "w1" (sample_wallet 9500) 9500
         [credit_entry (sample_db 9500) sample_session (sample_wallet 9500)
            "c2" 0 (Some "")])
    /\ res_balance r = 9500.
Proof.
  destruct (credit_accepted "tok" "c2" "round1" 0 (Some "") (sample_db 9500)
              sample_session (sample_wallet 9500))
    as (r & Hrun & Hbal & _);
    [reflexivity | reflexivity | reflexivity | discriminate | discriminate |].
  exists r. split; [exact Hrun|exact Hbal].
Defined.

(** ** Validation *)

(** X7. With a fresh transaction id and an active session, a debit whose
    amount is zero or negative and a credit whose amount is negative are
    refused with [INVALID_AMOUNT] (HTTP 400) before the wallet is read; the
    store is unchanged. *)
Theorem invalid_amount_refused
    (sessionToken transactionId roundId : string) (a : Z)
    (related : option string) (db : Db) (session : CasinoGameSession) :
  getTransactionByExternalId transactionId db = Return None db ->
  getSessionByToken sessionToken db = Return (Some session) db ->
  (a <= 0 ->
   processDebit sessionToken transactionId roundId a db =
   Throw (CasinoError "Amount must be positive" ErrorCodes.INVALID_AMOUNT 400)
     db)
  /\ (a < 0 ->
      processCredit sessionToken transactionId roundId a related db =
      Throw (CasinoError "Amount cannot be negative"
               ErrorCodes.INVALID_AMOUNT 400) db).
Proof.
  intros Hfresh Hsess. split; intros Ha.
  - unfold processDebit, bind. rewrite Hfresh, Hsess.
    destruct (Z.leb_spec a 0) as [_|Hgt]; [reflexivity|lia].
  - unfold processCredit, bind. rewrite Hfresh, Hsess.
    destruct (Z.ltb_spec a 0) as [_|Hge]; [reflexivity|lia].
Qed.

Lemma invalid_amount_refused_witness :
  processDebit "tok" "t1" "round1" 0 (sample_db 10000) =
  Throw (CasinoError "Amount must be positive" ErrorCodes.INVALID_AMOUNT 400)
    (sample_db 10000).
Proof.
  apply (proj1 (invalid_amount_refused "tok" "t1" "round1" 0 None
                  (sample_db 10000) sample_session eq_refl eq_refl)).
  discriminate.
Defined.

(** X8. With a fresh transaction id and a token that resolves to no active
    session, a debit and a credit are refused with [INVALID_SESSION] (HTTP
    401), and so is a rollback whose original is not in the ledger; the store
    is unchanged. *)
Theorem invalid_session_refused
    (sessionToken transactionId roundId originalTransactionId : string)
    (a : Z) (related reason : option string) (db : Db) :
  getTransactionByExternalId transactionId db = Return None db ->
  getSessionByToken sessionToken db = Return None db ->
  let refusal :=
    CasinoError "Invalid or expired session" ErrorCodes.INVALID_SESSION 401 in
  processDebit sessionToken transactionId roundId a db = Throw refusal db
  /\ processCredit sessionToken transactionId roundId a related db
     = Throw refusal db
  /\ (getTransactionByExternalId originalTransactionId db = Return None db ->
      processRollback sessionToken transactionId originalTransactionId reason
        db = Throw refusal db).
Proof.
  intros Hfresh Hsess refusal. repeat split.
  - unfold processDebit, bind. rewrite Hfresh, Hsess. reflexivity.
  - unfold processCredit, bind. rewrite Hfresh, Hsess. reflexivity.
  - intros Horig. unfold processRollback, bind.
    rewrite Hfresh, Horig, Hsess. reflexivity.
Qed.

Lemma invalid_session_refused_witness :
  processDebit "stale" "t1" "round1" 100 (sample_db 10000) =
  Throw (CasinoError "Invalid or expired session"
           ErrorCodes.INVALID_SESSION 401) (sample_db 10000).
Proof.
  apply (invalid_session_refused "stale" "t1" "round1" "t0" 100 None None
           (sample_db 10000) eq_refl eq_refl).
Defined.

(** ** Replays look at the transaction id only *)

(** X9. When the transaction id of a debit or a credit request is in the
    ledger, the request is answered as a duplicate success with the store
    unchanged, before the session or the amount is looked at and whatever the
    kind of the entry: a debit and a credit request with that id, with any
    token, round and amount, get one and the same answer. *)
Theorem replay_ignores_session_amount_and_kind
    (transactionId : string) (db : Db) (existing : CasinoTransaction)
    (sessionToken roundId : string) (a : Z)
    (sessionToken' roundId' : string) (a' : Z) (related : option string) :
  getTransactionByExternalId transactionId db = Return (Some existing) db ->
  exists r : MoneyResult,
    processDebit sessionToken transactionId roundId a db = Return r db
    /\ processCredit sessionToken' transactionId roundId' a' related db
       = Return r db
    /\ res_transaction r = Some existing
    /\ isDuplicate r = true.
Proof.
  intros Hfound.
  rewrite (processDebit_duplicate _ _ _ _ _ _ Hfound).
  rewrite (processCredit_duplicate _ _ _ _ _ _ _ Hfound).
  rewrite duplicate_result_spec. eexists. repeat split.
Qed.

Lemma replay_ignores_session_amount_and_kind_witness :
  let db := run [rollback_req "r9" "ghost"] (sample_db 10000) in
  exists r : MoneyResult,
    processDebit "no-session" "r9" "round1" (-5) db = Return r db
    /\ processCredit "tok" "r9" "round2" 700 None db = Return r db
    /\ (transaction_type <$> res_transaction r) = Some rollback.
Proof.
  intros db.
  destruct (replay_ignores_session_amount_and_kind "r9" db
              (tombstone_entry (sample_db 10000) sample_session
                 (sample_wallet 10000) "r9" "ghost")
              "no-session" "round1" (-5) "tok" "round2" 700 None eq_refl)
    as (r & H1 & H2 & H3 & _).
  exists r. split; [exact H1|]. split; [exact H2|]. rewrite H3. reflexivity.
Defined.

(** ** More on rollbacks *)

(** X10. When the original of a rollback is in the ledger, the session token of
    the request is never looked up: two rollback requests that differ only in
    their token have the same outcome.  The money a reversal gives back goes
    to the wallet of the original debit, whoever asks. *)
Theorem rollback_of_known_original_ignores_session
    (sessionToken sessionToken' transactionId originalTransactionId : string)
    (reason : option string) (db : Db) (original : CasinoTransaction) :
  getTransactionByExternalId originalTransactionId db =
    Return (Some original) db ->
  processRollback sessionToken transactionId originalTransactionId reason db =
  processRollback sessionToken' transactionId originalTransactionId reason db.
Proof.
  intros Horig. apply Return_inv in Horig.
  unfold processRollback, bind, getTransactionByExternalId.
  destruct (find (has_external_id transactionId) (casino_transactions db));
    [reflexivity|].
  rewrite Horig. reflexivity.
Qed.

Lemma rollback_of_known_original_ignores_session_witness :
  let db := run [debit_req "t1" 2000] (sample_db 10000) in
  getSessionByToken "not-a-session" db = Return None db
  /\ casino_wallets
       (final_db (processRollback "not-a-session" "r1" "t1" None db)) !! "w1"
     = Some (sample_wallet 10000).
Proof.
  intros db. split; [reflexivity|].
  rewrite (rollback_of_known_original_ignores_session "not-a-session" "tok"
             "r1" "t1" None db
             (debit_entry (sample_db 10000) sample_session
                (sample_wallet 10000) "t1" 2000) eq_refl).
  reflexivity.
Defined.

(** The path of [processRollback] that records an already-rolled-back
    marker. *)
Lemma processRollback_marks
    (sessionToken transactionId originalTransactionId : string)
    (reason : option string) (db : Db) (original x : CasinoTransaction)
    (xs : list CasinoTransaction) (w : CasinoWallet) :
  getTransactionByExternalId transactionId db = Return None db ->
  getTransactionByExternalId originalTransactionId db =
    Return (Some original) db ->
  is_rollback original = false ->
  select_rollbacks_of originalTransactionId db = Return (x :: xs) db ->
  casino_wallets db !! wallet_id original = Some w ->
  processRollback sessionToken transactionId originalTransactionId reason db =
  Return
    {| rb_transaction := None;
       rb_balance := playable_balance w;
       rb_currency := or_str (Some (currency_code w)) "USD";
       rolledBack := true;
       rb_message := "Transaction was already rolled back" |}
    (recorded db
       (casino_transactions db
          ++ [marker_entry db original transactionId originalTransactionId])).
Proof.
  intros Hfresh Horig Hflag Hrefs Hw.
  unfold processRollback, bind, marker_entry.
  rewrite Hfresh, Horig, Hflag, Hrefs.
  change ((0 <? length (x :: xs))%nat) with true. cbv iota.
  unfold getWalletById. rewrite Hw. unfold uuidv4.
  apply Return_inv in Hfresh.
  rewrite insert_transaction_fresh by exact Hfresh.
  change (playable_balance <$> Some w) with (Some (playable_balance w)).
  rewrite !or_num_zero. reflexivity.
Qed.

(** X11. A rollback (fresh own id) of an original whose flag is off but which
    some rollback entry already refers to records a marker of amount 0 with
    [alreadyRolledBack: true], answers [rolledBack = true] and moves no
    money.  The kind of the original is not looked at before: a credit that
    arrived after its tombstone gets the marker, not
    [CANNOT_ROLLBACK_PAYOUT]. *)
Theorem rollback_after_earlier_rollback_entry_records_marker
    (sessionToken transactionId originalTransactionId : string)
    (reason : option string) (db : Db) (original x : CasinoTransaction)
    (xs : list CasinoTransaction) (w : CasinoWallet) :
  getTransactionByExternalId transactionId db = Return None db ->
  getTransactionByExternalId originalTransactionId db =
    Return (Some original) db ->
  is_rollback original = false ->
  select_rollbacks_of originalTransactionId db = Return (x :: xs) db ->
  casino_wallets db !! wallet_id original = Some w ->
  let t := marker_entry db original transactionId originalTransactionId in
  let db' := recorded db (casino_transactions db ++ [t]) in
  processRollback sessionToken transactionId originalTransactionId reason db =
  Return
    {| rb_transaction := None;
       rb_balance := playable_balance w;
       rb_currency := or_str (Some (currency_code w)) "USD";
       rolledBack := true;
       rb_message := "Transaction was already rolled back" |} db'
  /\ casino_wallets db' = casino_wallets db
  /\ amount t = 0
  /\ balance_after t = playable_balance w
  /\ response_cache t = Some (CacheAlreadyRolledBack true).
Proof.
  intros Hfresh Horig Hflag Hrefs Hw t db'.
  split; [exact (processRollback_marks sessionToken transactionId
                   originalTransactionId reason db original x xs w Hfresh
                   Horig Hflag Hrefs Hw)|].
  repeat split.
  exact (marker_entry_balance db original transactionId
           originalTransactionId w Hw).
Qed.

Lemma rollback_after_earlier_rollback_entry_records_marker_witness :
  let db :=
    run [rollback_req "r9" "c1"; credit_req "c1" 300 None] (sample_db 10000)
  in
  exists db' : Db,
    processRollback "tok" "r1" "c1" None db =
    Return
      {| rb_transaction := None;
         rb_balance := 10300;
         rb_currency := "USD";
         rolledBack := true;
         rb_message := "Transaction was already rolled back" |} db'
    /\ casino_wallets db' = casino_wallets db.
Proof.
  intros db. eexists.
  refine (let H :=
            rollback_after_earlier_rollback_entry_records_marker "tok" "r1"
              "c1" None db
              (credit_entry (run [rollback_req "r9" "c1"] (sample_db 10000))
                 sample_session (sample_wallet 10000) "c1" 300 None)
              (tombstone_entry (sample_db 10000) sample_session
                 (sample_wallet 10000) "r9" "c1")
              [] (sample_wallet 10300) eq_refl eq_refl eq_refl eq_refl eq_refl
          in conj (proj1 H) (proj1 (proj2 H))).
Defined.

(** X12. In a store the callbacks have produced, a rollback (fresh own id)
    whose original is itself a rollback entry, a tombstone or a marker
    included, is answered [rolledBack = false] and changes nothing. *)
Theorem rollback_of_rollback_entry_refused
    (sessionToken transactionId originalTransactionId : string)
    (reason : option string) (db : Db) (original : CasinoTransaction) :
  reachable db ->
  getTransactionByExternalId transactionId db = Return None db ->
  getTransactionByExternalId originalTransactionId db =
    Return (Some original) db ->
  transaction_type original = rollback ->
  exists r : RollbackResult,
    processRollback sessionToken transactionId originalTransactionId reason db
    = Return r db
    /\ rolledBack r = false
    /\ rb_transaction r = None
    /\ rb_message r = "Cannot rollback a rollback transaction".
Proof.
  intros Hreach Hfresh Horig Hty.
  assert (Hflag : is_rollback original = true).
  { apply (inv_rollback_flag db (reachable_inv db Hreach)); [|exact Hty].
    apply Return_inv in Horig. apply find_some in Horig as [Hin _].
    exact Hin. }
  unfold processRollback, bind. rewrite Hfresh, Horig, Hflag.
  eexists. split; [reflexivity|]. simpl. auto.
Qed.

Lemma rollback_of_rollback_entry_refused_witness :
  let db := run [rollback_req "r9" "ghost"] (sample_db 10000) in
  exists r : RollbackResult,
    processRollback "tok" "r10" "r9" None db = Return r db
    /\ rolledBack r = false.
Proof.
  intros db.
  destruct (rollback_of_rollback_entry_refused "tok" "r10" "r9" None db
              (tombstone_entry (sample_db 10000) sample_session
                 (sample_wallet 10000) "r9" "ghost"))
    as (r & Hrun & Hrb & _);
    [|reflexivity|reflexivity|reflexivity|].
  - exists (sample_db 10000), [rollback_req "r9" "ghost"].
    split; [apply sample_db_initial; discriminate|reflexivity].
  - exists r. split; [exact Hrun|exact Hrb].
Defined.

Lemma CasinoError_not_violation (message code : string) (statusCode : nat) :
  CasinoError message code statusCode <> check_violation
  /\ CasinoError message code statusCode <> unique_violation.
Proof. split; discriminate. Qed.

(** X13. In a store the callbacks have produced, what a debit, a credit or a
    rollback throws is never the violation of
    [CHECK (playable_balance >= 0)] (SQLSTATE 23514) nor that of
    [UNIQUE (external_transaction_id)] (SQLSTATE 23505): the guards of the
    service refuse the request before a statement can break either
    constraint.  Errors the driver raises for a value that does not fit its
    column are outside the model. *)
Theorem constraints_never_violated (db : Db) :
  reachable db ->
  (forall sessionToken transactionId roundId a e db',
     processDebit sessionToken transactionId roundId a db = Throw e db' ->
     e <> check_violation /\ e <> unique_violation)
  /\ (forall sessionToken transactionId roundId a related e db',
        processCredit sessionToken transactionId roundId a related db
          = Throw e db' ->
        e <> check_violation /\ e <> unique_violation)
  /\ (forall sessionToken transactionId originalTransactionId reason e db',
        processRollback sessionToken transactionId originalTransactionId
          reason db = Throw e db' ->
        e <> check_violation /\ e <> unique_violation).
Proof.
  intros Hreach. pose proof (reachable_inv db Hreach) as Hinv.
  split; [|split].
  - intros tok tid rid a e db' Hrun.
    destruct (processDebit_throws _ _ _ _ _ _ _ Hrun) as (m & c & st & ->).
    apply CasinoError_not_violation.
  - intros tok tid rid a related e db' Hrun.
    destruct (processCredit_throws _ _ _ _ _ _ _ _ (inv_balances db Hinv)
                Hrun) as (m & c & st & ->).
    apply CasinoError_not_violation.
  - intros tok tid oid reason e db' Hrun.
    destruct (processRollback_throws _ _ _ _ _ _ _ Hinv Hrun)
      as (m & c & st & ->).
    apply CasinoError_not_violation.
Qed.

Lemma constraints_never_violated_witness :
  let db := run [debit_req "t1" 10000] (sample_db 10000) in
  let e := CasinoError "Insufficient funds" ErrorCodes.INSUFFICIENT_FUNDS 400 in
  casino_wallets db !! "w1" = Some (sample_wallet 0)
  /\ processDebit "tok" "t2" "round1" 1 db = Throw e db
  /\ e <> check_violation /\ e <> unique_violation.
Proof.
  intros db e. split; [reflexivity|]. split; [reflexivity|].
  refine (proj1 (constraints_never_violated db _) "tok" "t2" "round1" 1 e db
            _); [|reflexivity].
  exists (sample_db 10000), [debit_req "t1" 10000].
  split; [apply sample_db_initial; discriminate|reflexivity].
Defined.

(** ** A debit that arrives after its tombstone *)

(** The path of [processRollback] that records a tombstone. *)
Lemma processRollback_buries
    (sessionToken transactionId originalTransactionId : string)
    (reason : option string) (db : Db) (session : CasinoGameSession)
    (w : CasinoWallet) :
  getTransactionByExternalId transactionId db = Return None db ->
  getTransactionByExternalId originalTransactionId db = Return None db ->
  getSessionByToken sessionToken db = Return (Some session) db ->
  casino_wallets db !! session_wallet_id session = Some w ->
  final_db
    (processRollback sessionToken transactionId originalTransactionId reason
       db) =
  recorded db
    (casino_transactions db
       ++ [tombstone_entry db session w transactionId originalTransactionId]).
Proof.
  intros Hfresh Horig Hsess Hw.
  unfold processRollback, bind. rewrite Hfresh, Horig, Hsess.
  unfold getWalletById. rewrite Hw. unfold uuidv4.
  apply Return_inv in Hfresh.
  rewrite insert_transaction_fresh by exact Hfresh. reflexivity.
Qed.

Lemma find_snoc_other (externalId : string) (ts : list CasinoTransaction)
    (t : CasinoTransaction) :
  external_transaction_id t <> externalId ->
  find (has_external_id externalId) (ts ++ [t]) =
  find (has_external_id externalId) ts.
Proof.
  intros Hne. rewrite find_snoc.
  destruct (find (has_external_id externalId) ts); [reflexivity|].
  unfold has_external_id.
  destruct (String.eqb_spec (external_transaction_id t) externalId);
    [contradiction|reflexivity].
Qed.

(** X14. A tombstone does not reserve the id of the original it names.  After a
    rollback [R] of an unknown original [X] has recorded its tombstone, a
    debit with transaction id [X] is accepted and takes its amount; a later
    rollback [R2] of [X] then answers [rolledBack = true] but only records a
    marker: the balance stays at the debited value. *)
Theorem debit_after_tombstone_is_accepted_and_kept
    (sessionToken R X R2 roundId : string) (a : Z)
    (reason reason2 : option string) (db : Db) (session : CasinoGameSession)
    (w : CasinoWallet) :
  getTransactionByExternalId R db = Return None db ->
  getTransactionByExternalId X db = Return None db ->
  getTransactionByExternalId R2 db = Return None db ->
  R <> X -> R2 <> R -> R2 <> X ->
  getSessionByToken sessionToken db = Return (Some session) db ->
  casino_wallets db !! session_wallet_id session = Some w ->
  0 < a -> a <= playable_balance w ->
  let db1 := final_db (processRollback sessionToken R X reason db) in
  let db2 := final_db (processDebit sessionToken X roundId a db1) in
  let out := processRollback sessionToken R2 X reason2 db2 in
  casino_wallets db1 = casino_wallets db
  /\ casino_wallets db2 !! session_wallet_id session =
     Some (set_playable_balance w (playable_balance w - a))
  /\ (exists r : RollbackResult,
        out = Return r (final_db out)
        /\ rolledBack r = true
        /\ rb_message r = "Transaction was already rolled back"
        /\ rb_balance r = playable_balance w - a)
  /\ casino_wallets (final_db out) = casino_wallets db2.
Proof.
  intros HR HX HR2 HRX HR2R HR2X Hsess Hw Ha Hfunds db1 db2 out.
  pose proof (processRollback_buries sessionToken R X reason db session w
                HR HX Hsess Hw) as E1.
  fold db1 in E1.
  apply Return_inv in HR. apply Return_inv in HX. apply Return_inv in HR2.
  set (tomb := tombstone_entry db session w R X) in *.
  (* the debit *)
  assert (HX1 : getTransactionByExternalId X db1 = Return None db1).
  { unfold getTransactionByExternalId. f_equal. rewrite E1. simpl.
    rewrite find_snoc_other by exact HRX. exact HX. }
  assert (Hsess1 : getSessionByToken sessionToken db1
                   = Return (Some session) db1).
  { unfold getSessionByToken in *. apply Return_inv in Hsess.
    f_equal. rewrite E1. simpl. exact Hsess. }
  assert (Hw1 : casino_wallets db1 !! session_wallet_id session = Some w).
  { rewrite E1. exact Hw. }
  destruct (processDebit_commits sessionToken X roundId a db1 session w
              HX1 Hsess1 Hw1 Ha Hfunds) as (r1 & Hrun1 & _).
  set (bet := debit_entry db1 session w X a) in *.
  assert (E2 : db2 =
    committed db1 (session_wallet_id session) w (playable_balance w - a)
      (casino_transactions db1 ++ [bet])).
  { unfold db2. rewrite Hrun1. reflexivity. }
  assert (Hw2 : casino_wallets db2 !! wallet_id bet =
                Some (set_playable_balance w (playable_balance w - a))).
  { rewrite E2. simpl. apply lookup_insert_eq. }
  (* the second rollback *)
  assert (Hledger2 : casino_transactions db2 =
                     (casino_transactions db ++ [tomb]) ++ [bet]).
  { rewrite E2. simpl. rewrite E1. reflexivity. }
  assert (HR22 : getTransactionByExternalId R2 db2 = Return None db2).
  { unfold getTransactionByExternalId. f_equal. rewrite Hledger2.
    rewrite find_snoc_other by (simpl; congruence).
    rewrite find_snoc_other by (simpl; congruence). exact HR2. }
  assert (HX2 : getTransactionByExternalId X db2 = Return (Some bet) db2).
  { unfold getTransactionByExternalId. f_equal. rewrite Hledger2.
    apply find_snoc_fresh; [|reflexivity].
    rewrite find_snoc_other by exact HRX. exact HX. }
  assert (Hrefs : exists x xs,
            select_rollbacks_of X db2 = Return (x :: xs) db2).
  { unfold select_rollbacks_of. rewrite Hledger2, !List.filter_app. simpl.
    unfold is_rollback_of at 2. simpl. rewrite String.eqb_refl. simpl.
    destruct (List.filter (is_rollback_of X) (casino_transactions db))
      as [|y ys]; simpl; eauto. }
  destruct Hrefs as (x & xs & Hrefs).
  pose proof (processRollback_marks sessionToken R2 X reason2 db2 bet x xs
                (set_playable_balance w (playable_balance w - a))
                HR22 HX2 eq_refl Hrefs Hw2) as Hrun3.
  fold out in Hrun3.
  split; [rewrite E1; reflexivity|]. split; [exact Hw2|].
  rewrite Hrun3. simpl. split; [|reflexivity].
  eexists. split; [reflexivity|]. simpl. auto.
Qed.

Lemma debit_after_tombstone_is_accepted_and_kept_witness :
  let db1 := final_db (processRollback "tok" "r9" "t1" None (sample_db 10000))
  in
  let db2 := final_db (processDebit "tok" "t1" "round1" 2000 db1) in
  let out := processRollback "tok" "r1" "t1" None db2 in
  casino_wallets db2 !! "w1" = Some (sample_wallet 8000)
  /\ casino_wallets (final_db out) = casino_wallets db2.
Proof.
  intros db1 db2 out.
  destruct (debit_after_tombstone_is_accepted_and_kept "tok" "r9" "t1" "r1"
              "round1" 2000 None None (sample_db 10000) sample_session
              (sample_wallet 10000))
    as (_ & Hw2 & _ & Hkeep);
    [ reflexivity | reflexivity | reflexivity | discriminate | discriminate
    | discriminate | reflexivity | reflexivity | reflexivity | discriminate
    | ].
  split; [exact Hw2|exact Hkeep].
Defined.

(** ** Balance read *)

(** X15. However many debit, credit and rollback requests have been handled
    since the ledger was empty, [getBalance] on a session that was active then
    succeeds, changes nothing, and reports the opening balance of the
    session's wallet plus the signed amounts of that wallet's ledger entries,
    in the wallet's currency. *)
Theorem getBalance_reports_opening_plus_ledger
    (db0 : Db) (rs : list Request) (sessionToken : string)
    (session : CasinoGameSession) (w0 : CasinoWallet) :
  initial db0 ->
  getSessionByToken sessionToken db0 = Return (Some session) db0 ->
  casino_wallets db0 !! session_wallet_id session = Some w0 ->
  getBalance sessionToken (run rs db0) =
  Return
    {| bal_balance :=
         playable_balance w0
         + net_amount (session_wallet_id session)
             (casino_transactions (run rs db0));
       bal_currency := currency_code w0;
       bal_session := session |}
    (run rs db0).
Proof.
  intros Hinit Hsess Hw0.
  pose proof (initial_inv db0 Hinit) as Hinv.
  destruct (run_keeps_identity rs db0 Hinv) as [Hss Hid].
  pose proof (run_moves_balance_by_ledger rs db0 (session_wallet_id session)
                Hinv) as Hbal.
  specialize (Hid (session_wallet_id session)).
  rewrite Hw0 in Hid, Hbal. destruct Hinit as [Hl _]. rewrite Hl in Hbal.
  unfold getBalance, bind, getSessionByToken in *. rewrite Hss.
  apply Return_inv in Hsess. rewrite Hsess. unfold getWalletById.
  destruct (casino_wallets (run rs db0) !! session_wallet_id session)
    as [w|]; [|discriminate].
  simpl in Hid, Hbal. injection Hid as _ Hcur _. injection Hbal as Hbal.
  unfold ret. rewrite Hbal, Hcur. do 2 f_equal.
  unfold net_amount at 2. simpl. lia.
Qed.

Lemma getBalance_reports_opening_plus_ledger_witness :
  let db :=
    run [debit_req "t1" 2000; debit_req "t2" 1000;
         credit_req "c1" 3000 (Some "t2"); rollback_req "r1" "t1"]
      (sample_db 10000) in
  bal_balance
    <$> (match getBalance "tok" db with
         | Return r _ => Some r
         | Throw _ _ => None
         end) = Some 12000.
Proof.
  intros db. unfold db.
  rewrite (getBalance_reports_opening_plus_ledger (sample_db 10000) _ "tok"
             sample_session (sample_wallet 10000)
             (sample_db_initial 10000 ltac:(discriminate)) eq_refl eq_refl).
  reflexivity.
Defined.

(** ** Ending a session *)

Lemma find_after_end_same_token (sessionToken : string)
    (ss : list CasinoGameSession) :
  find (fun s => String.eqb (token s) sessionToken && is_active s)
    (map (end_row sessionToken) ss) = None.
Proof.
  induction ss as [|s ss IH]; simpl; [reflexivity|].
  unfold end_row at 1 2.
  destruct (String.eqb (token s) sessionToken) eqn:E; simpl.
  - rewrite E. simpl. exact IH.
  - rewrite E. simpl. exact IH.
Qed.

Lemma find_after_end_other_token (sessionToken other : string)
    (ss : list CasinoGameSession) :
  other <> sessionToken ->
  find (fun s => String.eqb (token s) other && is_active s)
    (map (end_row sessionToken) ss) =
  find (fun s => String.eqb (token s) other && is_active s) ss.
Proof.
  intros Hne. induction ss as [|s ss IH]; simpl; [reflexivity|].
  unfold end_row at 1 2 3.
  destruct (String.eqb_spec (token s) sessionToken) as [E|NE]; simpl.
  - destruct (String.eqb_spec (token s) other) as [E'|_]; [congruence|].
    simpl. exact IH.
  - destruct (String.eqb (token s) other && is_active s);
      [reflexivity|exact IH].
Qed.

(** X16. After [endSession] on a token, the token resolves to no session, so
    [getBalance] and any debit with a fresh transaction id are refused with
    [INVALID_SESSION]; every other token resolves as before, and the wallets
    and the ledger are untouched. *)
Theorem ended_session_is_refused
    (sessionToken transactionId roundId : string) (a : Z) (db : Db) :
  let db' := final_db (endSession sessionToken db) in
  let refusal :=
    CasinoError "Invalid or expired session" ErrorCodes.INVALID_SESSION 401 in
  getSessionByToken sessionToken db' = Return None db'
  /\ getBalance sessionToken db' = Throw refusal db'
  /\ (getTransactionByExternalId transactionId db = Return None db ->
      processDebit sessionToken transactionId roundId a db'
      = Throw refusal db')
  /\ (forall other session,
        other <> sessionToken ->
        getSessionByToken other db = Return session db ->
        getSessionByToken other db' = Return session db')
  /\ casino_wallets db' = casino_wallets db
  /\ casino_transactions db' = casino_transactions db.
Proof.
  intros db' refusal.
  assert (Hgone : getSessionByToken sessionToken db' = Return None db').
  { unfold getSessionByToken. f_equal. simpl.
    apply find_after_end_same_token. }
  split; [exact Hgone|]. split.
  { unfold getBalance, bind. rewrite Hgone. reflexivity. }
  split.
  { intros Hfresh. apply Return_inv in Hfresh.
    unfold processDebit, bind.
    assert (Hfresh' : getTransactionByExternalId transactionId db'
                      = Return None db').
    { unfold getTransactionByExternalId. f_equal. exact Hfresh. }
    rewrite Hfresh', Hgone. reflexivity. }
  split; [|split; reflexivity].
  intros other session Hne Hs. apply Return_inv in Hs.
  unfold getSessionByToken. f_equal. simpl.
  rewrite find_after_end_other_token by exact Hne. exact Hs.
Qed.

Lemma ended_session_is_refused_witness :
  let db' := final_db (endSession "tok" (sample_db 10000)) in
  processDebit "tok" "t1" "round1" 100 db' =
  Throw (CasinoError "Invalid or expired session"
           ErrorCodes.INVALID_SESSION 401) db'.
Proof.
  intros db'.
  apply (proj1 (proj2 (proj2
           (ended_session_is_refused "tok" "t1" "round1" 100
              (sample_db 10000))))).
  reflexivity.
Defined.

(** X17. Ending the session does not close the books on what it did: a replay
    of a transaction id it used is still answered as a duplicate success, and
    a rollback of one of its debits still gives the money back. *)
Theorem ended_session_still_replays_and_rolls_back
    (sessionToken transactionId roundId rollbackId : string) (a : Z)
    (reason : option string) (db : Db) (original : CasinoTransaction)
    (w : CasinoWallet) :
  getTransactionByExternalId transactionId db = Return (Some original) db ->
  getTransactionByExternalId rollbackId db = Return None db ->
  transaction_type original = debit ->
  is_rollback original = false ->
  select_rollbacks_of transactionId db = Return [] db ->
  casino_wallets db !! wallet_id original = Some w ->
  0 <= playable_balance w + amount original ->
  let db' := final_db (endSession sessionToken db) in
  (exists r : MoneyResult,
     processDebit sessionToken transactionId roundId a db' = Return r db'
     /\ isDuplicate r = true)
  /\ (exists r : RollbackResult,
        processRollback sessionToken rollbackId transactionId reason db' =
        Return r
          (committed db' (wallet_id original) w
             (playable_balance w + amount original)
             (mark_rolled_back (txn_id original) (casino_transactions db)
                ++ [rollback_entry db' original w rollbackId transactionId
                      reason]))
        /\ rolledBack r = true
        /\ rb_balance r = playable_balance w + amount original).
Proof.
  intros Horig Hfresh Hty Hflag Hrefs Hw Hnn db'.
  apply Return_inv in Horig. apply Return_inv in Hfresh.
  apply Return_inv in Hrefs.
  assert (Horig' : getTransactionByExternalId transactionId db'
                   = Return (Some original) db').
  { unfold getTransactionByExternalId. f_equal. exact Horig. }
  split.
  - rewrite (processDebit_duplicate _ _ _ _ _ _ Horig'),
      duplicate_result_spec.
    eexists. split; reflexivity.
  - destruct (processRollback_reverses sessionToken rollbackId transactionId
                reason db' original w) as (r & Hrun & Hrb & Hbal & _);
      try assumption.
    + unfold getTransactionByExternalId. f_equal. exact Hfresh.
    + unfold select_rollbacks_of. f_equal. exact Hrefs.
    + exists r. split; [exact Hrun|]. split; [exact Hrb|exact Hbal].
Qed.

Lemma ended_session_still_replays_and_rolls_back_witness :
  let db := run [debit_req "t1" 2000] (sample_db 10000) in
  let db' := final_db (endSession "tok" db) in
  casino_wallets
    (final_db (processRollback "tok" "r1" "t1" None db')) !! "w1"
  = Some (sample_wallet 10000).
Proof.
  intros db db'.
  destruct (ended_session_still_replays_and_rolls_back "tok" "t1" "round1"
              "r1" 2000 None db
              (debit_entry (sample_db 10000) sample_session
                 (sample_wallet 10000) "t1" 2000)
              (sample_wallet 8000))
    as (_ & r & Hrun & _);
    [ reflexivity | reflexivity | reflexivity | reflexivity | reflexivity
    | reflexivity | discriminate | ].
  fold db' in Hrun. rewrite Hrun. reflexivity.
Defined.

(** ** Game launch *)

Lemma find_app_some {A : Type} (p : A -> bool) (l l' : list A) (x : A) :
  find p l = Some x -> find p (l ++ l') = Some x.
Proof.
  induction l as [|y l IH]; simpl; [discriminate|].
  destruct (p y); [auto|exact IH].
Qed.

Lemma find_app_none {A : Type} (p : A -> bool) (l l' : list A) :
  find p l = None -> find p (l ++ l') = find p l'.
Proof.
  induction l as [|y l IH]; simpl; [reflexivity|].
  destruct (p y); [discriminate|exact IH].
Qed.

Lemma no_clash_find_key (sessionId sessionToken : string)
    (ss : list CasinoGameSession) :
  existsb (clashes_with sessionId sessionToken) ss = false ->
  find (fun s => String.eqb (session_key s) sessionId) ss = None
  /\ find (fun s => String.eqb (token s) sessionToken && is_active s) ss
     = None.
Proof.
  induction ss as [|s ss IH]; simpl; [auto|].
  unfold clashes_with at 1. intros H.
  apply orb_false_iff in H as [H1 H2].
  apply orb_false_iff in H1 as [Hk Ht].
  rewrite Hk, Ht. simpl. exact (IH H2).
Qed.



(** The outcome of a launch once the user, the game and the provider have
    been found and the wallet [wallet] is at hand. *)
Lemma insert_session_opens (sessionId sessionToken walletId : string)
    (db : Db) :
  existsb (clashes_with sessionId sessionToken) (casino_game_sessions db)
    = false ->
  let db' :=
    with_sessions db
      (casino_game_sessions db
         ++ [new_session sessionId sessionToken walletId]) in
  insert_session sessionId sessionToken walletId db = Return tt db'
  /\ getSessionById sessionId db' =
     Return (Some (new_session sessionId sessionToken walletId)) db'
  /\ getSessionByToken sessionToken db' =
     Return (Some (new_session sessionId sessionToken walletId)) db'.
Proof.
  intros Hfree db'. destruct (no_clash_find_key _ _ _ Hfree) as [Hk Ht].
  split; [unfold insert_session; rewrite Hfree; reflexivity|].
  split.
  - unfold getSessionById. f_equal. simpl.
    rewrite (find_app_none _ _ _ Hk). simpl.
    rewrite String.eqb_refl. reflexivity.
  - unfold getSessionByToken. f_equal. simpl.
    rewrite (find_app_none _ _ _ Ht). simpl.
    rewrite String.eqb_refl. reflexivity.
Qed.

(** X19. A launch for an existing user, an active game of an enabled provider
    and a wallet the user already has in the currency, with a session id and
    a token no session carries, appends one active session bound to that
    wallet and returns it.  The wallets and the ledger are unchanged, the new
    token resolves to the new session, and [getBalance] on it reports the
    wallet's balance. *)
Theorem launch_opens_session_on_existing_wallet
    (catalog : Catalog) (walletId sessionId sessionToken : string)
    (userId gameId currency : string) (db : Db) (user : CasinoUser)
    (game : CasinoGame) (provider : CasinoGameProvider)
    (wid : string) (w : CasinoWallet) :
  casino_users catalog !! userId = Some user ->
  casino_games catalog !! gameId = Some game ->
  game_is_active game = true ->
  casino_game_providers catalog !! provider_id game = Some provider ->
  is_disabled provider = false ->
  getWallet userId currency db = Return (Some (wid, w)) db ->
  existsb (clashes_with sessionId sessionToken) (casino_game_sessions db)
    = false ->
  let session := new_session sessionId sessionToken wid in
  let db' := with_sessions db (casino_game_sessions db ++ [session]) in
  launchGame catalog walletId sessionId sessionToken userId gameId currency db
    = Return {| launch_session := session; launch_wallet := (wid, w);
                launch_game := game; launch_provider := provider |} db'
  /\ getSessionByToken sessionToken db' = Return (Some session) db'
  /\ getBalance sessionToken db' =
     Return {| bal_balance := playable_balance w;
               bal_currency := currency_code w;
               bal_session := session |} db'
  /\ casino_wallets db' = casino_wallets db
  /\ casino_transactions db' = casino_transactions db.
Proof.
  intros Hu Hg Hact Hp Hen Hwal Hfree session db'.
  destruct (insert_session_opens sessionId sessionToken wid db Hfree)
    as (Hins & Hbyid & Hbytok).
  fold session in Hins, Hbyid, Hbytok. fold db' in Hins, Hbyid, Hbytok.
  assert (Hw : casino_wallets db !! wid = Some w).
  { apply Return_inv in Hwal. apply find_some in Hwal as [Hin _].
    apply list_elem_of_In in Hin. apply elem_of_map_to_list in Hin.
    exact Hin. }
  split.
  { unfold launchGame. rewrite Hu, Hg, Hact, Hp, Hen. cbn [negb].
    unfold bind. rewrite Hwal. unfold ret. cbn [fst].
    rewrite Hins, Hbyid. reflexivity. }
  split; [exact Hbytok|]. split; [|split; reflexivity].
  unfold getBalance, bind. rewrite Hbytok. unfold getWalletById.
  change (casino_wallets db') with (casino_wallets db).
  change (session_wallet_id session) with wid. rewrite Hw. reflexivity.
Qed.

Lemma launch_opens_session_on_existing_wallet_witness :
  let db :=
    {| casino_wallets := {[ "w1" := new_wallet "u1" "USD" ]};
       casino_game_sessions := [sample_session];
       casino_transactions := [];
       next_uuid := 0 |} in
  exists (r : LaunchResult) (db' : Db),
    launchGame sample_catalog "w9" "s2" "tok2" "u1" "g1" "USD" db
      = Return r db'
    /\ launch_wallet r = ("w1", new_wallet "u1" "USD")
    /\ casino_game_sessions db' =
       [sample_session; new_session "s2" "tok2" "w1"].
Proof.
  intros db. eexists. eexists.
  refine (conj (proj1 (launch_opens_session_on_existing_wallet sample_catalog
                         "w9" "s2" "tok2" "u1" "g1" "USD" db _ _ _ "w1"
                         (new_wallet "u1" "USD")
                         eq_refl eq_refl eq_refl eq_refl eq_refl eq_refl
                         eq_refl)) _).
  split; reflexivity.
Defined.

Lemma insert_wallet_creates (walletId userId currency : string) (db : Db) :
  casino_wallets db !! walletId = None ->
  getWallet userId currency db = Return None db ->
  let db1 :=
    with_wallets db
      (<[walletId := new_wallet userId currency]> (casino_wallets db)) in
  insert_wallet walletId userId currency db = Return tt db1
  /\ getWalletById walletId db1 =
     Return (Some (new_wallet userId currency)) db1.
Proof.
  intros Hfree Hnone db1. apply Return_inv in Hnone. split.
  - unfold insert_wallet. rewrite Hfree, Hnone. reflexivity.
  - unfold getWalletById. f_equal. simpl. apply lookup_insert_eq.
Qed.

(** X20. A launch for a user who has no wallet in the currency creates one with
    playable and redeemable balance 0 under the drawn id, and binds the new
    session to it.  No other wallet and no ledger entry changes, and a first
    debit of any positive amount on the new session is refused with
    [INSUFFICIENT_FUNDS]. *)
Theorem launch_creates_empty_wallet
    (catalog : Catalog) (walletId sessionId sessionToken : string)
    (userId gameId currency : string) (db : Db) (user : CasinoUser)
    (game : CasinoGame) (provider : CasinoGameProvider) :
  casino_users catalog !! userId = Some user ->
  casino_games catalog !! gameId = Some game ->
  game_is_active game = true ->
  casino_game_providers catalog !! provider_id game = Some provider ->
  is_disabled provider = false ->
  getWallet userId currency db = Return None db ->
  casino_wallets db !! walletId = None ->
  existsb (clashes_with sessionId sessionToken) (casino_game_sessions db)
    = false ->
  let session := new_session sessionId sessionToken walletId in
  let db' :=
    with_sessions
      (with_wallets db
         (<[walletId := new_wallet userId currency]> (casino_wallets db)))
      (casino_game_sessions db ++ [session]) in
  launchGame catalog walletId sessionId sessionToken userId gameId currency db
    = Return {| launch_session := session;
                launch_wallet := (walletId, new_wallet userId currency);
                launch_game := game; launch_provider := provider |} db'
  /\ casino_transactions db' = casino_transactions db
  /\ (forall other, other <> walletId ->
        casino_wallets db' !! other = casino_wallets db !! other)
  /\ (forall transactionId roundId a,
        getTransactionByExternalId transactionId db = Return None db ->
        0 < a ->
        processDebit sessionToken transactionId roundId a db' =
        Throw (CasinoError "Insufficient funds"
                 ErrorCodes.INSUFFICIENT_FUNDS 400) db').
Proof.
  intros Hu Hg Hact Hp Hen Hnone Hfree Hclash session db'.
  destruct (insert_wallet_creates walletId userId currency db Hfree Hnone)
    as [Hinsw Hgetw].
  set (db1 := with_wallets db
                (<[walletId := new_wallet userId currency]>
                   (casino_wallets db))) in *.
  destruct (insert_session_opens sessionId sessionToken walletId db1 Hclash)
    as (Hins & Hbyid & Hbytok).
  change (with_sessions db1
            (casino_game_sessions db1
               ++ [new_session sessionId sessionToken walletId]))
    with db' in Hins, Hbyid, Hbytok.
  fold session in Hins, Hbyid, Hbytok.
  split.
  { unfold launchGame. rewrite Hu, Hg, Hact, Hp, Hen. cbn [negb].
    unfold bind at 1 2. rewrite Hnone. unfold bind at 1 2.
    rewrite Hinsw, Hgetw. unfold ret. cbn [fmap option_fmap option_map fst].
    unfold bind. rewrite Hins, Hbyid. reflexivity. }
  split; [reflexivity|]. split.
  { intros other Hne. simpl. apply lookup_insert_ne. congruence. }
  intros transactionId roundId a Hfresh Ha.
  unfold processDebit, bind.
  assert (Hfresh' : getTransactionByExternalId transactionId db'
                    = Return None db').
  { apply Return_inv in Hfresh. unfold getTransactionByExternalId.
    f_equal. exact Hfresh. }
  rewrite Hfresh', Hbytok.
  destruct (Z.leb_spec a 0) as [Hle|_]; [lia|].
  unfold transaction, bind, select_wallet_for_update.
  change (casino_wallets db' !! session_wallet_id session)
    with (<[walletId := new_wallet userId currency]> (casino_wallets db)
            !! walletId).
  rewrite lookup_insert_eq. simpl.
  destruct (Z.ltb_spec 0 a) as [_|Hge]; [reflexivity|lia].
Qed.

Lemma launch_creates_empty_wallet_witness :
  exists (r : LaunchResult) (db' : Db),
    launchGame sample_catalog "w9" "s2" "tok2" "u1" "g1" "USD"
      (sample_db 10000) = Return r db'
    /\ casino_wallets db' !! "w9" = Some (new_wallet "u1" "USD")
    /\ casino_wallets db' !! "w1" = Some (sample_wallet 10000).
Proof.
  eexists. eexists.
  refine (conj (proj1 (launch_creates_empty_wallet sample_catalog
                         "w9" "s2" "tok2" "u1" "g1" "USD" (sample_db 10000)
                         _ _ _
                         eq_refl eq_refl eq_refl eq_refl eq_refl eq_refl
                         eq_refl eq_refl)) _).
  split; reflexivity.
Defined.

(** X21. A launch is not atomic.  When it has created the wallet and the
    session insert then fails because the drawn token or session id is
    already taken, the launch throws and the new wallet stays in the store. *)
Theorem failed_launch_keeps_created_wallet
    (catalog : Catalog) (walletId sessionId sessionToken : string)
    (userId gameId currency : string) (db : Db) (user : CasinoUser)
    (game : CasinoGame) (provider : CasinoGameProvider) :
  casino_users catalog !! userId = Some user ->
  casino_games catalog !! gameId = Some game ->
  game_is_active game = true ->
  casino_game_providers catalog !! provider_id game = Some provider ->
  is_disabled provider = false ->
  getWallet userId currency db = Return None db ->
  casino_wallets db !! walletId = None ->
  existsb (clashes_with sessionId sessionToken) (casino_game_sessions db)
    = true ->
  launchGame catalog walletId sessionId sessionToken userId gameId currency db
  = Throw unique_violation
      (with_wallets db
         (<[walletId := new_wallet userId currency]> (casino_wallets db))).
Proof.
  intros Hu Hg Hact Hp Hen Hnone Hfree Hclash.
  destruct (insert_wallet_creates walletId userId currency db Hfree Hnone)
    as [Hinsw Hgetw].
  unfold launchGame. rewrite Hu, Hg, Hact, Hp, Hen. cbn [negb].
  unfold bind at 1 2. rewrite Hnone. unfold bind at 1 2.
  rewrite Hinsw, Hgetw. unfold ret. cbn [fmap option_fmap option_map fst].
  unfold bind, insert_session. simpl. rewrite Hclash. reflexivity.
Qed.

Lemma failed_launch_keeps_created_wallet_witness :
  launchGame sample_catalog "w9" "s2" "tok" "u1" "g1" "USD" (sample_db 10000)
  = Throw unique_violation
      (with_wallets (sample_db 10000)
         (<["w9" := new_wallet "u1" "USD"]>
            (casino_wallets (sample_db 10000)))).
Proof.
  apply (failed_launch_keeps_created_wallet sample_catalog "w9" "s2" "tok"
           "u1" "g1" "USD" (sample_db 10000) _ _ _
           eq_refl eq_refl eq_refl eq_refl eq_refl eq_refl eq_refl eq_refl).
Defined.

Lemma launchGame_store
    (catalog : Catalog) (walletId sessionId sessionToken : string)
    (userId gameId currency : string) (db : Db) :
  exists ws ss,
    final_db
      (launchGame catalog walletId sessionId sessionToken userId gameId
         currency db)
    = with_sessions (with_wallets db ws) (casino_game_sessions db ++ ss)
    /\ (ws = casino_wallets db
        \/ (casino_wallets db !! walletId = None
            /\ ws = <[walletId := new_wallet userId currency]>
                      (casino_wallets db))).
Proof.
  assert (Hsame : db = with_sessions (with_wallets db (casino_wallets db))
                         (casino_game_sessions db ++ [])).
  { rewrite app_nil_r. destruct db; reflexivity. }
  assert (Hnothing : exists ws ss,
            db = with_sessions (with_wallets db ws)
                   (casino_game_sessions db ++ ss)
            /\ (ws = casino_wallets db
                \/ (casino_wallets db !! walletId = None
                    /\ ws = <[walletId := new_wallet userId currency]>
                              (casino_wallets db)))).
  { exists (casino_wallets db), []. split; [exact Hsame|left; reflexivity]. }
  unfold launchGame.
  destruct (casino_users catalog !! userId); [|exact Hnothing].
  destruct (casino_games catalog !! gameId) as [game|]; [|exact Hnothing].
  destruct (negb (game_is_active game)); [exact Hnothing|].
  destruct (casino_game_providers catalog !! provider_id game) as [p|];
    [|exact Hnothing].
  destruct (is_disabled p); [exact Hnothing|].
  unfold bind at 1 2, getWallet.
  destruct (find (owned_by userId currency) (map_to_list (casino_wallets db)))
    as [row|] eqn:Hfound.
  - (* the user has a wallet *)
    unfold ret, bind, insert_session. cbn [fst].
    destruct (existsb _ (casino_game_sessions db)); [exact Hnothing|].
    unfold getSessionById.
    exists (casino_wallets db), [new_session sessionId sessionToken (fst row)].
    split; [|left; reflexivity].
    match goal with
    | |- context [match ?o with Some _ => _ | None => _ end] => destruct o
    end; destruct db; reflexivity.
  - (* a wallet is created *)
    unfold bind at 1 2, insert_wallet. rewrite Hfound.
    destruct (casino_wallets db !! walletId) eqn:Hfree; [exact Hnothing|].
    unfold getWalletById, ret, bind.
    destruct (casino_wallets
                (with_wallets db
                   (<[walletId := new_wallet userId currency]>
                      (casino_wallets db))) !! walletId) as [w|];
      cbn [fmap option_fmap option_map fst]; unfold insert_session;
      [destruct (existsb _ _)|].
    + exists (<[walletId := new_wallet userId currency]> (casino_wallets db)),
        [].
      split; [|right; split; reflexivity].
      rewrite app_nil_r. destruct db; reflexivity.
    + unfold getSessionById.
      exists (<[walletId := new_wallet userId currency]> (casino_wallets db)),
        [new_session sessionId sessionToken walletId].
      split; [|right; split; reflexivity].
      match goal with
      | |- context [match ?o with Some _ => _ | None => _ end] => destruct o
      end; destruct db; reflexivity.
    + exists (<[walletId := new_wallet userId currency]> (casino_wallets db)),
        [].
      split; [|right; split; reflexivity].
      rewrite app_nil_r. destruct db; reflexivity.
Qed.

(** X22. Whatever its arguments and whether it succeeds or throws, a launch
    never changes the ledger or an existing wallet, never ends or replaces a
    session that a token resolves to, and keeps every balance at or above
    zero. *)
Theorem launch_never_touches_ledger_or_wallets
    (catalog : Catalog) (walletId sessionId sessionToken : string)
    (userId gameId currency : string) (db : Db) :
  let db' :=
    final_db
      (launchGame catalog walletId sessionId sessionToken userId gameId
         currency db) in
  casino_transactions db' = casino_transactions db
  /\ (forall wid w,
        casino_wallets db !! wid = Some w ->
        casino_wallets db' !! wid = Some w)
  /\ (forall tok s,
        getSessionByToken tok db = Return (Some s) db ->
        getSessionByToken tok db' = Return (Some s) db')
  /\ (balances_nonneg db -> balances_nonneg db').
Proof.
  intros db'.
  destruct (launchGame_store catalog walletId sessionId sessionToken userId
              gameId currency db) as (ws & ss & E & Hws).
  fold db' in E. rewrite E. simpl.
  split; [reflexivity|]. split; [|split].
  - intros wid w Hw. destruct Hws as [->|[Hfree ->]]; [exact Hw|].
    rewrite lookup_insert_ne by congruence. exact Hw.
  - intros tok s Hs. apply Return_inv in Hs.
    unfold getSessionByToken. f_equal. simpl.
    apply find_app_some. exact Hs.
  - intros Hnn wid w Hw. simpl in Hw.
    destruct Hws as [->|[Hfree ->]]; [exact (Hnn wid w Hw)|].
    apply lookup_insert_Some in Hw as [[_ <-]|[_ Hw]].
    + simpl. lia.
    + exact (Hnn wid w Hw).
Qed.

Lemma launch_never_touches_ledger_or_wallets_witness :
  let db := run [debit_req "t1" 2000] (sample_db 10000) in
  let db' :=
    final_db (launchGame sample_catalog "w9" "s2" "tok2" "u1" "g1" "USD" db)
  in
  casino_transactions db' = casino_transactions db
  /\ casino_wallets db' !! "w1" = Some (sample_wallet 8000).
Proof.
  intros db db'.
  destruct (launch_never_touches_ledger_or_wallets sample_catalog "w9" "s2"
              "tok2" "u1" "g1" "USD" db) as (Hl & Hw & _).
  split; [exact Hl|]. apply Hw. reflexivity.
Defined.

(** ** Signature gate *)

Lemma timingSafeEqual_eq (a b : list Ascii.ascii) :
  timingSafeEqual a b = true <-> a = b.
Proof.
  revert b. induction a as [|x a IH]; intros [|y b]; simpl;
    try (split; [discriminate|discriminate]); [split; reflexivity|].
  rewrite andb_true_iff, Ascii.eqb_eq, IH. split.
  - intros [-> ->]. reflexivity.
  - intros E. injection E as -> ->. split; reflexivity.
Qed.

Lemma verifySignature_spec {Payload : Type} (c : Crypto Payload)
    (sig : string) (body : Payload) (secret : string) :
  verifySignature c sig body secret = true <->
  sig <> ""
  /\ Buffer_from_hex c sig = Buffer_from_hex c (signBody c body secret).
Proof.
  unfold verifySignature, falsy_str.
  destruct (String.eqb_spec sig "") as [->|Hne].
  - split; [discriminate|]. intros [H _]. contradiction H. reflexivity.
  - destruct (Nat.eqb_spec (length (Buffer_from_hex c sig))
                (length (Buffer_from_hex c (signBody c body secret))))
      as [Hlen|Hlen]; simpl.
    + rewrite timingSafeEqual_eq. split; [auto|]. intros [_ E]. exact E.
    + split; [discriminate|]. intros [_ E]. rewrite E in Hlen.
      contradiction Hlen. reflexivity.
Qed.

(** X23. [verifySignature] accepts a signature exactly when it is not empty and
    decodes to the same bytes as the signature [signBody] computes for the
    body and the secret.  So the signature of [signBody] itself verifies
    whenever it is not empty, and the empty signature never does. *)
Theorem verifySignature_accepts_matching_bytes
    {Payload : Type} (c : Crypto Payload) (providedSig : string)
    (body : Payload) (secret : string) :
  (verifySignature c providedSig body secret = true <->
   providedSig <> ""
   /\ Buffer_from_hex c providedSig =
      Buffer_from_hex c (signBody c body secret))
  /\ (signBody c body secret <> "" ->
      verifySignature c (signBody c body secret) body secret = true)
  /\ verifySignature c "" body secret = false.
Proof.
  split; [apply verifySignature_spec|]. split.
  - intros Hne. apply verifySignature_spec. split; [exact Hne|reflexivity].
  - reflexivity.
Qed.

Lemma verifySignature_accepts_matching_bytes_witness :
  signBody sample_crypto (debit_req "t1" 500) "s3cret" <> ""
  /\ verifySignature sample_crypto
       (signBody sample_crypto (debit_req "t1" 500) "s3cret")
       (debit_req "t1" 500) "s3cret" = true
  /\ verifySignature sample_crypto
       (signBody sample_crypto (debit_req "t1" 500) "s3cret")
       (debit_req "t2" 500) "s3cret" = false.
Proof.
  split; [discriminate|]. split; [|reflexivity].
  apply (proj1 (proj2 (verifySignature_accepts_matching_bytes sample_crypto
                         "" (debit_req "t1" 500) "s3cret"))).
  discriminate.
Defined.

(** X24. Behind the gate, a callback whose signature header is the signature
    [signBody] computes under the configured secret is handled exactly as the
    endpoint handles it (both the secret and the signature being non-empty). *)
Theorem signed_callback_passes_gate
    (c : Crypto Request) (secret : string) (r : Request) (db : Db) :
  secret <> "" ->
  signBody c r secret <> "" ->
  gated_handle c (Some secret) (Some (signBody c r secret)) r db =
  (Answered (fst (handle r db)), snd (handle r db)).
Proof.
  intros Hsecret Hsig.
  assert (Hok : verifySignature c (signBody c r secret) r secret = true)
    by (apply verifySignature_spec; split; [exact Hsig|reflexivity]).
  unfold gated_handle, verifySignatureMiddleware, falsy_str, or_str.
  destruct (String.eqb_spec secret "") as [E|_]; [contradiction|].
  destruct (String.eqb_spec (signBody c r secret) "") as [E|_];
    [contradiction|].
  rewrite Hok. reflexivity.
Qed.

Lemma signed_callback_passes_gate_witness :
  gated_handle sample_crypto (Some "s3cret")
    (Some (signBody sample_crypto (debit_req "t1" 500) "s3cret"))
    (debit_req "t1" 500) (sample_db 10000)
  = (Answered {| status := 200; body := MoneyBody true "t1" 9500 "USD" |},
     run [debit_req "t1" 500] (sample_db 10000)).
Proof.
  rewrite (signed_callback_passes_gate sample_crypto "s3cret"
             (debit_req "t1" 500) (sample_db 10000));
    [reflexivity|discriminate|discriminate].
Defined.

(** X25. The gate stops a callback before it reaches the ledger.  Without a
    configured secret (undefined or empty) the answer is status 500 whatever
    the signature; with a secret, a missing or empty signature header, or one
    that does not verify, is answered 401 [SIGNATURE_INVALID].  In each case
    the store is unchanged. *)
Theorem unverified_callback_is_stopped
    (c : Crypto Request) (secret signature : option string) (r : Request)
    (db : Db) :
  (or_str secret "" = "" ->
   gated_handle c secret signature r db =
   (ConfigurationError 500 "Server configuration error", db))
  /\ (forall key,
        secret = Some key -> key <> "" ->
        verifySignature c (or_str signature "") r key = false ->
        gated_handle c secret signature r db =
        (Answered
           {| status := 401;
              body := ErrorBody "Invalid signature"
                        (Some "SIGNATURE_INVALID") |}, db))
  /\ (forall key, verifySignature c (or_str None "") r key = false).
Proof.
  unfold gated_handle, verifySignatureMiddleware, falsy_str.
  split; [|split].
  - destruct secret as [key|]; [|reflexivity]. simpl.
    destruct (String.eqb_spec key "") as [->|Hne]; [reflexivity|].
    intros E. contradiction.
  - intros key -> Hne Hbad.
    destruct (String.eqb_spec key "") as [E|_]; [contradiction|].
    rewrite Hbad. reflexivity.
  - reflexivity.
Qed.

Lemma unverified_callback_is_stopped_witness :
  gated_handle sample_crypto (Some "s3cret") (Some "forged")
    (debit_req "t1" 500) (sample_db 10000)
  = (Answered
       {| status := 401;
          body := ErrorBody "Invalid signature" (Some "SIGNATURE_INVALID") |},
     sample_db 10000).
Proof.
  apply (proj1 (proj2 (unverified_callback_is_stopped sample_crypto
                         (Some "s3cret") (Some "forged")
                         (debit_req "t1" 500) (sample_db 10000)))
           "s3cret" eq_refl);
    [discriminate|reflexivity].
Defined.

(** ** More invariants of the ledger *)

(** X26. In a ledger produced by the callbacks, the flag [is_rollback] follows
    the kind of the entry: every rollback entry carries it and no credit
    does; every entry belongs to a wallet of the store and has an amount that
    is not negative. *)
Theorem ledger_entries_are_well_formed
    (db0 : Db) (rs : list Request) (t : CasinoTransaction) :
  initial db0 ->
  In t (casino_transactions (run rs db0)) ->
  (transaction_type t = rollback -> is_rollback t = true)
  /\ (transaction_type t = credit -> is_rollback t = false)
  /\ is_Some (casino_wallets (run rs db0) !! wallet_id t)
  /\ 0 <= amount t.
Proof.
  intros Hinit Hin.
  pose proof (run_preserves_inv rs db0 (initial_inv db0 Hinit)) as Hinv.
  split; [exact (inv_rollback_flag _ Hinv t Hin)|].
  split; [exact (inv_credit _ Hinv t Hin)|].
  split; [exact (inv_wallet _ Hinv t Hin)|exact (inv_amount _ Hinv t Hin)].
Qed.

Lemma ledger_entries_are_well_formed_witness :
  let db :=
    run [debit_req "t1" 2000; rollback_req "r1" "t1"] (sample_db 10000) in
  exists t : CasinoTransaction,
    In t (casino_transactions db)
    /\ transaction_type t = rollback
    /\ is_rollback t = true
    /\ amount t = 2000.
Proof.
  intros db.
  exists (rollback_entry (run [debit_req "t1" 2000] (sample_db 10000))
            (debit_entry (sample_db 10000) sample_session
               (sample_wallet 10000) "t1" 2000)
            (sample_wallet 8000) "r1" "t1" None).
  assert (Hin : In (rollback_entry
                      (run [debit_req "t1" 2000] (sample_db 10000))
                      (debit_entry (sample_db 10000) sample_session
                         (sample_wallet 10000) "t1" 2000)
                      (sample_wallet 8000) "r1" "t1" None)
                  (casino_transactions db)).
  { right. left. reflexivity. }
  split; [exact Hin|]. split; [reflexivity|]. split; [|reflexivity].
  apply (proj1 (ledger_entries_are_well_formed (sample_db 10000)
                  [debit_req "t1" 2000; rollback_req "r1" "t1"] _
                  (sample_db_initial 10000 ltac:(discriminate)) Hin)).
  reflexivity.
Defined.

(** X27. After any sequence of requests on a store that started with an empty
    ledger, the [balance_after] of the latest entry of a wallet is the
    wallet's playable balance. *)
Theorem latest_entry_holds_the_balance
    (db0 : Db) (rs : list Request) (walletId : string) (w : CasinoWallet)
    (t : CasinoTransaction) :
  initial db0 ->
  casino_wallets (run rs db0) !! walletId = Some w ->
  last (on_wallet walletId (casino_transactions (run rs db0))) = Some t ->
  balance_after t = playable_balance w.
Proof.
  intros Hinit Hw Hlast.
  exact (inv_last _ (run_preserves_inv rs db0 (initial_inv db0 Hinit))
           walletId w t Hw Hlast).
Qed.

Lemma latest_entry_holds_the_balance_witness :
  let db :=
    run [debit_req "t1" 2000; rollback_req "r9" "ghost";
         credit_req "c1" 300 None] (sample_db 10000) in
  exists t : CasinoTransaction,
    last (on_wallet "w1" (casino_transactions db)) = Some t
    /\ external_transaction_id t = "c1"
    /\ balance_after t = playable_balance (sample_wallet 8300).
Proof.
  intros db. eexists. split; [reflexivity|]. split; [reflexivity|].
  apply (latest_entry_holds_the_balance (sample_db 10000)
           [debit_req "t1" 2000; rollback_req "r9" "ghost";
            credit_req "c1" 300 None] "w1" (sample_wallet 8300));
    [apply sample_db_initial; discriminate|reflexivity|reflexivity].
Defined.

(** ** Money moves one way *)

(** X28. In a store the callbacks have produced, a debit request never raises
    the balance of any wallet, and a credit or a rollback request never lowers
    one. *)
Theorem money_moves_one_way (db : Db) (r : Request) (walletId : string)
    (w w' : CasinoWallet) :
  reachable db ->
  casino_wallets db !! walletId = Some w ->
  casino_wallets (snd (handle r db)) !! walletId = Some w' ->
  match r with
  | Debit _ => playable_balance w' <= playable_balance w
  | Credit _ | Rollback _ => playable_balance w <= playable_balance w'
  end.
Proof.
  intros Hreach Hw Hw'. pose proof (reachable_inv db Hreach) as Hinv.
  assert (Hsame : forall db',
            db' = db -> casino_wallets db' !! walletId = Some w' ->
            playable_balance w' = playable_balance w).
  { intros db' -> H. rewrite Hw in H. injection H as <-. reflexivity. }
  destruct r as [req|req|req]; simpl in Hw'.
  - destruct (debit_route_db req db) as [E|[a E]]; rewrite E in Hw'.
    { rewrite (Hsame db eq_refl Hw'). lia. }
    destruct (processDebit_outcome (debit_sessionToken req)
                (debit_transactionId req) (debit_roundId req) a db)
      as [E'|(session & w0 & _ & Hw0 & Ha & _ & E')]; rewrite E' in Hw'.
    { rewrite (Hsame db eq_refl Hw'). lia. }
    simpl in Hw'. apply lookup_insert_Some in Hw' as [[<- <-]|[_ Hw']].
    + rewrite Hw0 in Hw. injection Hw as <-. simpl. lia.
    + rewrite (Hsame db eq_refl Hw'). lia.
  - destruct (credit_route_db req db) as [E|[a E]]; rewrite E in Hw'.
    { rewrite (Hsame db eq_refl Hw'). lia. }
    destruct (processCredit_outcome (credit_sessionToken req)
                (credit_transactionId req) (credit_roundId req) a
                (credit_relatedTransactionId req) db (inv_balances db Hinv))
      as [E'|(session & w0 & _ & Hw0 & Ha & E')]; rewrite E' in Hw'.
    { rewrite (Hsame db eq_refl Hw'). lia. }
    simpl in Hw'. apply lookup_insert_Some in Hw' as [[<- <-]|[_ Hw']].
    + rewrite Hw0 in Hw. injection Hw as <-. simpl. lia.
    + rewrite (Hsame db eq_refl Hw'). lia.
  - destruct (rollback_route_db req db) as [E|E]; rewrite E in Hw'.
    { rewrite (Hsame db eq_refl Hw'). lia. }
    destruct (processRollback_outcome (rollback_sessionToken req)
                (rollback_transactionId req)
                (rollback_originalTransactionId req) (rollback_reason req)
                db Hinv)
      as [[Hws _]|(original & w0 & _ & Horig & _ & _ & _ & Hw0 & E')].
    { rewrite Hws, Hw in Hw'. injection Hw' as <-. lia. }
    rewrite E' in Hw'. simpl in Hw'.
    apply find_some in Horig as [Hin _].
    pose proof (inv_amount db Hinv original Hin) as Hamt.
    apply lookup_insert_Some in Hw' as [[<- <-]|[_ Hw']].
    + rewrite Hw0 in Hw. injection Hw as <-. simpl. lia.
    + rewrite (Hsame db eq_refl Hw'). lia.
Qed.

Lemma money_moves_one_way_witness :
  let db := run [debit_req "t1" 2000] (sample_db 10000) in
  playable_balance (sample_wallet 8000)
  <= playable_balance (sample_wallet 10000).
Proof.
  intros db.
  apply (money_moves_one_way db (rollback_req "r1" "t1") "w1"
           (sample_wallet 8000) (sample_wallet 10000));
    [|reflexivity|reflexivity].
  exists (sample_db 10000), [debit_req "t1" 2000].
  split; [apply sample_db_initial; discriminate|reflexivity].
Defined.
